(** * ConCommerce: the conversation-aware retrieval-and-grounding pipeline

    A shallow embedding of the chat route (the POST handler with its
    helpers [isCasualMessage] and [shouldUseConversationHistory]), of
    [frontend/lib/vector-search.ts] ([searchProducts]) and of
    [frontend/lib/query-parser.ts] ([mergeFilters]).

    Conventions.
    - A JS string is a Rocq [string]: the sequence of its characters, a
      character outside ASCII being the bytes of its UTF-8 encoding.
      [toLowerCase], [trim] and the regular-expression class [\s] act on
      the ASCII letters and the ASCII white space.
    - Prices are integers ([Z]); similarity scores are rationals ([Q]).
    - [topK] is a number of results ([nat]).
    - A function that can throw returns a sum: [inl] carries the message of
      the exception, [inr] the value.
    - The external services (the vector index, the embedding provider, the
      generator, the locale of the runtime) are variables of a section or
      fields of a record of services.
    - The generator is handed the context as the text that the source
      builds ([buildContext], the intent text and
      [formatConversationHistory]). *)

From Stdlib Require Import ZArith QArith String Ascii Bool Lia DecimalString.
From stdpp Require Import base list sorting strings.

Open Scope Z_scope.

(** ** Text primitives *)

Definition is_space (c : ascii) : bool :=
  (c =? " ")%char || (c =? "009")%char || (c =? "010")%char ||
  (c =? "011")%char || (c =? "012")%char || (c =? "013")%char.

Definition lower_char (c : ascii) : ascii :=
  let n := N_of_ascii c in
  if (65 <=? n)%N && (n <=? 90)%N then ascii_of_N (n + 32) else c.

(** [s.toLowerCase()] *)
Fixpoint toLowerCase (s : string) : string :=
  match s with
  | EmptyString => EmptyString
  | String c r => String (lower_char c) (toLowerCase r)
  end.

Fixpoint trimStart (s : string) : string :=
  match s with
  | String c r => if is_space c then trimStart r else s
  | EmptyString => EmptyString
  end.

Fixpoint trimEnd (s : string) : string :=
  match s with
  | EmptyString => EmptyString
  | String c r =>
      match trimEnd r with
      | EmptyString => if is_space c then EmptyString else String c EmptyString
      | r' => String c r'
      end
  end.

(** [s.trim()] *)
Definition trim (s : string) : string := trimEnd (trimStart s).

(** [s.includes(pat)] *)
Fixpoint includes (s pat : string) : bool :=
  String.prefix pat s ||
  match s with
  | EmptyString => false
  | String _ r => includes r pat
  end.

(** [s.split(/\s+/)]: the pieces between the maximal runs of white space.
    [in_run] tells that the previous character was white space. *)
Fixpoint split_ws_from (in_run : bool) (s : string) : list string :=
  match s with
  | EmptyString => [EmptyString]
  | String c r =>
      if is_space c then
        if in_run then split_ws_from true r
        else EmptyString :: split_ws_from true r
      else
        match split_ws_from false r with
        | w :: ws => String c w :: ws
        | [] => [String c EmptyString]
        end
  end.

Definition split_ws (s : string) : list string := split_ws_from false s.

(** ** Data model ([frontend/lib/types.ts]) *)

Inductive EmbeddingModel := openai | huggingface.

Inductive LLMProvider := provider_openai | provider_gemini.

Record Specs := {
  processor : option string;
  ram : option string;
  storage : option string;
  graphics : option string
}.

Record Product := {
  id : string;
  name : string;
  price_min : Z;
  price_max : Z;
  brand : string;
  category : string;
  source : string;
  url : string;
  image : string;
  specs : Specs;
  warranty : string;
  availability : option string;
  rating : option Q;
  reviews_count : option Z
}.

Inductive Role := user | assistant.

Record Message := {
  msg_role : Role;
  msg_content : string;
  msg_products : option (list Product)
}.

Record FilterState := {
  fs_priceRange : Z * Z;
  fs_categories : list string;
  fs_brands : list string;
  fs_source : list string
}.

(** ** Array primitives *)

(** [a.sort(cmp)]: the sort of the language is stable; an element is put in
    front of the first element of the sorted rest that it does not exceed. *)
Fixpoint sort_insert {A} (cmp : A -> A -> Z) (x : A) (l : list A) : list A :=
  match l with
  | [] => [x]
  | y :: t => if cmp x y <=? 0 then x :: y :: t else y :: sort_insert cmp x t
  end.

Definition array_sort {A} (cmp : A -> A -> Z) (l : list A) : list A :=
  foldr (sort_insert cmp) [] l.

(** [x || d] on an optional string: the empty string is falsy. *)
Definition or_string (x : option string) (d : string) : string :=
  match x with
  | Some s => if String.eqb s EmptyString then d else s
  | None => d
  end.

(** [x || undefined] on an optional string. *)
Definition or_undefined (x : option string) : option string :=
  match x with
  | Some s => if String.eqb s EmptyString then None else Some s
  | None => None
  end.

(** [x || 0] on an optional number. *)
Definition or_zero (x : option Z) : Z := default 0 x.

(** ** Vector search ([frontend/lib/vector-search.ts]) *)

Record SearchFilters := {
  sf_priceRange : option (Z * Z);
  sf_categories : option (list string);
  sf_brands : option (list string);
  sf_sources : option (list string)
}.

(** The metadata filter sent to the index: [price_min: {$gte}],
    [price_max: {$lte}], [source: {$in}], [brand: {$in}]. *)
Record PineconeFilter := {
  pf_price_min_gte : option Z;
  pf_price_max_lte : option Z;
  pf_source_in : option (list string);
  pf_brand_in : option (list string)
}.

(** The metadata stored with a vector; every field may be missing. *)
Record Metadata := {
  meta_name : option string;
  meta_price_min : option Z;
  meta_price_max : option Z;
  meta_brand : option string;
  meta_category : option string;
  meta_source : option string;
  meta_url : option string;
  meta_image : option string;
  meta_processor : option string;
  meta_ram : option string;
  meta_storage : option string;
  meta_graphics : option string;
  meta_warranty : option string;
  meta_availability : option string;
  meta_rating : option Q;
  meta_reviews_count : option Z
}.

Record ScoredMatch := {
  match_id : string;
  match_score : option Q;
  match_metadata : Metadata
}.

Definition RELEVANCE_THRESHOLD : Q := 0.5.
Definition OPENAI_RELEVANCE_THRESHOLD : Q := 0.4.

Definition getNamespace (embeddingModel : EmbeddingModel) : option string :=
  match embeddingModel with
  | huggingface => Some "huggingface"%string
  | openai => None
  end.

Definition nonempty_list {A} (o : option (list A)) : bool :=
  match o with
  | Some (_ :: _) => true
  | _ => false
  end.

Definition buildPineconeFilter (filters : SearchFilters) : PineconeFilter :=
  {| pf_price_min_gte :=
       match sf_priceRange filters with
       | Some (minPrice, _) => if 0 <? minPrice then Some minPrice else None
       | None => None
       end;
     pf_price_max_lte :=
       match sf_priceRange filters with
       | Some (_, maxPrice) => if maxPrice <? 200000 then Some maxPrice else None
       | None => None
       end;
     pf_source_in :=
       if nonempty_list (sf_sources filters) then sf_sources filters else None;
     pf_brand_in :=
       if nonempty_list (sf_brands filters) then sf_brands filters else None |}.

(** [Object.keys(pineconeFilter).length > 0 ? pineconeFilter : undefined] *)
Definition filter_or_undefined (f : PineconeFilter) : option PineconeFilter :=
  match pf_price_min_gte f, pf_price_max_lte f, pf_source_in f, pf_brand_in f with
  | None, None, None, None => None
  | _, _, _, _ => Some f
  end.

Definition or_rating (x : option Q) : option Q :=
  match x with
  | Some q => if Qeq_bool q 0 then None else Some q
  | None => None
  end.

Definition or_count (x : option Z) : option Z :=
  match x with
  | Some 0 => None
  | o => o
  end.

Definition toProduct (m : ScoredMatch) : Product :=
  let meta := match_metadata m in
  {| id := match_id m;
     name := or_string (meta_name meta) "";
     price_min := or_zero (meta_price_min meta);
     price_max := or_zero (meta_price_max meta);
     brand := or_string (meta_brand meta) "";
     category := or_string (meta_category meta) "";
     source := or_string (meta_source meta) "StarTech";
     url := or_string (meta_url meta) "";
     image := or_string (meta_image meta) "";
     specs := {| processor := or_undefined (meta_processor meta);
                 ram := or_undefined (meta_ram meta);
                 storage := or_undefined (meta_storage meta);
                 graphics := or_undefined (meta_graphics meta) |};
     warranty := or_string (meta_warranty meta) "";
     availability := or_undefined (meta_availability meta);
     rating := or_rating (meta_rating meta);
     reviews_count := or_count (meta_reviews_count meta) |}.

Definition threshold_of (embeddingModel : EmbeddingModel) : Q :=
  match embeddingModel with
  | huggingface => RELEVANCE_THRESHOLD
  | openai => OPENAI_RELEVANCE_THRESHOLD
  end.

Definition is_relevant (embeddingModel : EmbeddingModel) (m : ScoredMatch) : bool :=
  Qle_bool (threshold_of embeddingModel) (default 0%Q (match_score m)).

Definition category_matches (cats : list string) (p : Product) : bool :=
  existsb (fun cat => includes (toLowerCase (category p)) (toLowerCase cat)) cats.

Definition withinRange (minPrice maxPrice : Z) (p : Product) : bool :=
  (minPrice <=? price_min p) && (price_max p <=? maxPrice).

Definition by_price_min (a b : Product) : Z := price_min a - price_min b.

(** The steps of [searchProducts] after the index has answered. *)
Definition postFilter (filters : SearchFilters) (topK : nat)
    (embeddingModel : EmbeddingModel) (matches : list ScoredMatch) : list Product :=
  let relevantMatches := List.filter (is_relevant embeddingModel) matches in
  let products := map toProduct relevantMatches in
  let products :=
    match sf_categories filters with
    | Some (c :: cs) => List.filter (category_matches (c :: cs)) products
    | _ => products
    end in
  let products :=
    match sf_priceRange filters with
    | Some (minPrice, maxPrice) => List.filter (withinRange minPrice maxPrice) products
    | None => products
    end in
  let products :=
    match sf_priceRange filters with
    | Some (_, maxPrice) =>
        if maxPrice <? 200000 then array_sort by_price_min products else products
    | None => products
    end in
  take topK products.

Section VectorSearch.

(** The index: name space, query vector, number of results asked for and
    metadata filter give the matches, best first, or the index fails. *)
Variable index_query :
  option string -> list Q -> nat -> option PineconeFilter ->
  string + list ScoredMatch.

Definition searchProducts (queryEmbedding : list Q) (filters : SearchFilters)
    (topK : nat) (embeddingModel : EmbeddingModel) : string + list Product :=
  let pineconeFilter := buildPineconeFilter filters in
  let fetchCount :=
    if nonempty_list (sf_categories filters) then (topK * 2)%nat else topK in
  let namespace := getNamespace embeddingModel in
  match index_query namespace queryEmbedding fetchCount
          (filter_or_undefined pineconeFilter) with
  | inl message => inl ("Vector search failed: " +:+ message)
  | inr matches => inr (postFilter filters topK embeddingModel matches)
  end.

End VectorSearch.

(** ** Query parser ([frontend/lib/query-parser.ts]) *)

Inductive ProductCount := single | multiple | comparison | any.

Inductive Action := find | compare | recommend | info.

Record Intent := {
  productCount : ProductCount;
  action : Action
}.

Record ParsedQuery := {
  pq_priceRange : option (Z * Z);
  pq_brands : option (list string);
  pq_categories : option (list string);
  pq_sources : option (list string);
  pq_specs : option Specs;
  pq_intent : option Intent
}.

(** The empty object [{}]. *)
Definition emptyParsedQuery : ParsedQuery :=
  {| pq_priceRange := None; pq_brands := None; pq_categories := None;
     pq_sources := None; pq_specs := None; pq_intent := None |}.

(** The filter object that [mergeFilters] receives and returns is untyped
    in the source ([any]): each of its fields may be missing. *)
Record Filters := {
  priceRange : option (Z * Z);
  categories : option (list string);
  brands : option (list string);
  filter_source : option (list string)
}.

Definition emptyFilters : Filters :=
  {| priceRange := None; categories := None; brands := None; filter_source := None |}.

(** A [FilterState] of the user interface, seen as such an object. *)
Definition filtersOfState (fs : FilterState) : Filters :=
  {| priceRange := Some (fs_priceRange fs);
     categories := Some (fs_categories fs);
     brands := Some (fs_brands fs);
     filter_source := Some (fs_source fs) |}.

(** [new Set(l)] read back in insertion order: the elements of [l] are
    added one by one to the elements [seen] so far. *)
Fixpoint set_add_all (seen l : list string) : list string :=
  match l with
  | [] => seen
  | x :: t => set_add_all (if decide (x ∈ seen) then seen else seen ++ [x]) t
  end.

(** [[...new Set([...a, ...b])]] *)
Definition set_union (a b : list string) : list string :=
  set_add_all [] (a ++ b).

(** [mergeFilters(sidebarFilters, parsedFilters)]; [None] is an
    [undefined] first argument, whose properties cannot be read. *)
Definition mergeFilters (sidebarFilters : option Filters)
    (parsedFilters : ParsedQuery) : string + Filters :=
  let merged := default emptyFilters sidebarFilters in
  let merged :=
    match pq_priceRange parsedFilters with
    | Some r => {| priceRange := Some r; categories := categories merged;
                   brands := brands merged; filter_source := filter_source merged |}
    | None => merged
    end in
  let merged_brands :=
    match pq_brands parsedFilters with
    | Some (b :: bs) =>
        match sidebarFilters with
        | Some sidebar =>
            let sidebarBrands := default [] (brands sidebar) in
            inr (Some (set_union sidebarBrands (b :: bs)))
        | None => inl "Cannot read properties of undefined (reading 'brands')"%string
        end
    | _ => inr (brands merged)
    end in
  let merged_categories :=
    match pq_categories parsedFilters with
    | Some (c :: cs) =>
        match sidebarFilters with
        | Some sidebar =>
            let sidebarCategories := default [] (categories sidebar) in
            inr (Some (set_union sidebarCategories (c :: cs)))
        | None => inl "Cannot read properties of undefined (reading 'categories')"%string
        end
    | _ => inr (categories merged)
    end in
  let merged_source :=
    match pq_sources parsedFilters with
    | Some (s :: ss) => Some (s :: ss)
    | _ => filter_source merged
    end in
  match merged_brands, merged_categories with
  | inl e, _ => inl e
  | _, inl e => inl e
  | inr bs, inr cs =>
      inr {| priceRange := priceRange merged; categories := cs;
             brands := bs; filter_source := merged_source |}
  end.

(** ** JSON ([JSON.parse]) *)

(** A number literal denotes [jn_mantissa * 10 ^ jn_exp10]. The model
    keeps the literal exact where [JSON.parse] rounds it to a double; the
    two agree on every literal that a double represents exactly, among
    them the integers below 2^53. *)
Record jnumber := {
  jn_mantissa : Z;
  jn_exp10 : Z
}.

#[warnings="-register-all"] Inductive json :=
| JNull
| JBool (b : bool)
| JNumber (n : jnumber)
| JString (s : string)
| JArray (elements : list json)
| JObject (members : list (string * json)).

Definition is_json_ws (c : ascii) : bool :=
  (c =? " ")%char || (c =? "009")%char || (c =? "010")%char || (c =? "013")%char.

Fixpoint skip_json_ws (s : string) : string :=
  match s with
  | String c r => if is_json_ws c then skip_json_ws r else s
  | EmptyString => EmptyString
  end.

Definition digit_value (c : ascii) : option Z :=
  let n := N_of_ascii c in
  if (48 <=? n)%N && (n <=? 57)%N then Some (Z.of_N n - 48) else None.

Definition hex_value (c : ascii) : option N :=
  let n := N_of_ascii c in
  if (48 <=? n)%N && (n <=? 57)%N then Some (n - 48)%N
  else if (65 <=? n)%N && (n <=? 70)%N then Some (n - 55)%N
  else if (97 <=? n)%N && (n <=? 102)%N then Some (n - 87)%N
  else None.

(** The bytes that stand for the code unit [u] of a [\uXXXX] escape. *)
Definition encode_code_unit (u : N) : string :=
  if (u <? 128)%N then String (ascii_of_N u) EmptyString
  else if (u <? 2048)%N then
    String (ascii_of_N (192 + u / 64)) (String (ascii_of_N (128 + u mod 64)) EmptyString)
  else
    String (ascii_of_N (224 + u / 4096))
      (String (ascii_of_N (128 + (u / 64) mod 64))
         (String (ascii_of_N (128 + u mod 64)) EmptyString)).

(** The characters of a string literal after its opening quote: the
    decoded string and what follows the closing quote. *)
Fixpoint parse_string_body (s : string) : option (string * string) :=
  match s with
  | EmptyString => None
  | String "034" r => Some (EmptyString, r)
  | String "\" (String e r) =>
      let continue (decoded : string) (rest : string) (k : option (string * string)) :=
        match k with
        | Some (body, after) => Some (decoded +:+ body, after)
        | None => None
        end in
      match e with
      | "034"%char => continue (String "034" EmptyString) r (parse_string_body r)
      | "\"%char => continue "\"%string r (parse_string_body r)
      | "/"%char => continue "/"%string r (parse_string_body r)
      | "b"%char => continue (String "008" EmptyString) r (parse_string_body r)
      | "f"%char => continue (String "012" EmptyString) r (parse_string_body r)
      | "n"%char => continue (String "010" EmptyString) r (parse_string_body r)
      | "r"%char => continue (String "013" EmptyString) r (parse_string_body r)
      | "t"%char => continue (String "009" EmptyString) r (parse_string_body r)
      | "u"%char =>
          match r with
          | String a (String b (String c (String d r'))) =>
              match hex_value a, hex_value b, hex_value c, hex_value d with
              | Some a, Some b, Some c, Some d =>
                  continue (encode_code_unit (((a * 16 + b) * 16 + c) * 16 + d)%N) r'
                    (parse_string_body r')
              | _, _, _, _ => None
              end
          | _ => None
          end
      | _ => None
      end
  | String c r =>
      if (N_of_ascii c <? 32)%N then None
      else
        match parse_string_body r with
        | Some (body, after) => Some (String c body, after)
        | None => None
        end
  end.

(** The longest run of digits at the head of [s]: its value from the
    accumulator [acc], the number of digits and the rest. *)
Fixpoint span_digits (acc : Z) (count : nat) (s : string) : Z * nat * string :=
  match s with
  | String c r =>
      match digit_value c with
      | Some d => span_digits (acc * 10 + d) (S count) r
      | None => (acc, count, s)
      end
  | EmptyString => (acc, count, s)
  end.

(** A number literal: an optional minus sign; then 0, or a digit from 1 to
    9 and any digits; then optionally a point and at least one digit; then
    optionally e or E, an optional sign and at least one digit. *)
Definition parse_number (s : string) : option (jnumber * string) :=
  let '(negative, s) :=
    match s with
    | String "-" r => (true, r)
    | _ => (false, s)
    end in
  let integer_part :=
    match s with
    | String "0" r => Some (0, r)
    | _ =>
        match span_digits 0 0 s with
        | (_, O, _) => None
        | (v, _, r) => Some (v, r)
        end
    end in
  match integer_part with
  | None => None
  | Some (int, s) =>
      let fraction :=
        match s with
        | String "." r =>
            match span_digits int 0 r with
            | (_, O, _) => None
            | (v, k, r') => Some (v, - Z.of_nat k, r')
            end
        | _ => Some (int, 0, s)
        end in
      match fraction with
      | None => None
      | Some (mantissa, exp10, s) =>
          let mantissa := if negative : bool then - mantissa else mantissa in
          let exponent (r : string) :=
            let '(sign, r) :=
              match r with
              | String "+" r' => (1, r')
              | String "-" r' => (-1, r')
              | _ => (1, r)
              end in
            match span_digits 0 0 r with
            | (_, O, _) => None
            | (e, _, r') =>
                Some ({| jn_mantissa := mantissa; jn_exp10 := exp10 + sign * e |}, r')
            end in
          match s with
          | String "e" r => exponent r
          | String "E" r => exponent r
          | _ => Some ({| jn_mantissa := mantissa; jn_exp10 := exp10 |}, s)
          end
      end
  end.

(** Recursive descent over the grammar of JSON. Every call uses one unit
    of [fuel]; two nested calls never follow each other without a character
    being read, so that twice the length of the text is enough. *)
Fixpoint parse_value (fuel : nat) (s : string) : option (json * string) :=
  match fuel with
  | O => None
  | S fuel =>
      match skip_json_ws s with
      | String "{" r =>
          match skip_json_ws r with
          | String "}" r' => Some (JObject [], r')
          | r' =>
              match parse_members fuel r' with
              | Some (ms, r'') => Some (JObject ms, r'')
              | None => None
              end
          end
      | String "[" r =>
          match skip_json_ws r with
          | String "]" r' => Some (JArray [], r')
          | r' =>
              match parse_elements fuel r' with
              | Some (vs, r'') => Some (JArray vs, r'')
              | None => None
              end
          end
      | String "034" r =>
          match parse_string_body r with
          | Some (str, r') => Some (JString str, r')
          | None => None
          end
      | String "t" (String "r" (String "u" (String "e" r))) => Some (JBool true, r)
      | String "f" (String "a" (String "l" (String "s" (String "e" r)))) =>
          Some (JBool false, r)
      | String "n" (String "u" (String "l" (String "l" r))) => Some (JNull, r)
      | s' =>
          match parse_number s' with
          | Some (n, r) => Some (JNumber n, r)
          | None => None
          end
      end
  end
with parse_elements (fuel : nat) (s : string) : option (list json * string) :=
  match fuel with
  | O => None
  | S fuel =>
      match parse_value fuel s with
      | Some (v, r) =>
          match skip_json_ws r with
          | String "," r' =>
              match parse_elements fuel r' with
              | Some (vs, r'') => Some (v :: vs, r'')
              | None => None
              end
          | String "]" r' => Some ([v], r')
          | _ => None
          end
      | None => None
      end
  end
with parse_members (fuel : nat) (s : string) : option (list (string * json) * string) :=
  match fuel with
  | O => None
  | S fuel =>
      match skip_json_ws s with
      | String "034" r =>
          match parse_string_body r with
          | Some (key, r1) =>
              match skip_json_ws r1 with
              | String ":" r2 =>
                  match parse_value fuel r2 with
                  | Some (v, r3) =>
                      match skip_json_ws r3 with
                      | String "," r4 =>
                          match parse_members fuel r4 with
                          | Some (ms, r5) => Some ((key, v) :: ms, r5)
                          | None => None
                          end
                      | String "}" r4 => Some ([(key, v)], r4)
                      | _ => None
                      end
                  | None => None
                  end
              | _ => None
              end
          | None => None
          end
      | _ => None
      end
  end.

(** [JSON.parse(text)]; [None] is a [SyntaxError]. *)
Definition JSON_parse (text : string) : option json :=
  match parse_value (2 * String.length text + 2) text with
  | Some (v, r) =>
      match skip_json_ws r with
      | EmptyString => Some v
      | _ => None
      end
  | None => None
  end.

(** The value of the property [key] of a parsed object; the last of two
    members with the same name wins. *)
Fixpoint get_member (key : string) (ms : list (string * json)) : option json :=
  match ms with
  | [] => None
  | (k, v) :: t =>
      match get_member key t with
      | Some v' => Some v'
      | None => if String.eqb k key then Some v else None
      end
  end.

(** The integer that a number literal denotes, if it denotes one. *)
Definition jn_integer (n : jnumber) : option Z :=
  if 0 <=? jn_exp10 n then Some (jn_mantissa n * 10 ^ jn_exp10 n)
  else
    let d := 10 ^ (- jn_exp10 n) in
    if jn_mantissa n mod d =? 0 then Some (jn_mantissa n / d) else None.

(** The values that [||] and [Boolean] take for false. *)
Definition is_falsy (v : json) : bool :=
  match v with
  | JNull => true
  | JBool b => negb b
  | JNumber n => jn_mantissa n =? 0
  | JString EmptyString => true
  | _ => false
  end.

(** ** The selection protocol of the chat route *)

Definition dquote : string := String "034" EmptyString.

(** The text ["selected_product_ids"], quotes included. *)
Definition SELECTION_KEY : string := dquote +:+ "selected_product_ids" +:+ dquote.

Fixpoint string_drop (n : nat) (s : string) : string :=
  match n, s with
  | S n', String _ r => string_drop n' r
  | _, _ => s
  end.

(** The first occurrence of [pat] in [s]: what precedes it and what
    follows it. *)
Fixpoint find_sub (pat s : string) : option (string * string) :=
  if String.prefix pat s then Some (EmptyString, string_drop (String.length pat) s)
  else
    match s with
    | EmptyString => None
    | String c r =>
        match find_sub pat r with
        | Some (before, after) => Some (String c before, after)
        | None => None
        end
    end.

(** The first match of the regular expression
    [{ [\s\S]*? "selected_product_ids" [\s\S]*? }]: it starts at the first
    opening brace of the text, runs lazily to the first occurrence of the
    key after that brace and then lazily to the first closing brace after
    the key. The result is the text before the match, the match, and the
    text after it. *)
Definition match_object (s : string) : option (string * string * string) :=
  match find_sub "{" s with
  | Some (before, r1) =>
      match find_sub SELECTION_KEY r1 with
      | Some (mid, r2) =>
          match find_sub "}" r2 with
          | Some (tl, after) =>
              Some (before, "{" +:+ mid +:+ SELECTION_KEY +:+ tl +:+ "}", after)
          | None => None
          end
      | None => None
      end
  | None => None
  end.

(** The end of a fenced block: the first closing brace that is followed by
    white space and three backquotes; what lies before that brace and
    what follows the backquotes. *)
Fixpoint find_close (s : string) : option (string * string) :=
  match s with
  | EmptyString => None
  | String c r =>
      if (c =? "}")%char && String.prefix "```" (trimStart r)
      then Some (EmptyString, string_drop 3 (trimStart r))
      else
        match find_close r with
        | Some (tl, after) => Some (String c tl, after)
        | None => None
        end
  end.

(** A match of the fenced form at the very start of [s]: three backquotes,
    [jso], an optional [n], white space, then the object as above, white
    space and three backquotes. The result is the captured object and the
    text after the match. *)
Definition match_fenced_here (s : string) : option (string * string) :=
  if String.prefix "```jso" s then
    let r := string_drop 6 s in
    let r := match r with String "n" r' => r' | _ => r end in
    match trimStart r with
    | String "{" r1 =>
        match find_sub SELECTION_KEY r1 with
        | Some (mid, r2) =>
            match find_close r2 with
            | Some (tl, after) =>
                Some ("{" +:+ mid +:+ SELECTION_KEY +:+ tl +:+ "}", after)
            | None => None
            end
        | None => None
        end
    | _ => None
    end
  else None.

(** The first match of the fenced form: the text before the match, the
    captured object and the text after the match. *)
Fixpoint match_fenced (s : string) : option (string * string * string) :=
  match match_fenced_here s with
  | Some (object, after) => Some (EmptyString, object, after)
  | None =>
      match s with
      | EmptyString => None
      | String c r =>
          match match_fenced r with
          | Some (before, object, after) => Some (String c before, object, after)
          | None => None
          end
      end
  end.

(** [s.replace(re, '')] for the two expressions. *)
Definition replace_object (s : string) : string :=
  match match_object s with
  | Some (before, _, after) => before +:+ after
  | None => s
  end.

Definition replace_fenced (s : string) : string :=
  match match_fenced s with
  | Some (before, _, after) => before +:+ after
  | None => s
  end.

(** [selectionData.selected_product_ids]; [inl] when [selectionData] is
    [null], whose properties cannot be read. *)
Definition selected_product_ids (selectionData : json) : string + option json :=
  match selectionData with
  | JObject ms => inr (get_member "selected_product_ids" ms)
  | JNull => inl "Cannot read properties of null (reading 'selected_product_ids')"%string
  | _ => inr None
  end.

(** [jsonMatch]: the text handed to [JSON.parse]; the bare form is tried
    first, the fenced form when the bare form does not match. *)
Definition jsonMatch (content : string) : option string :=
  match match_object content with
  | Some (_, m, _) => Some m
  | None =>
      match match_fenced content with
      | Some (_, object, _) => Some object
      | None => None
      end
  end.

(** The block that both paths of the route run on the text of the
    generator: the value left in [selectedProductIds] and the text left in
    [cleanedContent]. An exception inside the block is caught and leaves
    both as they were. *)
Definition extractSelection (content : string) : json * string :=
  match jsonMatch content with
  | Some text =>
      match JSON_parse text with
      | Some selectionData =>
          match selected_product_ids selectionData with
          | inr value =>
              let selectedProductIds :=
                match value with
                | Some v => if is_falsy v then JArray [] else v
                | None => JArray []
                end in
              (selectedProductIds, trim (replace_fenced (replace_object content)))
          | inl _ => (JArray [], content)
          end
      | None => (JArray [], content)
      end
  | None => (JArray [], content)
  end.

Section Selection.

(** What [id - 1] makes of an element that is not a number literal: the
    integer that the runtime converts the string, array or object to, if
    it converts it to one. *)
Variable ToNumber : json -> option Z.

Definition number_of (id : json) : option Z :=
  match id with
  | JNumber n => jn_integer n
  | JNull => Some 0
  | JBool b => Some (if b then 1 else 0)
  | _ => ToNumber id
  end.

(** [products[id - 1]] *)
Definition product_at (products : list Product) (id : json) : option Product :=
  match number_of id with
  | Some n => if 0 <=? n - 1 then products !! Z.to_nat (n - 1) else None
  | None => None
  end.

(** [ids.map(id => products[id - 1]).filter(Boolean)] *)
Definition selectProducts (products : list Product) (ids : list json) : list Product :=
  omap (product_at products) ids.

(** [productSliceCount] *)
Definition productSliceCount (intent : option Intent) : nat :=
  match intent with
  | Some {| productCount := single |} => 1
  | Some {| productCount := comparison |} => 3
  | Some {| productCount := multiple |} => 5
  | _ => 5
  end.

(** Step 6 of the fresh path. A string has a length but no [map]. *)
Definition displayProducts (selectedProductIds : json) (products : list Product)
    (intent : option Intent) : string + list Product :=
  match selectedProductIds with
  | JArray (i :: ids) => inr (selectProducts products (i :: ids))
  | JString (String _ _) => inl "selectedProductIds.map is not a function"%string
  | _ => inr (take (productSliceCount intent) products)
  end.

(** The same step on the follow-up path. *)
Definition displayPrevious (selectedProductIds : json)
    (previousProducts : list Product) : string + list Product :=
  match selectedProductIds with
  | JArray (i :: ids) => inr (selectProducts previousProducts (i :: ids))
  | JString (String _ _) => inl "selectedProductIds.map is not a function"%string
  | _ => inr previousProducts
  end.

(** The selection resolver of the fresh path: the products to display
    and the narrative, from the text of the generator, the candidates
    put before it and the intent of the query. *)
Definition resolve (rawOutput : string) (candidates : list Product)
    (intent : option Intent) : string + (list Product * string) :=
  let '(selectedProductIds, cleanedContent) := extractSelection rawOutput in
  match displayProducts selectedProductIds candidates intent with
  | inl e => inl e
  | inr display => inr (display, cleanedContent)
  end.

(** The selection resolver of the follow-up path. *)
Definition resolvePrevious (rawOutput : string) (previousProducts : list Product)
    : string + (list Product * string) :=
  let '(selectedProductIds, cleanedContent) := extractSelection rawOutput in
  match displayPrevious selectedProductIds previousProducts with
  | inl e => inl e
  | inr display => inr (display, cleanedContent)
  end.

End Selection.

(** ** The chat route *)

Definition nl : string := String "010" EmptyString.

(** The product keywords of [isCasualMessage]. *)
Definition casualProductKeywords : list string :=
  ["laptop"; "desktop"; "pc"; "computer"; "phone"; "mobile"; "tablet";
   "monitor"; "keyboard"; "mouse"; "headphone"; "camera"; "printer";
   "show me"; "find"; "search"; "looking for"; "need"; "want"; "buy";
   "price"; "taka"; "৳"; "budget"; "under"; "above"; "between";
   "gaming"; "office"; "work"; "student"; "professional";
   "i5"; "i7"; "ryzen"; "ram"; "ssd"; "hdd"; "gb"; "tb"]%string.

Definition greetings : list string :=
  ["hi"; "hello"; "hey"; "hola"; "greetings"; "good morning"; "good afternoon";
   "good evening"]%string.

Definition casualPhrases : list string :=
  ["how are you"; "whats up"; "what's up"; "how r u"; "sup"]%string.

Definition isCasualMessage (message : string) : bool :=
  let lowerMessage := trim (toLowerCase message) in
  if existsb (fun keyword => includes lowerMessage keyword) casualProductKeywords then false
  else if existsb (fun g => String.eqb lowerMessage g
                            || String.eqb lowerMessage (g +:+ "!")
                            || String.eqb lowerMessage (g +:+ "?")) greetings then true
  else if existsb (fun phrase => String.eqb lowerMessage phrase
                                 || String.eqb lowerMessage (phrase +:+ "?")) casualPhrases
  then true
  else if String.eqb lowerMessage "thanks" || String.eqb lowerMessage "thank you"
          || String.eqb lowerMessage "thanks!" || String.eqb lowerMessage "thank you!"
  then true
  else if String.eqb lowerMessage "bye" || String.eqb lowerMessage "goodbye"
          || String.eqb lowerMessage "bye!" || String.eqb lowerMessage "goodbye!"
  then true
  else false.

(** The product keywords of [shouldUseConversationHistory]. *)
Definition historyProductKeywords : list string :=
  ["laptop"; "desktop"; "pc"; "computer"; "camera"; "phone"; "monitor";
   "keyboard"; "mouse"; "headphone"; "speaker"; "tablet"; "processor";
   "ram"; "ssd"; "graphics"; "display"]%string.

Definition contextTriggers : list string :=
  ["which"; "what"; "better"; "best"; "recommend"; "choose";
   "first"; "second"; "third"; "that"; "this"; "them"; "it"]%string.

Definition followUpPhrases : list string :=
  ["which is better"; "which will be better"; "which one";
   "tell me more"; "more details"; "more about";
   "compare them"; "compare these"; "difference between";
   "your recommendation"; "what do you think";
   "the first one"; "the second one"; "the third one"]%string.

Definition shouldUseConversationHistory (message : string)
    (conversationHistory : list Message) : bool :=
  match conversationHistory with
  | [] => false
  | _ :: _ =>
      let lowerMessage := trim (toLowerCase message) in
      let words := split_ws lowerMessage in
      let hasProductKeyword :=
        existsb (fun k => includes lowerMessage k) historyProductKeywords in
      let hasContextTrigger :=
        existsb (fun t => includes lowerMessage t) contextTriggers in
      if (length words <=? 5)%nat && (hasContextTrigger && negb hasProductKeyword)
      then true
      else existsb (fun phrase => includes lowerMessage phrase) followUpPhrases
  end.

(** The assistant message that [find] meets first in the reversed history. *)
Definition carries_products (m : Message) : bool :=
  match msg_role m, msg_products m with
  | assistant, Some (_ :: _) => true
  | _, _ => false
  end.

Definition lastAssistantMessage (conversationHistory : list Message) : option Message :=
  List.find carries_products (rev conversationHistory).

(** [lastAssistantMessage?.products || []] *)
Definition previousProducts (conversationHistory : list Message) : list Product :=
  match lastAssistantMessage conversationHistory with
  | Some m => default [] (msg_products m)
  | None => []
  end.

(** The three ways that the handler takes, in the order of its tests. *)
Inductive Route :=
| Casual
| Contextual (priorItems : list Product)
| Fresh.

Definition route (message : string) (conversationHistory : list Message) : Route :=
  if isCasualMessage message then Casual
  else if shouldUseConversationHistory message conversationHistory then
    match previousProducts conversationHistory with
    | p :: ps => Contextual (p :: ps)
    | [] => Fresh
    end
  else Fresh.

(** *** The context of the generator *)

(** [String(n)] *)
Definition decimal (n : nat) : string := NilZero.string_of_uint (Nat.to_uint n).

(** [history.slice(-8)] *)
Definition recentHistory (history : list Message) : list Message :=
  drop (length history - 8) history.

(** [lines.join(sep)] *)
Definition join (sep : string) (lines : list string) : string :=
  match lines with
  | [] => EmptyString
  | x :: rest => fold_left (fun acc y => acc +:+ sep +:+ y) rest x
  end.

(** A line that is pushed only when its value is truthy. *)
Definition optionalLine (label : string) (value : option string) : list string :=
  match value with
  | Some (String c r) => [label +:+ String c r]
  | _ => []
  end.

Section BuildContext.

(** [n.toLocaleString()] *)
Variable toLocaleString : Q -> string.

(** The lines that [buildContext] pushes for the product at index [i]. *)
Definition productLines (i : nat) (p : Product) : list string :=
  [nl +:+ "--- Product ID: " +:+ decimal (i + 1) +:+ " ---";
   "Name: " +:+ name p;
   if price_min p =? price_max p
   then "Price: " +:+ toLocaleString (inject_Z (price_min p)) +:+ "৳"
   else "Price: " +:+ toLocaleString (inject_Z (price_min p)) +:+ "৳ - "
        +:+ toLocaleString (inject_Z (price_max p)) +:+ "৳";
   "Category: " +:+ category p;
   "Brand: " +:+ brand p;
   "Source: " +:+ source p]
  ++ optionalLine "Processor: " (processor (specs p))
  ++ optionalLine "RAM: " (ram (specs p))
  ++ optionalLine "Storage: " (storage (specs p))
  ++ optionalLine "Graphics: " (graphics (specs p))
  ++ optionalLine "Warranty: " (Some (warranty p))
  ++ optionalLine "Availability: " (availability p)
  ++ ["URL: " +:+ url p].

Definition contextLines (products : list Product) : list string :=
  ("Here are the most relevant products from our database:" +:+ nl)
  :: concat (imap productLines products).

(** [buildContext(products)] *)
Definition buildContext (products : list Product) : string :=
  match products with
  | [] => "No products found matching the query."
  | _ :: _ => join nl (contextLines products)
  end.

End BuildContext.

(** The lines that [formatConversationHistory] pushes for one message. *)
Definition historyLines (msg : Message) : list string :=
  ((match msg_role msg with user => "User" | assistant => "Assistant" end)
   +:+ ": " +:+ msg_content msg)
  :: match msg_role msg, msg_products msg with
     | assistant, Some (p :: ps) =>
         ["[Products shown: "
          +:+ join ", " (imap (fun i q => decimal (i + 1) +:+ ". " +:+ name q) (p :: ps))
          +:+ "]"]
     | _, _ => []
     end.

(** [formatConversationHistory(history)] *)
Definition formatConversationHistory (history : list Message) : string :=
  match history with
  | [] => EmptyString
  | _ :: _ =>
      nl +:+ nl +:+ "=== Conversation History ===" +:+ nl
      +:+ join nl (concat (map historyLines (recentHistory history)))
      +:+ nl +:+ "=== End History ===" +:+ nl
  end.

Definition productCountName (c : ProductCount) : string :=
  match c with
  | single => "single"
  | multiple => "multiple"
  | comparison => "comparison"
  | any => "any"
  end.

Definition actionName (a : Action) : string :=
  match a with
  | find => "find"
  | compare => "compare"
  | recommend => "recommend"
  | info => "info"
  end.

(** [intentContext] of the fresh path. *)
Definition intentContext (intent : option Intent) : string :=
  match intent with
  | None => EmptyString
  | Some i =>
      nl +:+ nl +:+ "User Intent:" +:+ nl
      +:+ "- Product count requested: " +:+ productCountName (productCount i) +:+ nl
      +:+ "- Action: " +:+ actionName (action i) +:+ nl
      +:+ match productCount i with
          | single =>
              "IMPORTANT: User wants only ONE product recommendation. Show only the best match."
              +:+ nl
          | multiple =>
              "IMPORTANT: User wants multiple options. Show 3-5 products." +:+ nl
          | comparison =>
              "IMPORTANT: User wants to compare products. Show 2-3 products with comparison."
              +:+ nl
          | any =>
              "IMPORTANT: User is asking for information. Answer their question without showing products unless necessary."
              +:+ nl
          end
  end.

(** [intentHint] of the follow-up path. *)
Definition intentHint : string :=
  nl +:+ nl
  +:+ "User Intent: The user is asking a follow-up question about products shown earlier. Answer based on the products above."
  +:+ nl.

Record LLMResponse := {
  llm_content : string;
  llm_provider : string;
  llm_model : string;
  llm_tokensUsed : option nat
}.

(** The collaborators of the route and the runtime. *)
Record Services := {
  parseQuery : string -> string + ParsedQuery;
  generateEmbedding : string -> EmbeddingModel -> string + list Q;
  index_query : option string -> list Q -> nat -> option PineconeFilter ->
                string + list ScoredMatch;
  (** [queryLLM(SYSTEM_PROMPT, message, context, provider)] *)
  queryLLM : string -> string -> LLMProvider -> string + LLMResponse;
  toLocaleString : Q -> string;
  (** [Math.floor(Math.random() * casualResponses.length)] *)
  random_index : nat;
  ToNumber : json -> option Z
}.

(** The calls that leave the handler, in the order they are issued. *)
Inductive Event :=
| ParseQueryCall (message : string)
| EmbeddingCall (message : string) (embeddingModel : EmbeddingModel)
| SearchCall (filters : SearchFilters) (topK : nat) (embeddingModel : EmbeddingModel)
| LLMCall (message context : string) (provider : LLMProvider).

Definition IO (A : Type) : Type := list Event * A.

#[global] Instance IO_ret : MRet IO := fun A a => ([], a).

#[global] Instance IO_bind : MBind IO := fun A B f m =>
  let '(t1, a) := m in
  let '(t2, b) := f a in
  (t1 ++ t2, b).

Definition call {A} (e : Event) (result : A) : IO A := ([e], result).

Record Request := {
  (** [None]: the body has no [message], or one that is not a string. *)
  req_message : option string;
  req_provider : LLMProvider;
  req_embeddingModel : EmbeddingModel;
  req_filters : option Filters;
  req_conversationHistory : list Message
}.

Inductive Response :=
| Reply (content : string) (products : list Product)
        (provider model : string) (productsFound : nat) (tokensUsed : option nat)
| Failure (status : nat) (error : string) (details : option string).

Definition casualResponses : list string :=
  ["Hello! I'm here to help you find the best tech products from StarTech and Daraz. What are you looking for today?";
   "Hi there! Looking for laptops, desktops, or any specific tech products? I can help you compare prices and specs.";
   "Hey! Ready to help you find great deals on tech products. What would you like to search for?"]%string.

Definition casualReply (svc : Services) (message : string) : Response :=
  let responseContent :=
    if includes (toLowerCase message) "thank"
    then "You're welcome! Let me know if you need help finding any other products."%string
    else default EmptyString (casualResponses !! random_index svc) in
  Reply responseContent [] "system" "casual-response" 0 None.

(** The text of the reply to a budget under which no complete system is
    sold. *)
Definition unrealisticBudgetMessage (svc : Services) (productType : string)
    (minRealisticPrice maxPrice : Z) : string :=
  "Unfortunately, complete " +:+ productType +:+ "s aren't available under "
    +:+ toLocaleString svc (inject_Z maxPrice) +:+ "৳. "
  +:+ nl +:+ nl
  +:+ "At this price point, only accessories and parts (keyboards, displays, mice) are available. "
  +:+ nl +:+ nl +:+ "Would you like to see:" +:+ nl
  +:+ "• Budget " +:+ productType +:+ "s starting from "
    +:+ toLocaleString svc (inject_Z minRealisticPrice) +:+ "৳?" +:+ nl
  +:+ "• Used/refurbished " +:+ productType +:+ "s (may have options in higher ranges)?" +:+ nl
  +:+ "• Accessories and parts in your " +:+ toLocaleString svc (inject_Z maxPrice)
    +:+ "৳ budget?".

(** The text of the reply to a search without results. *)
Definition noResultsMessage (svc : Services) (minPrice maxPrice : Z) : string :=
  "I couldn't find any products matching your exact criteria. " +:+
  (if (maxPrice <? 200000) && (0 <? maxPrice) then
     nl +:+ nl +:+ "No products found in the " +:+ toLocaleString svc (inject_Z minPrice)
       +:+ "৳ to " +:+ toLocaleString svc (inject_Z maxPrice) +:+ "৳ range. " +:+
     (if maxPrice <? 10000 then
        nl +:+ nl
        +:+ "At this price point, only accessories and parts are available. Would you like to see:"
        +:+ nl
        +:+ "• Computer accessories (keyboards, mice, cables)?" +:+ nl
        +:+ "• Budget options starting from "
          +:+ toLocaleString svc (inject_Z (maxPrice * 3)) +:+ "৳?" +:+ nl
        +:+ "• Used/refurbished products in higher ranges?"
      else if maxPrice <? 30000 then
        nl +:+ nl
        +:+ "Complete laptops typically start from 30,000৳. Would you like to see:" +:+ nl
        +:+ "• Budget laptops starting from 30,000-35,000৳?" +:+ nl
        +:+ "• Tablets or Chromebooks in your range?" +:+ nl
        +:+ "• Used/refurbished options?"
      else
        nl +:+ nl +:+ "Would you like me to:" +:+ nl
        +:+ "• Show products in the "
          +:+ toLocaleString svc (inject_Z maxPrice * (12 # 10))%Q
          +:+ "৳ range (20% above budget)?" +:+ nl
        +:+ "• Search for alternative brands or categories?" +:+ nl
        +:+ "• Look for used/refurbished options in your range?")
   else if 0 <? minPrice then
     nl +:+ nl +:+ "Your minimum price is " +:+ toLocaleString svc (inject_Z minPrice)
       +:+ "৳. " +:+ "Would you like me to show lower-priced options as well?"
   else
     nl +:+ nl +:+ "Try:" +:+ nl
     +:+ "• Adjusting your filters (price range, brand, category)" +:+ nl
     +:+ "• Rephrasing your question with different keywords" +:+ nl
     +:+ "• Asking about a different product category").

(** The follow-up path: the answer is drawn from the products shown before. *)
Definition followUp (svc : Services) (req : Request) (message : string)
    (previous : list Product) : IO Response :=
  let productContext := buildContext (toLocaleString svc) previous in
  let conversationContext := formatConversationHistory (req_conversationHistory req) in
  let fullContext := productContext +:+ conversationContext in
  answer ← call (LLMCall message (fullContext +:+ intentHint) (req_provider req))
                (queryLLM svc message (fullContext +:+ intentHint) (req_provider req));
  match answer with
  | inl details => mret (Failure 500 "Failed to generate response" (Some details))
  | inr llmResponse =>
      match resolvePrevious (ToNumber svc) (llm_content llmResponse) previous with
      | inl details => mret (Failure 500 "Failed to generate response" (Some details))
      | inr (display, cleanedContent) =>
          mret (Reply cleanedContent display (llm_provider llmResponse)
                  (llm_model llmResponse) (length display) (llm_tokensUsed llmResponse))
      end
  end.

Definition isLookingForCompleteSystem (userQuery : string) : bool :=
  includes userQuery "laptop" || includes userQuery "desktop"
  || includes userQuery "pc" || includes userQuery "computer".

Definition isLookingForAccessories (userQuery : string) : bool :=
  includes userQuery "keyboard" || includes userQuery "mouse"
  || includes userQuery "cable" || includes userQuery "accessory"
  || includes userQuery "part".

Definition productTypeOf (userQuery : string) : string :=
  if includes userQuery "desktop" || includes userQuery "pc" then "desktop" else "laptop".

Definition minRealisticPriceOf (productType : string) : Z :=
  if String.eqb productType "desktop" then 35000 else 30000.

(** The fresh path: interpret, merge, guard the budget, embed, search,
    generate, resolve the selection. *)
Definition freshSearch (svc : Services) (req : Request) (message : string) : IO Response :=
  parsed ← call (ParseQueryCall message) (parseQuery svc message);
  let parsedQuery :=
    match parsed with
    | inr q => q
    | inl _ => emptyParsedQuery
    end in
  match mergeFilters (req_filters req) parsedQuery with
  | inl details => mret (Failure 500 "Internal server error" (Some details))
  | inr mergedFilters =>
      let '(minPrice, maxPrice) := default (0, 200000) (priceRange mergedFilters) in
      let userQuery := toLowerCase message in
      if isLookingForCompleteSystem userQuery && negb (isLookingForAccessories userQuery)
         && (0 <? maxPrice) && (maxPrice <? 25000)
      then
        let productType := productTypeOf userQuery in
        let minRealisticPrice := minRealisticPriceOf productType in
        mret (Reply (unrealisticBudgetMessage svc productType minRealisticPrice maxPrice)
                [] "system" "unrealistic-budget" 0 None)
      else
        embedding ← call (EmbeddingCall message (req_embeddingModel req))
                         (generateEmbedding svc message (req_embeddingModel req));
        match embedding with
        | inl details => mret (Failure 500 "Failed to generate embedding" (Some details))
        | inr queryEmbedding =>
            let searchFilters :=
              {| sf_priceRange := priceRange mergedFilters;
                 sf_categories := categories mergedFilters;
                 sf_brands := brands mergedFilters;
                 sf_sources := filter_source mergedFilters |} in
            found ← call (SearchCall searchFilters 8 (req_embeddingModel req))
                         (searchProducts (index_query svc) queryEmbedding searchFilters 8
                            (req_embeddingModel req));
            match found with
            | inl details => mret (Failure 500 "Failed to search products" (Some details))
            | inr [] =>
                mret (Reply (noResultsMessage svc minPrice maxPrice)
                        [] "system" "no-results" 0 None)
            | inr products =>
                let productContext := buildContext (toLocaleString svc) products in
                let conversationContext :=
                  formatConversationHistory (req_conversationHistory req) in
                let fullContext :=
                  productContext +:+ intentContext (pq_intent parsedQuery)
                  +:+ conversationContext in
                answer ← call (LLMCall message fullContext (req_provider req))
                              (queryLLM svc message fullContext (req_provider req));
                match answer with
                | inl details =>
                    mret (Failure 500 "Failed to generate response" (Some details))
                | inr llmResponse =>
                    match resolve (ToNumber svc) (llm_content llmResponse) products
                            (pq_intent parsedQuery) with
                    | inl details =>
                        mret (Failure 500 "Internal server error" (Some details))
                    | inr (display, cleanedContent) =>
                        mret (Reply cleanedContent display (llm_provider llmResponse)
                                (llm_model llmResponse) (length products)
                                (llm_tokensUsed llmResponse))
                    end
                end
            end
        end
  end.

(** The handler: the reply and the calls issued on the way. *)
Definition POST (svc : Services) (req : Request) : IO Response :=
  match req_message req with
  | None | Some EmptyString => mret (Failure 400 "Message is required" None)
  | Some message =>
      match route message (req_conversationHistory req) with
      | Casual => mret (casualReply svc message)
      | Contextual previous => followUp svc req message previous
      | Fresh => freshSearch svc req message
      end
  end.

(** The handler from the body of the request on. [req.json()] throws on
    a body that is not JSON, and the destructuring throws on the body
    [null]; the handler catches the exception. [inl] carries its message,
    [inr] the body that is read. *)
Definition POST_body (svc : Services) (body : string + Request) : IO Response :=
  match body with
  | inl details => mret (Failure 500 "Internal server error" (Some details))
  | inr req => POST svc req
  end.

(** ** Fixtures *)

Definition fixtureMetadata (nm cat : string) (lo hi : Z) : Metadata :=
  {| meta_name := Some nm; meta_price_min := Some lo; meta_price_max := Some hi;
     meta_brand := None; meta_category := Some cat; meta_source := None;
     meta_url := None; meta_image := None; meta_processor := None;
     meta_ram := None; meta_storage := None; meta_graphics := None;
     meta_warranty := None; meta_availability := None; meta_rating := None;
     meta_reviews_count := None |}.

Definition fixtureMatch (i nm cat : string) (score : Q) (lo hi : Z) : ScoredMatch :=
  {| match_id := i; match_score := Some score;
     match_metadata := fixtureMetadata nm cat lo hi |}.

Definition fixtureMatches : list ScoredMatch :=
  [fixtureMatch "p1" "Straddler" "Laptop" 0.9 20000 45000;
   fixtureMatch "p2" "Mid" "Laptop" 0.8 30000 38000;
   fixtureMatch "p3" "Cheap" "Laptop/Gaming" 0.7 25000 26000;
   fixtureMatch "p4" "Faint" "Laptop" 0.1 10000 12000].

Definition fixtureIndex : option string -> list Q -> nat -> option PineconeFilter ->
    string + list ScoredMatch :=
  fun _ _ _ _ => inr fixtureMatches.

Definition fixtureFilters (range : option (Z * Z)) : SearchFilters :=
  {| sf_priceRange := range; sf_categories := None; sf_brands := None;
     sf_sources := None |}.

(** ** Predicates of the statements *)

(** Cheapest first. *)
Definition cheaper_first (a b : Product) : Prop := price_min a <= price_min b.


(** The precedence rule of the filter merger, supplied read as present:
    a price interval or source list that the criteria carry replaces the
    one of the filter state, brand and category lists that the criteria
    carry are united with those of the filter state without duplicates. *)
Definition merge_rule_supplied (fs : FilterState) (criteria : ParsedQuery)
    (merged : Filters) : Prop :=
  (∀ r, pq_priceRange criteria = Some r → priceRange merged = Some r)
  ∧ (pq_priceRange criteria = None → priceRange merged = Some (fs_priceRange fs))
  ∧ (∀ l, pq_brands criteria = Some l →
       ∃ u, brands merged = Some u ∧ NoDup u ∧ ∀ x, x ∈ u ↔ x ∈ fs_brands fs ∨ x ∈ l)
  ∧ (∀ l, pq_categories criteria = Some l →
       ∃ u, categories merged = Some u ∧ NoDup u
            ∧ ∀ x, x ∈ u ↔ x ∈ fs_categories fs ∨ x ∈ l)
  ∧ (∀ l, pq_sources criteria = Some l → filter_source merged = Some l).

Definition fixtureState : FilterState :=
  {| fs_priceRange := (0, 200000); fs_categories := ["Laptop"];
     fs_brands := ["HP"; "Dell"]; fs_source := ["Daraz"] |}%string.

Definition fixtureCriteria : ParsedQuery :=
  {| pq_priceRange := Some (0, 40000); pq_brands := Some ["Dell"; "Asus"];
     pq_categories := None; pq_sources := Some ["StarTech"];
     pq_specs := None; pq_intent := None |}%string.

(** Criteria whose source list came out empty. *)
Definition emptySourcesCriteria : ParsedQuery :=
  {| pq_priceRange := None; pq_brands := None; pq_categories := None;
     pq_sources := Some []; pq_specs := None; pq_intent := None |}.

(** A text that neither starts nor ends with white space. *)
Fixpoint ends_solid (s : string) : bool :=
  match s with
  | EmptyString => false
  | String c EmptyString => negb (is_space c)
  | String _ r => ends_solid r
  end.

Definition starts_solid (s : string) : bool :=
  match s with
  | EmptyString => false
  | String c _ => negb (is_space c)
  end.

Definition fixtureProduct (i nm : string) (lo hi : Z) : Product :=
  toProduct (fixtureMatch i nm "Laptop" 0.9 lo hi).

Definition fixtureCandidates : list Product :=
  [fixtureProduct "c1" "Alpha" 30000 32000;
   fixtureProduct "c2" "Bravo" 33000 35000;
   fixtureProduct "c3" "Charlie" 36000 38000;
   fixtureProduct "c4" "Delta" 39000 41000;
   fixtureProduct "c5" "Echo" 42000 44000].

(** A history of two turns whose assistant turn showed two products. *)
Definition fixtureHistory : list Message :=
  [{| msg_role := user; msg_content := "show me laptops"; msg_products := None |};
   {| msg_role := assistant; msg_content := "Here are two.";
      msg_products := Some [fixtureProduct "c1" "Alpha" 30000 32000;
                            fixtureProduct "c2" "Bravo" 33000 35000] |}].

(** The calls that spend an embedding or a search. *)
Definition is_retrieval_call (e : Event) : bool :=
  match e with
  | EmbeddingCall _ _ | SearchCall _ _ _ => true
  | _ => false
  end.

(** The text of a selection object that declares [ids]. *)
Definition selectionObject (ids : string) : string :=
  "{" +:+ SELECTION_KEY +:+ ": [" +:+ ids +:+ "]}".

(** Test doubles of the collaborators. The generator answers [answer]
    whatever it is asked; numbers are printed without grouping. *)
Definition fixtureServices (answer : string) : Services :=
  {| parseQuery := fun _ => inr emptyParsedQuery;
     generateEmbedding := fun _ _ => inr [];
     index_query := fixtureIndex;
     queryLLM := fun _ _ _ =>
       inr {| llm_content := answer;
              llm_provider := "gemini"; llm_model := "gemini-2.5-flash";
              llm_tokensUsed := None |};
     toLocaleString := fun q => NilZero.string_of_int (Z.to_int (Qnum q / Z.pos (Qden q)));
     random_index := 0;
     ToNumber := fun _ => None |}.

Definition fixtureRequest (message : string) (range : Z * Z)
    (history : list Message) : Request :=
  {| req_message := Some message;
     req_provider := provider_gemini;
     req_embeddingModel := openai;
     req_filters := Some {| priceRange := Some range; categories := Some [];
                            brands := Some []; filter_source := Some [] |};
     req_conversationHistory := history |}.

(** The text of the generator carries a selection object that parses and
    whose member [selected_product_ids] has the value [value]. *)
Definition declares (rawOutput : string) (value : json) : Prop :=
  ∃ text ms,
    jsonMatch rawOutput = Some text
    ∧ JSON_parse text = Some (JObject ms)
    ∧ get_member "selected_product_ids" ms = Some value.

(** No selection object can be parsed from the text of the generator: none
    is found, or the one found is not JSON. *)
Definition no_selection (rawOutput : string) : Prop :=
  jsonMatch rawOutput = None
  ∨ ∃ text, jsonMatch rawOutput = Some text ∧ JSON_parse text = None.

(** The reference [id] points into the candidate list: it is an integer
    from 1 to the number of candidates. *)
Definition reference_in_range (ToNumber : json -> option Z)
    (candidates : list Product) (id : json) : bool :=
  match number_of ToNumber id with
  | Some n => (1 <=? n) && (n <=? Z.of_nat (length candidates))
  | None => false
  end.

(** The selection rule as the specification words it: the displayed items
    are among the candidates and as many as the references declared. *)
Definition selection_rule_as_worded (candidates : list Product) (ids : list json)
    (display : list Product) : Prop :=
  (∀ p, p ∈ display → p ∈ candidates) ∧ length display = length ids.

Definition jint (n : Z) : json := JNumber {| jn_mantissa := n; jn_exp10 := 0 |}.

(** Texts of the generator. *)
Definition bareOutput : string :=
  "Pick these two." +:+ nl +:+ nl +:+ selectionObject "1, 3".

Definition fencedOutput : string :=
  "Pick these two." +:+ nl +:+ "```json" +:+ nl +:+ selectionObject "1, 3" +:+ nl +:+ "```".

Definition plainOutput : string := "Here are laptops to compare.".

Definition outOfRangeOutput : string :=
  "Pick this one." +:+ nl +:+ nl +:+ selectionObject "1, 9".

Definition emptySelectionOutput : string :=
  "Nothing fits." +:+ nl +:+ nl +:+ selectionObject "".

Definition secondOutput : string :=
  "The second one." +:+ nl +:+ nl +:+ selectionObject "2, 9".

(** The prior item at the position that the integer reference [n] counts
    from 1, if there is one. *)
Definition referenced (previous : list Product) (n : Z) : option Product :=
  if 1 <=? n then previous !! Z.to_nat (n - 1) else None.

(** ** Further predicates of the statements *)

(** The candidates of a retrieval: the products of the matches that pass
    the relevance threshold, the category filter and the price filter, in
    the order of the index. *)
Definition eligibleProducts (filters : SearchFilters)
    (embeddingModel : EmbeddingModel) (matches : list ScoredMatch) : list Product :=
  let products := map toProduct (List.filter (is_relevant embeddingModel) matches) in
  let products :=
    match sf_categories filters with
    | Some (c :: cs) => List.filter (category_matches (c :: cs)) products
    | _ => products
    end in
  match sf_priceRange filters with
  | Some (minPrice, maxPrice) => List.filter (withinRange minPrice maxPrice) products
  | None => products
  end.

(** The upper price bound of the filters is set and below 200000. *)
Definition budget_active (filters : SearchFilters) : bool :=
  match sf_priceRange filters with
  | Some (_, maxPrice) => maxPrice <? 200000
  | None => false
  end.

Definition has_price_min (v : Z) (p : Product) : bool := price_min p =? v.

(** [getProductById(productId)] of the vector search module. [index_fetch]
    is the index asked for one record: it fails, or it answers without
    the record, or with the metadata of the record. *)
Definition getProductById (index_fetch : string -> string + option Metadata)
    (productId : string) : option Product :=
  match index_fetch productId with
  | inl _ => None
  | inr None => None
  | inr (Some meta) =>
      Some {| id := productId;
              name := or_string (meta_name meta) "";
              price_min := or_zero (meta_price_min meta);
              price_max := or_zero (meta_price_max meta);
              brand := or_string (meta_brand meta) "";
              category := or_string (meta_category meta) "";
              source := or_string (meta_source meta) "StarTech";
              url := or_string (meta_url meta) "";
              image := or_string (meta_image meta) "";
              specs := {| processor := or_undefined (meta_processor meta);
                          ram := or_undefined (meta_ram meta);
                          storage := or_undefined (meta_storage meta);
                          graphics := or_undefined (meta_graphics meta) |};
              warranty := or_string (meta_warranty meta) "";
              availability := None;
              rating := None;
              reviews_count := None |}
  end.

(** A product without the fields that only a search fills in. *)
Definition without_extras (p : Product) : Product :=
  {| id := id p; name := name p; price_min := price_min p; price_max := price_max p;
     brand := brand p; category := category p; source := source p; url := url p;
     image := image p; specs := specs p; warranty := warranty p;
     availability := None; rating := None; reviews_count := None |}.

Definition fixtureFetch : string -> string + option Metadata :=
  fun productId =>
    if String.eqb productId "p2"
    then inr (Some {| meta_name := Some "Mid"; meta_price_min := Some 30000;
                      meta_price_max := Some 38000; meta_brand := None;
                      meta_category := Some "Laptop"; meta_source := None;
                      meta_url := None; meta_image := None; meta_processor := None;
                      meta_ram := None; meta_storage := None; meta_graphics := None;
                      meta_warranty := None; meta_availability := Some "In Stock";
                      meta_rating := Some 4.5%Q; meta_reviews_count := Some 12 |})
    else inr None.

(** ** LLM providers ([frontend/lib/llm-providers.ts]) *)

(** What the chat completion of OpenAI answers: the content of the message
    of each choice ([None] for [null]), the model and the total of tokens
    of the usage, if there is a usage. *)
Record Completion := {
  completion_choices : list (option string);
  completion_model : string;
  completion_total_tokens : option nat
}.

(** The two backends: each fails with a message or answers. *)
Record Backends := {
  openai_create : string -> string -> string + Completion;
  gemini_generate : string -> string + string
}.

(** The requests that leave for a backend, in the order they are sent. *)
Inductive BackendCall :=
| OpenAICall (systemPrompt userContent : string)
| GeminiCall (prompt : string).

(** [queryOpenAI(systemPrompt, userMessage, context)] *)
Definition queryOpenAI (b : Backends) (systemPrompt userMessage context : string)
    : list BackendCall * (string + LLMResponse) :=
  let userContent := context +:+ nl +:+ nl +:+ "User Question: " +:+ userMessage in
  ([OpenAICall systemPrompt userContent],
   match openai_create b systemPrompt userContent with
   | inl message => inl ("OpenAI API error: " +:+ message)
   | inr completion =>
       match completion_choices completion with
       | [] =>
           inl ("OpenAI API error: "
                +:+ "Cannot read properties of undefined (reading 'message')")
       | content :: _ =>
           inr {| llm_content := or_string content "";
                  llm_provider := "openai";
                  llm_model := completion_model completion;
                  llm_tokensUsed := completion_total_tokens completion |}
       end
   end).

(** [queryGemini(systemPrompt, userMessage, context)] *)
Definition queryGemini (b : Backends) (systemPrompt userMessage context : string)
    : list BackendCall * (string + LLMResponse) :=
  let prompt :=
    systemPrompt +:+ nl +:+ nl +:+ context +:+ nl +:+ nl
    +:+ "User Question: " +:+ userMessage in
  ([GeminiCall prompt],
   match gemini_generate b prompt with
   | inl message => inl ("Gemini API error: " +:+ message)
   | inr text =>
       inr {| llm_content := text;
              llm_provider := "gemini";
              llm_model := "gemini-2.5-flash";
              llm_tokensUsed := None |}
   end).

Definition queryProvider (b : Backends) (provider : LLMProvider)
    (systemPrompt userMessage context : string)
    : list BackendCall * (string + LLMResponse) :=
  match provider with
  | provider_openai => queryOpenAI b systemPrompt userMessage context
  | provider_gemini => queryGemini b systemPrompt userMessage context
  end.

Definition otherProvider (provider : LLMProvider) : LLMProvider :=
  match provider with
  | provider_openai => provider_gemini
  | provider_gemini => provider_openai
  end.

(** [queryLLM(systemPrompt, userMessage, context, preferredProvider)] of
    the provider module: the preferred backend, then the other one. *)
Definition queryLLMWithFallback (b : Backends)
    (systemPrompt userMessage context : string) (preferredProvider : LLMProvider)
    : list BackendCall * (string + LLMResponse) :=
  match queryProvider b preferredProvider systemPrompt userMessage context with
  | (t1, inr response) => (t1, inr response)
  | (t1, inl error) =>
      let fallback := otherProvider preferredProvider in
      match queryProvider b fallback systemPrompt userMessage context with
      | (t2, inr response) => (t1 ++ t2, inr response)
      | (t2, inl fallbackError) =>
          (t1 ++ t2,
           inl ("Both LLM providers failed. OpenAI: " +:+ error +:+ ", Gemini: "
                +:+ fallbackError))
      end
  end.

Definition providerName (provider : LLMProvider) : string :=
  match provider with
  | provider_openai => "openai"
  | provider_gemini => "gemini"
  end.

(** The backend that a request went to. *)
Definition callee (c : BackendCall) : LLMProvider :=
  match c with
  | OpenAICall _ _ => provider_openai
  | GeminiCall _ => provider_gemini
  end.

(** Backends of which OpenAI is down and Gemini answers [text]. *)
Definition fixtureBackends (text : string) : Backends :=
  {| openai_create := fun _ _ => inl "quota exceeded"%string;
     gemini_generate := fun _ => inr text |}.

(** ** Embeddings (the embeddings module of [frontend/lib]) *)

(** The environment variables that the module reads. *)
Record Env := {
  OPENAI_API_KEY : option string;
  HUGGINGFACE_API_KEY : option string
}.

(** [!process.env.X]: the variable is not set or empty. *)
Definition unset (v : option string) : bool :=
  match v with
  | None | Some EmptyString => true
  | Some _ => false
  end.

(** The answer to an HTTP request, as far as the module reads it. *)
Record HttpResponse := {
  resp_ok : bool;
  resp_status : nat;
  resp_body : string
}.

(** The services of the embeddings module: the embeddings of OpenAI answer
    a list of data items, each with its vector; the inference endpoint of
    HuggingFace is reached with [fetch], given the key and the text;
    [describe_value] renders a value that has the wrong format, as
    [JSON.stringify(result).substring(0, 100)] does. *)
Record EmbeddingServices := {
  openai_embeddings_create : string -> string + list (list json);
  hf_fetch : string -> string -> string + HttpResponse;
  describe_value : json -> string;
  (** The message of the error that [response.json()] throws on a body. *)
  syntax_error : string -> string
}.

Inductive EmbeddingRequest :=
| OpenAIEmbeddingRequest (text : string)
| HuggingFaceRequest (apiKey text : string).

(** [generateOpenAIEmbedding(text)] *)
Definition generateOpenAIEmbedding (svc : EmbeddingServices) (text : string)
    : list EmbeddingRequest * (string + list json) :=
  ([OpenAIEmbeddingRequest text],
   match openai_embeddings_create svc text with
   | inl message => inl message
   | inr [] => inl "Cannot read properties of undefined (reading 'embedding')"%string
   | inr (embedding :: _) => inr embedding
   end).

(** The vector in the answer of HuggingFace: the first element of a batch,
    or the array itself when it is an array of numbers. *)
Definition extractEmbedding (svc : EmbeddingServices) (result : json)
    : string + list json :=
  let unexpected := inl ("Unexpected response format: " +:+ describe_value svc result) in
  match result with
  | JArray (JArray (JNumber n :: rest) :: _) => inr (JNumber n :: rest)
  | JArray (JNumber n :: rest) => inr (JNumber n :: rest)
  | _ => unexpected
  end.

(** [generateHuggingFaceEmbedding(text)] *)
Definition generateHuggingFaceEmbedding (env : Env) (svc : EmbeddingServices)
    (text : string) : list EmbeddingRequest * (string + list json) :=
  match HUGGINGFACE_API_KEY env with
  | None | Some EmptyString =>
      ([], inl "HUGGINGFACE_API_KEY is not set in environment variables"%string)
  | Some apiKey =>
      ([HuggingFaceRequest apiKey text],
       match hf_fetch svc apiKey text with
       | inl message => inl message
       | inr response =>
           if resp_ok response then
             match JSON_parse (resp_body response) with
             | None => inl (syntax_error svc (resp_body response))
             | Some result => extractEmbedding svc result
             end
           else
             inl ("HuggingFace API error (" +:+ decimal (resp_status response) +:+ "): "
                  +:+ resp_body response)
       end)
  end.

Definition embeddingModelName (model : EmbeddingModel) : string :=
  match model with
  | openai => "openai"
  | huggingface => "huggingface"
  end.

(** [generateEmbedding(text, model)] *)
Definition generateEmbeddingWith (env : Env) (svc : EmbeddingServices)
    (text : string) (model : EmbeddingModel)
    : list EmbeddingRequest * (string + list json) :=
  let '(requests, result) :=
    match model with
    | openai =>
        if unset (OPENAI_API_KEY env)
        then ([], inl "OPENAI_API_KEY is not set in environment variables"%string)
        else generateOpenAIEmbedding svc text
    | huggingface => generateHuggingFaceEmbedding env svc text
    end in
  (requests,
   match result with
   | inl message =>
       inl ("Failed to generate " +:+ embeddingModelName model +:+ " embedding: "
            +:+ message)
   | inr embedding => inr embedding
   end).

Definition is_number (v : json) : bool :=
  match v with
  | JNumber _ => true
  | _ => false
  end.

Definition keyOf (env : Env) (model : EmbeddingModel) : option string :=
  match model with
  | openai => OPENAI_API_KEY env
  | huggingface => HUGGINGFACE_API_KEY env
  end.

Definition keyName (model : EmbeddingModel) : string :=
  match model with
  | openai => "OPENAI_API_KEY"
  | huggingface => "HUGGINGFACE_API_KEY"
  end.

Definition fixtureEmbeddingServices (body : string) : EmbeddingServices :=
  {| openai_embeddings_create := fun _ => inr [[jint 1; jint 2]];
     hf_fetch := fun _ _ => inr {| resp_ok := true; resp_status := 200; resp_body := body |};
     describe_value := fun _ => "?"%string;
     syntax_error := fun _ => "Unexpected token"%string |}.

Definition fixtureEnv : Env :=
  {| OPENAI_API_KEY := None; HUGGINGFACE_API_KEY := Some "hf_key"%string |}.

(** ** Validation in [parseQuery] ([frontend/lib/query-parser.ts]) *)

(** The criteria that [parseQuery] returns. A price is the number literal
    that the generator wrote. *)
Record CleanedQuery := {
  cq_priceRange : option (jnumber * jnumber);
  cq_brands : option (list string);
  cq_categories : option (list string);
  cq_sources : option (list string);
  cq_specs : option Specs;
  cq_intent : option Intent
}.

Definition emptyCleanedQuery : CleanedQuery :=
  {| cq_priceRange := None; cq_brands := None; cq_categories := None;
     cq_sources := None; cq_specs := None; cq_intent := None |}.

(** [n <= k] for a number literal and an integer. *)
Definition jn_leb (n : jnumber) (k : Z) : bool :=
  if 0 <=? jn_exp10 n then jn_mantissa n * 10 ^ jn_exp10 n <=? k
  else jn_mantissa n <=? k * 10 ^ (- jn_exp10 n).

(** [n >= 0] *)
Definition jn_nonneg (n : jnumber) : bool := 0 <=? jn_mantissa n.

(** The rational that a number literal denotes. *)
Definition jn_value (n : jnumber) : Q :=
  if 0 <=? jn_exp10 n then inject_Z (jn_mantissa n * 10 ^ jn_exp10 n)
  else Qmake (jn_mantissa n) (Z.to_pos (10 ^ (- jn_exp10 n))).

(** The members of a value read as an object: an array or a primitive has
    none of the properties that [parseQuery] reads. *)
Definition property (v : json) (key : string) : option json :=
  match v with
  | JObject ms => get_member key ms
  | _ => None
  end.

(** [typeof v === 'string' && v.length > 0] *)
Definition nonempty_string (v : json) : option string :=
  match v with
  | JString (String c r) => Some (String c r)
  | _ => None
  end.

Definition validSources : list string := ["StarTech"; "Daraz"]%string.

Definition valid_source (v : json) : option string :=
  match v with
  | JString s => if existsb (String.eqb s) validSources then Some s else None
  | _ => None
  end.

Definition cleanPriceRange (v : option json) : option (jnumber * jnumber) :=
  match v with
  | Some (JArray (JNumber min :: JNumber max :: _)) =>
      if jn_nonneg min && jn_leb max 300000 then Some (min, max) else None
  | _ => None
  end.

(** A list field: kept when it is a non-empty array, with the elements
    that [keep] accepts. *)
Definition cleanList (keep : json -> option string) (v : option json)
    : option (list string) :=
  match v with
  | Some (JArray (x :: l)) => Some (omap keep (x :: l))
  | _ => None
  end.

Section CleanSpecs.

(** [String(v)] for a value that is not a string. *)
Variable ToString : json -> string.

Definition specField (specs : json) (key : string) : option string :=
  match property specs key with
  | Some v =>
      if is_falsy v then None
      else Some (match v with JString s => s | _ => ToString v end)
  | None => None
  end.

Definition cleanSpecs (v : option json) : option Specs :=
  match v with
  | Some (JObject ms) =>
      Some {| processor := specField (JObject ms) "processor";
              ram := specField (JObject ms) "ram";
              storage := specField (JObject ms) "storage";
              graphics := specField (JObject ms) "graphics" |}
  | Some (JArray l) =>
      Some {| processor := None; ram := None; storage := None; graphics := None |}
  | _ => None
  end.

Definition productCountOf (v : option json) : option ProductCount :=
  match v with
  | Some (JString "single") => Some single
  | Some (JString "multiple") => Some multiple
  | Some (JString "comparison") => Some comparison
  | Some (JString "any") => Some any
  | _ => None
  end.

Definition actionOf (v : option json) : option Action :=
  match v with
  | Some (JString "find") => Some find
  | Some (JString "compare") => Some compare
  | Some (JString "recommend") => Some recommend
  | Some (JString "info") => Some info
  | _ => None
  end.

Definition cleanIntent (v : option json) : option Intent :=
  match v with
  | Some (JObject ms) =>
      match productCountOf (get_member "productCount" ms),
            actionOf (get_member "action" ms) with
      | Some pc, Some a => Some {| productCount := pc; action := a |}
      | _, _ => None
      end
  | _ => None
  end.

(** The part of [parseQuery] that follows the call of the generator:
    [generated] is the text of the generator, or the failure of the call. *)
Definition parseQueryFrom (generated : string + string) : CleanedQuery :=
  match generated with
  | inl _ => emptyCleanedQuery
  | inr text =>
      match JSON_parse text with
      | None | Some JNull => emptyCleanedQuery
      | Some parsed =>
          {| cq_priceRange := cleanPriceRange (property parsed "priceRange");
             cq_brands := cleanList nonempty_string (property parsed "brands");
             cq_categories := cleanList nonempty_string (property parsed "categories");
             cq_sources := cleanList valid_source (property parsed "sources");
             cq_specs := cleanSpecs (property parsed "specs");
             cq_intent := cleanIntent (property parsed "intent") |}
      end
  end.

End CleanSpecs.

(** A text of the generator of [parseQuery]: a budget and two sources, one
    of them unknown. *)
Definition fixtureCriteriaText : string :=
  "{" +:+ dquote +:+ "priceRange" +:+ dquote +:+ ": [0, 30000], "
  +:+ dquote +:+ "sources" +:+ dquote +:+ ": [" +:+ dquote +:+ "Daraz" +:+ dquote
  +:+ ", " +:+ dquote +:+ "Amazon" +:+ dquote +:+ "]}".

(** ** Conversation storage (the storage utility of [frontend/lib])

    What [localStorage] holds under [STORAGE_KEY] is read back by
    [JSON.parse] and the revival of the dates; the model keeps the
    conversations that are read back.  A date is its time in
    milliseconds.  Of a message the model keeps what the chat route
    reads: the role, the content and the products.  [substring] and
    [length] count the characters of the model, which are those of the
    source for ASCII content. *)

Definition MAX_CONVERSATIONS : nat := 10.

Record Conversation := {
  conv_id : string;
  conv_messages : list Message;
  createdAt : Z;
  updatedAt : Z;
  title : option string
}.

Record ConversationSummary := {
  sum_id : string;
  sum_title : string;
  messageCount : nat;
  lastUpdated : Z
}.

(** The item of [localStorage]: missing (or empty), a text that cannot be
    read back as conversations, or the conversations. *)
Inductive Item :=
| Missing
| Unreadable
| Holds (conversations : list Conversation).

(** [window] is false on the server; [setItem_error] is the exception that
    [setItem] throws when the storage refuses the write. *)
Record Browser := {
  window : bool;
  localStorage : Item;
  sessionStorage : option string;
  setItem_error : option string
}.

Definition with_localStorage (b : Browser) (item : Item) : Browser :=
  {| window := window b; localStorage := item;
     sessionStorage := sessionStorage b; setItem_error := setItem_error b |}.

Definition with_sessionStorage (b : Browser) (id : option string) : Browser :=
  {| window := window b; localStorage := localStorage b;
     sessionStorage := id; setItem_error := setItem_error b |}.

(** [getAllConversations()] *)
Definition getAllConversations (b : Browser) : list Conversation :=
  if window b then
    match localStorage b with
    | Holds conversations => conversations
    | Missing | Unreadable => []
    end
  else [].

(** [getConversation(id)] *)
Definition getConversation (b : Browser) (id : string) : option Conversation :=
  List.find (fun conv => String.eqb (conv_id conv) id) (getAllConversations b).

(** [getCurrentConversationId()] *)
Definition getCurrentConversationId (b : Browser) : option string :=
  if window b then sessionStorage b else None.

(** [setCurrentConversationId(id)] *)
Definition setCurrentConversationId (b : Browser) (id : string) : string + Browser :=
  if window b then
    match setItem_error b with
    | Some e => inl e
    | None => inr (with_sessionStorage b (Some id))
    end
  else inr b.

(** [createConversation()], [now] being the clock and [token] the text
    of [Math.random().toString(36).substr(2, 9)]. *)
Definition createConversation (b : Browser) (now : Z) (token : string)
    : string + (Browser * Conversation) :=
  let newConversation :=
    {| conv_id := "conv_" +:+ decimal (Z.to_nat now) +:+ "_" +:+ token;
       conv_messages := [];
       createdAt := now;
       updatedAt := now;
       title := None |} in
  match setCurrentConversationId b (conv_id newConversation) with
  | inl e => inl e
  | inr b' => inr (b', newConversation)
  end.

(** [l.findIndex(f)], [None] standing for -1. *)
Fixpoint findIndex {A} (f : A -> bool) (l : list A) : option nat :=
  match l with
  | [] => None
  | x :: t => if f x then Some 0%nat else S <$> findIndex f t
  end.

(** The title that [saveConversation] generates. *)
Definition generatedTitle (content : string) : string :=
  String.substring 0 50 content
  +:+ (if (50 <? String.length content)%nat then "..." else EmptyString).

(** The conversation as [saveConversation] leaves it. *)
Definition touched (now : Z) (conversation : Conversation) : Conversation :=
  let generated :=
    if String.eqb (or_string (title conversation) EmptyString) EmptyString
       && (0 <? length (conv_messages conversation))%nat
    then
      match List.find (fun m => match msg_role m with user => true | assistant => false end)
              (conv_messages conversation) with
      | Some firstUserMessage => Some (generatedTitle (msg_content firstUserMessage))
      | None => title conversation
      end
    else title conversation in
  {| conv_id := conv_id conversation;
     conv_messages := conv_messages conversation;
     createdAt := createdAt conversation;
     updatedAt := now;
     title := generated |}.

Definition most_recent_first (a b : Conversation) : Z := updatedAt b - updatedAt a.

(** [saveConversation(conversation)]: the browser after the call and the
    conversation, which the call updates in place. *)
Definition saveConversation (b : Browser) (now : Z) (conversation : Conversation)
    : Browser * Conversation :=
  if window b then
    let conversations := getAllConversations b in
    let existingIndex :=
      findIndex (fun c => String.eqb (conv_id c) (conv_id conversation)) conversations in
    let conversation := touched now conversation in
    let conversations :=
      match existingIndex with
      | Some i => <[i := conversation]> conversations
      | None => conversations ++ [conversation]
      end in
    let sortedConversations :=
      take MAX_CONVERSATIONS (array_sort most_recent_first conversations) in
    match setItem_error b with
    | Some _ => (b, conversation)
    | None => (with_localStorage b (Holds sortedConversations), conversation)
    end
  else (b, conversation).

(** [deleteConversation(id)] *)
Definition deleteConversation (b : Browser) (id : string) : Browser :=
  if window b then
    let conversations :=
      List.filter (fun c => negb (String.eqb (conv_id c) id)) (getAllConversations b) in
    match setItem_error b with
    | Some _ => b
    | None =>
        let b := with_localStorage b (Holds conversations) in
        match getCurrentConversationId b with
        | Some current =>
            if String.eqb current id then with_sessionStorage b None else b
        | None => b
        end
    end
  else b.

(** [clearAllConversations()] *)
Definition clearAllConversations (b : Browser) : Browser :=
  if window b then with_sessionStorage (with_localStorage b Missing) None else b.

(** [getConversationSummaries()] *)
Definition getConversationSummaries (b : Browser) : list ConversationSummary :=
  array_sort (fun x y => lastUpdated y - lastUpdated x)
    (map (fun conv =>
            {| sum_id := conv_id conv;
               sum_title := or_string (title conv) "New Conversation";
               messageCount := length (conv_messages conv);
               lastUpdated := updatedAt conv |})
       (getAllConversations b)).

(** [addMessageToConversation(conversationId, message)] *)
Definition addMessageToConversation (b : Browser) (now : Z) (conversationId : string)
    (message : Message) : Browser :=
  match getConversation b conversationId with
  | Some conversation =>
      fst (saveConversation b now
             {| conv_id := conv_id conversation;
                conv_messages := conv_messages conversation ++ [message];
                createdAt := createdAt conversation;
                updatedAt := updatedAt conversation;
                title := title conversation |})
  | None => b
  end.

(** [l.slice(start)] *)
Definition slice_from {A} (start : Z) (l : list A) : list A :=
  if start <? 0 then drop (Z.to_nat (Z.max (Z.of_nat (length l) + start) 0)) l
  else drop (Z.to_nat start) l.

(** [getConversationContext(conversationId, maxMessages)] *)
Definition getConversationContext (b : Browser) (conversationId : string)
    (maxMessages : Z) : string :=
  match getConversation b conversationId with
  | Some conversation =>
      match conv_messages conversation with
      | [] => EmptyString
      | _ :: _ =>
          let recentMessages := slice_from (- maxMessages) (conv_messages conversation) in
          join (nl +:+ nl)
            (map (fun msg =>
                    (match msg_role msg with user => "User" | assistant => "Assistant" end)
                    +:+ ": " +:+ msg_content msg)
               recentMessages)
      end
  | None => EmptyString
  end.

(** A browser for the examples: two stored conversations. *)
Definition fixtureConversation (id : string) (at_ : Z) : Conversation :=
  {| conv_id := id; conv_messages := fixtureHistory;
     createdAt := at_; updatedAt := at_; title := Some "show me laptops" |}.

Definition fixtureBrowser : Browser :=
  {| window := true;
     localStorage := Holds [fixtureConversation "conv_2" 2000; fixtureConversation "conv_1" 1000];
     sessionStorage := Some "conv_2";
     setItem_error := None |}.

(** Services whose interpreter finds the criteria of the examples in every
    message, and a request that carries no filters. *)
Definition criteriaServices : Services :=
  {| parseQuery := fun _ => inr fixtureCriteria;
     generateEmbedding := generateEmbedding (fixtureServices "ok");
     index_query := index_query (fixtureServices "ok");
     queryLLM := queryLLM (fixtureServices "ok");
     toLocaleString := toLocaleString (fixtureServices "ok");
     random_index := random_index (fixtureServices "ok");
     ToNumber := ToNumber (fixtureServices "ok") |}.

Definition bareRequest (message : string) : Request :=
  {| req_message := Some message;
     req_provider := provider_openai;
     req_embeddingModel := openai;
     req_filters := None;
     req_conversationHistory := [] |}.
(** * Properties *)

(** ** Arrays *)

Section Sorting.
Context {A : Type} (cmp : A -> A -> Z).

Lemma elem_of_sort_insert (x a : A) (l : list A) :
  x ∈ sort_insert cmp a l ↔ x = a ∨ x ∈ l.
Proof.
  induction l as [|y t IH]; simpl.
  - rewrite list_elem_of_singleton, elem_of_nil. tauto.
  - destruct (cmp a y <=? 0).
    + rewrite !elem_of_cons. tauto.
    + rewrite !elem_of_cons, IH. tauto.
Qed.

Lemma elem_of_array_sort (x : A) (l : list A) :
  x ∈ array_sort cmp l ↔ x ∈ l.
Proof.
  induction l as [|a t IH]; simpl; [done|].
  rewrite elem_of_sort_insert, IH, elem_of_cons. tauto.
Qed.

Lemma length_sort_insert (a : A) (l : list A) :
  length (sort_insert cmp a l) = S (length l).
Proof.
  induction l as [|y t IH]; simpl; [done|].
  destruct (cmp a y <=? 0); simpl; congruence.
Qed.
End Sorting.

Lemma sort_insert_by_price_sorted (a : Product) (l : list Product) :
  StronglySorted cheaper_first l →
  StronglySorted cheaper_first (sort_insert by_price_min a l).
Proof.
  induction 1 as [|y t Hs IH Hall]; simpl.
  - repeat constructor.
  - unfold by_price_min at 1. destruct (Z.leb_spec (price_min a - price_min y) 0) as [Hle|Hgt].
    + constructor; [by constructor|].
      constructor; [unfold cheaper_first; lia|].
      eapply Forall_impl; [exact Hall|]. unfold cheaper_first. intros z Hz. lia.
    + constructor; [exact IH|].
      apply Forall_forall. intros z Hz.
      apply elem_of_sort_insert in Hz as [->|Hz].
      * unfold cheaper_first. lia.
      * rewrite Forall_forall in Hall. by apply Hall.
Qed.

Lemma array_sort_by_price_sorted (l : list Product) :
  StronglySorted cheaper_first (array_sort by_price_min l).
Proof.
  induction l as [|a t IH]; simpl; [constructor|].
  by apply sort_insert_by_price_sorted.
Qed.

Lemma StronglySorted_take {A} (R : relation A) (n : nat) (l : list A) :
  StronglySorted R l → StronglySorted R (take n l).
Proof.
  intros H. rewrite <- (take_drop n l) in H.
  by apply StronglySorted_app_1_l in H.
Qed.

Lemma sublist_List_filter {A} (f : A -> bool) (l : list A) :
  List.filter f l `sublist_of` l.
Proof.
  induction l as [|a t IH]; simpl; [constructor|].
  destruct (f a); by constructor.
Qed.

Lemma elem_of_List_filter {A} (f : A -> bool) (l : list A) (x : A) :
  x ∈ List.filter f l ↔ x ∈ l ∧ f x = true.
Proof. rewrite !list_elem_of_In. apply filter_In. Qed.

Lemma postFilter_within (filters : SearchFilters) topK em matches lo hi p :
  sf_priceRange filters = Some (lo, hi) →
  p ∈ postFilter filters topK em matches →
  withinRange lo hi p = true.
Proof.
  intros Hr Hp. unfold postFilter in Hp. rewrite Hr in Hp.
  apply elem_of_take in Hp as (i & Hi & _).
  apply list_elem_of_lookup_2 in Hi.
  destruct (hi <? 200000).
  - apply elem_of_array_sort in Hi. by apply elem_of_List_filter in Hi as [_ ?].
  - by apply elem_of_List_filter in Hi as [_ ?].
Qed.

(** ** Vector search *)

(** C1. Whenever a retrieval is made with a price interval
    [requestedMin, requestedMax] and succeeds, every product returned has
    its [price_min] at least [requestedMin] and its [price_max] at most
    [requestedMax]; so a candidate priced from 20000 to 45000 is never
    returned when the interval asked for is from 0 to 40000. *)
Theorem searchProducts_price_containment
    (index_query : option string -> list Q -> nat -> option PineconeFilter ->
                   string + list ScoredMatch)
    (queryEmbedding : list Q) (filters : SearchFilters) (topK : nat)
    (embeddingModel : EmbeddingModel) (requestedMin requestedMax : Z)
    (products : list Product) :
  sf_priceRange filters = Some (requestedMin, requestedMax) →
  searchProducts index_query queryEmbedding filters topK embeddingModel = inr products →
  (∀ p, p ∈ products → requestedMin <= price_min p ∧ price_max p <= requestedMax)
  ∧ (requestedMin = 0 → requestedMax = 40000 →
     ∀ p, p ∈ products → ¬ (price_min p = 20000 ∧ price_max p = 45000)).
Proof.
  intros Hr Hs. unfold searchProducts in Hs.
  destruct (index_query _ _ _ _) as [e|matches]; [discriminate|].
  injection Hs as <-.
  assert (Hall : ∀ p, p ∈ postFilter filters topK embeddingModel matches →
                      requestedMin <= price_min p ∧ price_max p <= requestedMax).
  { intros p Hp. pose proof (postFilter_within _ _ _ _ _ _ _ Hr Hp) as Hw.
    unfold withinRange in Hw. apply andb_true_iff in Hw as [H1 H2].
    split; lia. }
  split; [exact Hall|].
  intros -> -> p Hp [H1 H2]. apply Hall in Hp. lia.
Qed.

Lemma searchProducts_price_containment_witness :
  sf_priceRange (fixtureFilters (Some (0, 40000))) = Some (0, 40000)
  ∧ searchProducts fixtureIndex [] (fixtureFilters (Some (0, 40000))) 8 openai
    = inr (map toProduct [fixtureMatch "p3" "Cheap" "Laptop/Gaming" 0.7 25000 26000;
                          fixtureMatch "p2" "Mid" "Laptop" 0.8 30000 38000])
  ∧ ∀ p, p ∈ map toProduct [fixtureMatch "p3" "Cheap" "Laptop/Gaming" 0.7 25000 26000;
                             fixtureMatch "p2" "Mid" "Laptop" 0.8 30000 38000] →
         ¬ (price_min p = 20000 ∧ price_max p = 45000).
Proof.
  split; [reflexivity|]. split; [reflexivity|].
  apply (searchProducts_price_containment fixtureIndex [] (fixtureFilters (Some (0, 40000)))
           8%nat openai 0 40000); reflexivity.
Defined.

(** C3. A retrieval whose upper price bound is set and below 200000 returns
    its products cheapest first (ascending [price_min]); a retrieval
    without such a bound returns them in the order in which the index
    answered; and a retrieval never returns more than [topK] products. *)
Theorem searchProducts_order_and_limit
    (index_query : option string -> list Q -> nat -> option PineconeFilter ->
                   string + list ScoredMatch)
    (queryEmbedding : list Q) (filters : SearchFilters) (topK : nat)
    (embeddingModel : EmbeddingModel) (products : list Product) :
  searchProducts index_query queryEmbedding filters topK embeddingModel = inr products →
  ∃ matches,
    index_query (getNamespace embeddingModel) queryEmbedding
      (if nonempty_list (sf_categories filters) then (topK * 2)%nat else topK)
      (filter_or_undefined (buildPineconeFilter filters)) = inr matches
    ∧ (∀ lo hi, sf_priceRange filters = Some (lo, hi) → hi < 200000 →
         StronglySorted cheaper_first products)
    ∧ ((∀ lo hi, sf_priceRange filters = Some (lo, hi) → 200000 <= hi) →
         products `sublist_of` map toProduct matches)
    ∧ (length products <= topK)%nat.
Proof.
  unfold searchProducts.
  destruct (index_query _ _ _ _) as [e|matches]; [discriminate|].
  intros [= <-]. exists matches. split; [reflexivity|].
  unfold postFilter. repeat split.
  - intros lo hi Hr Hhi. rewrite Hr.
    apply Z.ltb_lt in Hhi. rewrite Hhi.
    apply StronglySorted_take, array_sort_by_price_sorted.
  - intros Hno.
    etrans; [apply sublist_take|].
    assert (Hcat : ∀ l : list Product,
      match sf_categories filters with
      | Some (c :: cs) => List.filter (category_matches (c :: cs)) l
      | _ => l
      end `sublist_of` l).
    { intros l. destruct (sf_categories filters) as [[|c cs]|]; try done.
      apply sublist_List_filter. }
    assert (Hrel : map toProduct (List.filter (is_relevant embeddingModel) matches)
                   `sublist_of` map toProduct matches).
    { apply (fmap_sublist toProduct), sublist_List_filter. }
    destruct (sf_priceRange filters) as [[lo hi]|] eqn:Hr.
    + specialize (Hno lo hi eq_refl).
      destruct (Z.ltb_spec hi 200000); [lia|].
      etrans; [apply sublist_List_filter|]. etrans; [apply Hcat|]. exact Hrel.
    + etrans; [apply Hcat|]. exact Hrel.
  - rewrite length_take. lia.
Qed.

Lemma searchProducts_order_and_limit_witness :
  searchProducts fixtureIndex [] (fixtureFilters (Some (0, 40000))) 8 openai
    = inr (map toProduct [fixtureMatch "p3" "Cheap" "Laptop/Gaming" 0.7 25000 26000;
                          fixtureMatch "p2" "Mid" "Laptop" 0.8 30000 38000])
  ∧ StronglySorted cheaper_first
      (map toProduct [fixtureMatch "p3" "Cheap" "Laptop/Gaming" 0.7 25000 26000;
                      fixtureMatch "p2" "Mid" "Laptop" 0.8 30000 38000]).
Proof.
  split; [reflexivity|].
  destruct (searchProducts_order_and_limit fixtureIndex [] (fixtureFilters (Some (0, 40000)))
              8%nat openai _ eq_refl) as (matches & _ & Hsorted & _).
  apply (Hsorted 0 40000); [reflexivity|lia].
Defined.

(** ** Filter merger *)

Lemma set_add_all_spec (l seen : list string) :
  NoDup seen →
  NoDup (set_add_all seen l) ∧ ∀ x, x ∈ set_add_all seen l ↔ x ∈ seen ∨ x ∈ l.
Proof.
  revert seen. induction l as [|a t IH]; intros seen Hnd; simpl.
  - split; [done|]. intros x. rewrite elem_of_nil. tauto.
  - destruct (decide (a ∈ seen)) as [Hin|Hnin].
    + destruct (IH seen Hnd) as [H1 H2]. split; [done|].
      intros x. rewrite H2, elem_of_cons. split; [tauto|].
      intros [?|[->|?]]; tauto.
    + assert (Hnd' : NoDup (seen ++ [a])).
      { apply NoDup_app. split; [done|]. split; [|apply NoDup_singleton].
        intros x Hx. rewrite list_elem_of_singleton. by intros ->. }
      destruct (IH _ Hnd') as [H1 H2]. split; [done|].
      intros x. rewrite H2, elem_of_app, list_elem_of_singleton, elem_of_cons. tauto.
Qed.

Lemma set_union_spec (a b : list string) :
  NoDup (set_union a b) ∧ ∀ x, x ∈ set_union a b ↔ x ∈ a ∨ x ∈ b.
Proof.
  unfold set_union. destruct (set_add_all_spec (a ++ b) [] (NoDup_nil_2)) as [H1 H2].
  split; [done|]. intros x. rewrite H2, elem_of_app, elem_of_nil. tauto.
Qed.

(** C2, as amended. For a filter state and criteria, the merge succeeds
    and: a price interval in the criteria becomes the merged interval, and
    without one the interval of the filter state passes through; a
    non-empty brand (category) list in the criteria gives the
    duplicate-free union of both lists, and without one, or with an empty
    one, the list of the filter state passes through; a non-empty source
    list in the criteria replaces the sources of the filter state, and
    without one, or with an empty one, they pass through. *)
Theorem mergeFilters_precedence (fs : FilterState) (criteria : ParsedQuery) :
  ∃ merged,
    mergeFilters (Some (filtersOfState fs)) criteria = inr merged
    ∧ (∀ r, pq_priceRange criteria = Some r → priceRange merged = Some r)
    ∧ (pq_priceRange criteria = None → priceRange merged = Some (fs_priceRange fs))
    ∧ (∀ b bs, pq_brands criteria = Some (b :: bs) →
         ∃ u, brands merged = Some u ∧ NoDup u
              ∧ ∀ x, x ∈ u ↔ x ∈ fs_brands fs ∨ x ∈ b :: bs)
    ∧ (pq_brands criteria = None ∨ pq_brands criteria = Some [] →
         brands merged = Some (fs_brands fs))
    ∧ (∀ c cs, pq_categories criteria = Some (c :: cs) →
         ∃ u, categories merged = Some u ∧ NoDup u
              ∧ ∀ x, x ∈ u ↔ x ∈ fs_categories fs ∨ x ∈ c :: cs)
    ∧ (pq_categories criteria = None ∨ pq_categories criteria = Some [] →
         categories merged = Some (fs_categories fs))
    ∧ (∀ s ss, pq_sources criteria = Some (s :: ss) →
         filter_source merged = Some (s :: ss))
    ∧ (pq_sources criteria = None ∨ pq_sources criteria = Some [] →
         filter_source merged = Some (fs_source fs)).
Proof.
  destruct criteria as [pr br ca so sp it]; simpl.
  destruct pr as [r0|], br as [[|b0 bs0]|], ca as [[|c0 cs0]|], so as [[|s0 ss0]|];
    (eexists; split; [reflexivity|]; simpl; repeat split;
     try (intros; discriminate);
     try (intros ? ? [= <- <-]; eexists; split; [reflexivity|]; apply set_union_spec);
     try (intros ? ? [= <- <-]; reflexivity);
     try (intros ? [= <-]; reflexivity);
     try (intros [?|?]; (discriminate || reflexivity));
     try (intros; reflexivity)).
Qed.

Lemma mergeFilters_precedence_witness :
  pq_priceRange fixtureCriteria = Some (0, 40000)
  ∧ ∃ merged,
      mergeFilters (Some (filtersOfState fixtureState)) fixtureCriteria = inr merged
      ∧ priceRange merged = Some (0, 40000).
Proof.
  split; [reflexivity|].
  destruct (mergeFilters_precedence fixtureState fixtureCriteria)
    as (merged & Hm & Hp & _).
  exists merged. split; [exact Hm|]. apply Hp. reflexivity.
Defined.

(** C2, as worded, fails: criteria that carry an empty source list do not
    replace the sources of the filter state. *)
Lemma mergeFilters_empty_sources_pass_through :
  ∃ merged,
    mergeFilters (Some (filtersOfState fixtureState)) emptySourcesCriteria = inr merged
    ∧ filter_source merged = Some ["Daraz"%string]
    ∧ ¬ merge_rule_supplied fixtureState emptySourcesCriteria merged.
Proof.
  eexists. split; [reflexivity|]. split; [reflexivity|].
  intros (_ & _ & _ & _ & Hs).
  specialize (Hs [] eq_refl). discriminate Hs.
Qed.

(** ** Text *)

Lemma prefix_nonempty (pat s : string) :
  String.prefix pat s = true → pat ≠ EmptyString → s ≠ EmptyString.
Proof. destruct pat, s; simpl; congruence. Qed.

Lemma includes_nonempty (s pat : string) :
  includes s pat = true → pat ≠ EmptyString → s ≠ EmptyString.
Proof.
  destruct s, pat; simpl; congruence.
Qed.

Lemma includes_trimStart (s pat : string) :
  starts_solid pat = true → includes s pat = true → includes (trimStart s) pat = true.
Proof.
  intros Hp. induction s as [|c r IH]; simpl; [done|].
  destruct (is_space c) eqn:Hc; [|done].
  intros H. apply IH. apply orb_true_iff in H as [H|H]; [|done].
  destruct pat as [|p ps]; [done|]. simpl in H, Hp.
  destruct (ascii_dec p c) as [->|]; [|done]. by rewrite Hc in Hp.
Qed.

Lemma prefix_trimEnd (pat s : string) :
  ends_solid pat = true → String.prefix pat s = true →
  String.prefix pat (trimEnd s) = true.
Proof.
  revert s. induction pat as [|p ps IH]; intros s Hp H; [done|].
  destruct s as [|c r]; [done|]. simpl in H.
  destruct (ascii_dec p c) as [->|]; [|done].
  destruct ps as [|q qs].
  - simpl in Hp. simpl. destruct (trimEnd r).
    + destruct (is_space c); [done|]. simpl. by destruct (ascii_dec c c).
    + simpl. by destruct (ascii_dec c c).
  - assert (Hr : String.prefix (String q qs) (trimEnd r) = true) by by apply IH.
    simpl. destruct (trimEnd r) as [|c' r'] eqn:E; [done|].
    simpl. destruct (ascii_dec c c); [|done]. exact Hr.
Qed.

Lemma includes_trimEnd (s pat : string) :
  ends_solid pat = true → includes s pat = true → includes (trimEnd s) pat = true.
Proof.
  intros Hp. assert (Hne : pat ≠ EmptyString) by (by destruct pat).
  induction s as [|c r IH]; [done|].
  intros H. cbn [includes] in H. apply orb_true_iff in H as [H|H].
  - apply (prefix_trimEnd _ _ Hp) in H.
    destruct (trimEnd (String c r)); cbn [includes]; by rewrite H.
  - specialize (IH H). pose proof (includes_nonempty _ _ IH Hne) as Hr.
    cbn [trimEnd]. destruct (trimEnd r) as [|c' r'] eqn:E; [done|].
    cbn [includes] in *. rewrite IH. apply orb_true_r.
Qed.

Lemma includes_trim (s pat : string) :
  starts_solid pat = true → ends_solid pat = true →
  includes s pat = true → includes (trim s) pat = true.
Proof.
  intros H1 H2 H. unfold trim. by apply includes_trimEnd, includes_trimStart.
Qed.

(** ** Context router *)

Lemma casualProductKeywords_solid :
  Forall (fun k => starts_solid k = true ∧ ends_solid k = true) casualProductKeywords.
Proof. repeat constructor. Qed.

Lemma isCasualMessage_keyword (message keyword : string) :
  keyword ∈ casualProductKeywords →
  includes (toLowerCase message) keyword = true →
  isCasualMessage message = false.
Proof.
  intros Hk Hin. unfold isCasualMessage.
  assert (H : existsb (fun k => includes (trim (toLowerCase message)) k)
                casualProductKeywords = true).
  { apply existsb_exists. exists keyword. split; [by apply list_elem_of_In|].
    pose proof casualProductKeywords_solid as Hs. rewrite Forall_forall in Hs.
    destruct (Hs _ Hk). by apply includes_trim. }
  by rewrite H.
Qed.

Lemma find_app_skip {A} (f : A -> bool) (l1 l2 : list A) :
  Forall (fun m => f m = false) l1 → List.find f (l1 ++ l2) = List.find f l2.
Proof.
  induction 1 as [|x l Hx _ IH]; simpl; [done|]. by rewrite Hx.
Qed.

Lemma previousProducts_last_assistant (earlier later : list Message)
    (turn : Message) (p : Product) (ps : list Product) :
  msg_role turn = assistant → msg_products turn = Some (p :: ps) →
  Forall (fun m => msg_role m = user) later →
  previousProducts (earlier ++ turn :: later) = p :: ps.
Proof.
  intros Hrole Hprod Hlater. unfold previousProducts, lastAssistantMessage.
  rewrite rev_app_distr. simpl. rewrite <- app_assoc. simpl.
  rewrite find_app_skip.
  - simpl. unfold carries_products at 1. by rewrite Hrole, Hprod; simpl; rewrite Hprod.
  - apply Forall_forall. intros m Hm. apply list_elem_of_In, in_rev, list_elem_of_In in Hm.
    rewrite Forall_forall in Hlater. unfold carries_products. by rewrite (Hlater _ Hm).
Qed.

(** C4. The message hello with an empty history is casual. A message
    whose lower-cased text contains a product keyword (laptop among them)
    is never casual, whatever the history; so for hello laptop. The
    message which one is better, with a history whose most recent assistant
    turn carried two items, is contextual with exactly these two items as
    prior items; with an empty history it is fresh. *)
Theorem context_router_classification :
  route "hello" [] = Casual
  ∧ (∀ message keyword history,
       keyword ∈ casualProductKeywords →
       includes (toLowerCase message) keyword = true →
       route message history ≠ Casual)
  ∧ "laptop"%string ∈ casualProductKeywords
  ∧ route "hello laptop" [] = Fresh
  ∧ (∀ earlier later turn a b,
       msg_role turn = assistant → msg_products turn = Some [a; b] →
       Forall (fun m => msg_role m = user) later →
       route "which one is better" (earlier ++ turn :: later) = Contextual [a; b])
  ∧ route "which one is better" [] = Fresh.
Proof.
  split; [reflexivity|]. split.
  { intros message keyword history Hk Hin. unfold route.
    rewrite (isCasualMessage_keyword _ _ Hk Hin).
    destruct (shouldUseConversationHistory _ _); [|done].
    by destruct (previousProducts _). }
  split; [apply list_elem_of_here|].
  split; [reflexivity|]. split; [|reflexivity].
  intros earlier later turn a b Hrole Hprod Hlater. unfold route.
  assert (Hc : isCasualMessage "which one is better" = false) by reflexivity.
  rewrite Hc.
  assert (Hu : shouldUseConversationHistory "which one is better"
                 (earlier ++ turn :: later) = true).
  { destruct (earlier ++ turn :: later) eqn:E; [by destruct earlier|]. reflexivity. }
  rewrite Hu.
  by rewrite (previousProducts_last_assistant _ _ _ _ _ Hrole Hprod Hlater).
Qed.

Lemma context_router_classification_witness :
  Forall (fun m => msg_role m = user) []
  ∧ route "which one is better" fixtureHistory
    = Contextual [fixtureProduct "c1" "Alpha" 30000 32000;
                  fixtureProduct "c2" "Bravo" 33000 35000].
Proof.
  split; [constructor|].
  destruct context_router_classification as (_ & _ & _ & _ & H & _).
  apply (H [{| msg_role := user; msg_content := "show me laptops"; msg_products := None |}]
           []
           {| msg_role := assistant; msg_content := "Here are two.";
              msg_products := Some [fixtureProduct "c1" "Alpha" 30000 32000;
                                    fixtureProduct "c2" "Bravo" 33000 35000] |});
    [reflexivity | reflexivity | constructor].
Defined.

(** ** Budget guard *)

Lemma append_assoc (a b c : string) : (a +:+ b) +:+ c = a +:+ (b +:+ c).
Proof.
  induction a as [|x a IH]; [reflexivity|].
  change (String x ((a +:+ b) +:+ c) = String x (a +:+ (b +:+ c))).
  by rewrite IH.
Qed.

(** The guidance offers the price from which the product class starts. *)
Lemma unrealisticBudgetMessage_offers_floor (svc : Services) (productType : string)
    (minRealisticPrice maxPrice : Z) :
  ∃ before after,
    unrealisticBudgetMessage svc productType minRealisticPrice maxPrice
    = before +:+ "s starting from " +:+ toLocaleString svc (inject_Z minRealisticPrice)
        +:+ after.
Proof.
  unfold unrealisticBudgetMessage.
  exists ("Unfortunately, complete " +:+ productType +:+ "s aren't available under "
            +:+ toLocaleString svc (inject_Z maxPrice) +:+ "৳. "
          +:+ nl +:+ nl
          +:+ "At this price point, only accessories and parts (keyboards, displays, mice) are available. "
          +:+ nl +:+ nl +:+ "Would you like to see:" +:+ nl
          +:+ "• Budget " +:+ productType),
         ("৳?" +:+ nl
          +:+ "• Used/refurbished " +:+ productType
          +:+ "s (may have options in higher ranges)?" +:+ nl
          +:+ "• Accessories and parts in your " +:+ toLocaleString svc (inject_Z maxPrice)
          +:+ "৳ budget?").
  by rewrite !append_assoc.
Qed.

Lemma complete_system_not_casual (message : string) :
  isLookingForCompleteSystem (toLowerCase message) = true →
  isCasualMessage message = false.
Proof.
  unfold isLookingForCompleteSystem. rewrite !orb_true_iff.
  intros [[[H|H]|H]|H]; (eapply isCasualMessage_keyword; [|exact H]);
    apply list_elem_of_In; simpl; tauto.
Qed.

Lemma complete_system_route_fresh (message : string) (history : list Message) :
  isLookingForCompleteSystem (toLowerCase message) = true →
  (∀ prior, route message history ≠ Contextual prior) →
  route message history = Fresh.
Proof.
  intros Hsys Hno. unfold route in *.
  rewrite (complete_system_not_casual _ Hsys) in *.
  destruct (shouldUseConversationHistory _ _); [|done].
  destruct (previousProducts _) as [|p ps]; [done|]. by destruct (Hno (p :: ps)).
Qed.




(** ** Selection resolver *)

Lemma parse_value_object (fuel : nat) (r rest : string) (v : json) :
  parse_value fuel (String "{" r) = Some (v, rest) → ∃ ms, v = JObject ms.
Proof.
  destruct fuel as [|fuel]; [discriminate|].
  cbn [parse_value]. change (skip_json_ws (String "{" r)) with (String "{" r).
  cbv iota beta.
  destruct (skip_json_ws r) as [|c r'] eqn:E.
  - destruct (parse_members fuel EmptyString) as [[ms r'']|]; [|discriminate].
    intros H. simplify_eq. by eexists.
  - destruct c as [[] [] [] [] [] [] [] []];
      try (destruct (parse_members fuel _) as [[ms r'']|]; [|discriminate]);
      intros H; simplify_eq; by eexists.
Qed.

(** What [JSON.parse] makes of a text that starts with a brace is an
    object. *)
Lemma JSON_parse_object (r : string) (v : json) :
  JSON_parse (String "{" r) = Some v → ∃ ms, v = JObject ms.
Proof.
  unfold JSON_parse.
  destruct (parse_value _ _) as [[v' rest]|] eqn:E; [|discriminate].
  apply parse_value_object in E as [ms ->].
  destruct (skip_json_ws rest); [|discriminate]. intros [= <-]. by eexists.
Qed.

Lemma match_fenced_here_brace (s object after : string) :
  match_fenced_here s = Some (object, after) → ∃ r, object = String "{" r.
Proof.
  unfold match_fenced_here. destruct (String.prefix _ s); [|discriminate].
  destruct (trimStart _) as [|c r1]; [discriminate|].
  destruct (Ascii.eqb_spec c "{") as [->|Hc].
  - destruct (find_sub SELECTION_KEY r1) as [[mid r2]|]; [|discriminate].
    destruct (find_close r2) as [[tl a]|]; [|discriminate].
    intros [= <- _]. by eexists.
  - destruct c as [[] [] [] [] [] [] [] []]; try discriminate. by destruct Hc.
Qed.

Lemma match_fenced_brace (s before object after : string) :
  match_fenced s = Some (before, object, after) → ∃ r, object = String "{" r.
Proof.
  revert before. induction s as [|c s IH]; intros before; cbn [match_fenced].
  - destruct (match_fenced_here EmptyString) as [[o a]|] eqn:E; [|discriminate].
    intros [= _ <- _]. by eapply match_fenced_here_brace.
  - destruct (match_fenced_here (String c s)) as [[o a]|] eqn:E.
    + intros [= _ <- _]. by eapply match_fenced_here_brace.
    + destruct (match_fenced s) as [[[b o] a]|] eqn:Em; [|discriminate].
      intros H. simplify_eq. by eapply IH.
Qed.

Lemma jsonMatch_brace (content text : string) :
  jsonMatch content = Some text → ∃ r, text = String "{" r.
Proof.
  unfold jsonMatch, match_object.
  destruct (find_sub "{" content) as [[before r1]|].
  - destruct (find_sub SELECTION_KEY r1) as [[mid r2]|].
    + destruct (find_sub "}" r2) as [[tl after]|].
      * intros [= <-]. by eexists.
      * destruct (match_fenced content) as [[[b o] a]|] eqn:E; [|discriminate].
        intros [= <-]. by eapply match_fenced_brace.
    + destruct (match_fenced content) as [[[b o] a]|] eqn:E; [|discriminate].
      intros [= <-]. by eapply match_fenced_brace.
  - destruct (match_fenced content) as [[[b o] a]|] eqn:E; [|discriminate].
    intros [= <-]. by eapply match_fenced_brace.
Qed.

Lemma extractSelection_no_selection (rawOutput : string) :
  no_selection rawOutput → extractSelection rawOutput = (JArray [], rawOutput).
Proof.
  unfold extractSelection. intros [H | (text & H & Hp)]; rewrite H; [done|].
  by rewrite Hp.
Qed.

Lemma extractSelection_declares (rawOutput : string) (value : json) :
  declares rawOutput value →
  extractSelection rawOutput
  = (if is_falsy value then JArray [] else value,
     trim (replace_fenced (replace_object rawOutput))).
Proof.
  intros (text & ms & Hm & Hp & Hg). unfold extractSelection.
  rewrite Hm, Hp. simpl. by rewrite Hg.
Qed.

(** The block leaves a non-empty array only if the text declares it. *)
Lemma extractSelection_array_inv (rawOutput cleaned : string) (i : json)
    (ids : list json) :
  extractSelection rawOutput = (JArray (i :: ids), cleaned) →
  declares rawOutput (JArray (i :: ids)).
Proof.
  unfold extractSelection.
  destruct (jsonMatch rawOutput) as [text|] eqn:Hm; [|discriminate].
  destruct (JSON_parse text) as [data|] eqn:Hp; [|discriminate].
  destruct (jsonMatch_brace _ _ Hm) as [r ->].
  destruct (JSON_parse_object _ _ Hp) as [ms ->]. simpl.
  destruct (get_member _ ms) as [v|] eqn:Hg; [|discriminate].
  destruct (is_falsy v); [discriminate|].
  intros [= -> _]. by exists (String "{" r), ms.
Qed.

Section Resolver.
Variable ToNumber : json -> option Z.

Lemma product_at_Some (candidates : list Product) (id : json) (p : Product) :
  product_at ToNumber candidates id = Some p →
  reference_in_range ToNumber candidates id = true ∧ p ∈ candidates.
Proof.
  unfold product_at, reference_in_range.
  destruct (number_of ToNumber id) as [n|]; [|discriminate].
  destruct (Z.leb_spec 0 (n - 1)); [|discriminate].
  intros Hp. split; [|by eapply list_elem_of_lookup_2].
  apply lookup_lt_Some in Hp. apply andb_true_iff. split; lia.
Qed.

Lemma product_at_in_range (candidates : list Product) (id : json) (n : Z) :
  number_of ToNumber id = Some n →
  1 <= n <= Z.of_nat (length candidates) →
  product_at ToNumber candidates id = candidates !! Z.to_nat (n - 1)
  ∧ is_Some (candidates !! Z.to_nat (n - 1)).
Proof.
  intros Hn [H1 H2]. unfold product_at. rewrite Hn.
  destruct (Z.leb_spec 0 (n - 1)); [|lia].
  split; [done|]. apply lookup_lt_is_Some. lia.
Qed.

Lemma product_at_out_of_range (candidates : list Product) (id : json) :
  reference_in_range ToNumber candidates id = false →
  product_at ToNumber candidates id = None.
Proof.
  destruct (product_at ToNumber candidates id) as [p|] eqn:E; [|done].
  apply product_at_Some in E as [-> _]. discriminate.
Qed.

Lemma selectProducts_in_range (candidates : list Product) (ids : list json) :
  map Some (selectProducts ToNumber candidates ids)
  = map (product_at ToNumber candidates)
      (List.filter (reference_in_range ToNumber candidates) ids).
Proof.
  unfold selectProducts. induction ids as [|id ids IH]; [done|].
  cbn [omap list_omap List.filter].
  destruct (product_at ToNumber candidates id) as [p|] eqn:E.
  - destruct (product_at_Some _ _ _ E) as [-> _]. simpl. by rewrite E, IH.
  - destruct (reference_in_range ToNumber candidates id) eqn:Hr; [|done].
    unfold reference_in_range in Hr.
    destruct (number_of ToNumber id) as [n|] eqn:Hn; [|discriminate].
    apply andb_true_iff in Hr as [H1 H2].
    destruct (product_at_in_range candidates id n Hn) as [Heq [q Hq]]; [lia|].
    congruence.
Qed.

Lemma selectProducts_subset (candidates : list Product) (ids : list json) (p : Product) :
  p ∈ selectProducts ToNumber candidates ids → p ∈ candidates.
Proof.
  unfold selectProducts. rewrite list_elem_of_omap.
  intros (id & _ & H). by apply product_at_Some in H as [_ ?].
Qed.

Lemma selectProducts_nil (candidates : list Product) (ids : list json) :
  selectProducts ToNumber candidates ids = [] ↔
  Forall (fun id => reference_in_range ToNumber candidates id = false) ids.
Proof.
  unfold selectProducts. induction ids as [|id ids IH]; [by split; [constructor|]|].
  cbn [omap list_omap].
  destruct (product_at ToNumber candidates id) as [p|] eqn:E.
  - split; [discriminate|]. intros H. apply Forall_cons_1 in H as [H _].
    apply product_at_Some in E as [E _]. congruence.
  - rewrite Forall_cons, <- IH. split; [|tauto]. intros H. split; [|done].
    destruct (reference_in_range ToNumber candidates id) eqn:Hr; [|done].
    unfold reference_in_range in Hr.
    destruct (number_of ToNumber id) as [n|] eqn:Hn; [|discriminate].
    apply andb_true_iff in Hr as [H1 H2].
    destruct (product_at_in_range candidates id n Hn) as [Heq [q Hq]]; [lia|].
    congruence.
Qed.

Lemma resolve_no_selection (rawOutput : string) (candidates : list Product)
    (intent : option Intent) :
  no_selection rawOutput →
  resolve ToNumber rawOutput candidates intent
  = inr (take (productSliceCount intent) candidates, rawOutput).
Proof.
  intros H. unfold resolve. by rewrite (extractSelection_no_selection _ H).
Qed.

Lemma productSliceCount_bounds (intent : option Intent) :
  (1 <= productSliceCount intent <= 5)%nat.
Proof. destruct intent as [[[] ?]|]; simpl; lia. Qed.

End Resolver.

(** The bare form of the protocol: the object is read and the narrative is
    the text before it. *)
Example resolve_bare_selection (ToNumber : json -> option Z) :
  resolve ToNumber bareOutput fixtureCandidates None
  = inr ([fixtureProduct "c1" "Alpha" 30000 32000;
          fixtureProduct "c3" "Charlie" 36000 38000],
         "Pick these two."%string).
Proof. reflexivity. Qed.

(** C6, at the input on which the code departs from it. The text ends in a
    fenced selection object that references 1 and 3; against five
    candidates the resolver returns the first and the third, in that order,
    and the object is gone from the narrative, but the fence that enclosed
    it stays: the narrative ends in an empty fenced block. *)
Theorem resolve_fenced_selection_keeps_fence (ToNumber : json -> option Z) :
  jsonMatch fencedOutput = Some (selectionObject "1, 3")
  ∧ JSON_parse (selectionObject "1, 3")
    = Some (JObject [("selected_product_ids"%string, JArray [jint 1; jint 3])])
  ∧ resolve ToNumber fencedOutput fixtureCandidates None
    = inr ([fixtureProduct "c1" "Alpha" 30000 32000;
            fixtureProduct "c3" "Charlie" 36000 38000],
           "Pick these two." +:+ nl +:+ "```json" +:+ nl +:+ nl +:+ "```")
  ∧ includes ("Pick these two." +:+ nl +:+ "```json" +:+ nl +:+ nl +:+ "```")
      SELECTION_KEY = false
  ∧ includes ("Pick these two." +:+ nl +:+ "```json" +:+ nl +:+ nl +:+ "```")
      "```json" = true.
Proof. repeat split; reflexivity. Qed.

(** C7. When no selection object can be parsed from the text of the
    generator (none is found, or the one found is not JSON), the resolver
    succeeds with the narrative unchanged and the first candidates in
    their order: one for the intent single, three for comparison, five for
    multiple, for any and without an intent. *)
Theorem resolve_falls_back_without_selection (ToNumber : json -> option Z)
    (rawOutput : string) (candidates : list Product) :
  no_selection rawOutput →
  (∀ a, resolve ToNumber rawOutput candidates
          (Some {| productCount := single; action := a |})
        = inr (take 1 candidates, rawOutput))
  ∧ (∀ a, resolve ToNumber rawOutput candidates
            (Some {| productCount := comparison; action := a |})
          = inr (take 3 candidates, rawOutput))
  ∧ (∀ a, resolve ToNumber rawOutput candidates
            (Some {| productCount := multiple; action := a |})
          = inr (take 5 candidates, rawOutput))
  ∧ (∀ a, resolve ToNumber rawOutput candidates
            (Some {| productCount := any; action := a |})
          = inr (take 5 candidates, rawOutput))
  ∧ resolve ToNumber rawOutput candidates None = inr (take 5 candidates, rawOutput).
Proof.
  intros H. repeat split; intros; by rewrite (resolve_no_selection _ _ _ _ H).
Qed.

Lemma resolve_falls_back_without_selection_witness :
  no_selection plainOutput
  ∧ resolve (fun _ => None) plainOutput fixtureCandidates
      (Some {| productCount := comparison; action := compare |})
    = inr ([fixtureProduct "c1" "Alpha" 30000 32000;
            fixtureProduct "c2" "Bravo" 33000 35000;
            fixtureProduct "c3" "Charlie" 36000 38000], plainOutput).
Proof.
  assert (H : no_selection plainOutput) by (left; reflexivity).
  split; [exact H|].
  destruct (resolve_falls_back_without_selection (fun _ => None) plainOutput
              fixtureCandidates H) as (_ & Hc & _).
  exact (Hc compare).
Defined.

(** C8, as amended. When the text of the generator declares a non-empty
    reference list, the resolver displays, in the declared order, the
    candidate at position n (counted from 1) for every reference n from 1
    to the number of candidates, and drops every other reference. So each
    displayed item is a candidate, there are as many displayed items as
    references in range, at most as many as references declared, and
    exactly as many when every reference is in range. *)
Theorem resolve_maps_selection (ToNumber : json -> option Z) (rawOutput : string)
    (candidates : list Product) (intent : option Intent) (i : json) (ids : list json) :
  declares rawOutput (JArray (i :: ids)) →
  ∃ display cleaned,
    resolve ToNumber rawOutput candidates intent = inr (display, cleaned)
    ∧ (∀ p, p ∈ display → p ∈ candidates)
    ∧ map Some display
      = map (product_at ToNumber candidates)
          (List.filter (reference_in_range ToNumber candidates) (i :: ids))
    ∧ (∀ id n, number_of ToNumber id = Some n →
         1 <= n <= Z.of_nat (length candidates) →
         product_at ToNumber candidates id = candidates !! Z.to_nat (n - 1)
         ∧ is_Some (candidates !! Z.to_nat (n - 1)))
    ∧ length display
      = length (List.filter (reference_in_range ToNumber candidates) (i :: ids))
    ∧ (length display <= length (i :: ids))%nat
    ∧ (Forall (fun id => reference_in_range ToNumber candidates id = true) (i :: ids) →
       length display = length (i :: ids)).
Proof.
  intros Hd. unfold resolve. rewrite (extractSelection_declares _ _ Hd).
  cbn [is_falsy displayProducts].
  eexists _, _. split; [reflexivity|].
  pose proof (selectProducts_in_range ToNumber candidates (i :: ids)) as Hmap.
  assert (Hlen : length (selectProducts ToNumber candidates (i :: ids))
                 = length (List.filter (reference_in_range ToNumber candidates) (i :: ids))).
  { rewrite <- (length_map Some), Hmap. apply length_map. }
  split; [intros p; apply selectProducts_subset|].
  split; [exact Hmap|].
  split; [intros id n; apply product_at_in_range|].
  split; [exact Hlen|].
  split.
  - rewrite Hlen. apply filter_length_le.
  - intros Hall. rewrite Hlen. f_equal. apply forallb_filter_id.
    apply forallb_forall. intros id Hid. rewrite Forall_forall in Hall.
    by apply Hall, list_elem_of_In.
Qed.

Lemma resolve_maps_selection_witness :
  declares bareOutput (JArray [jint 1; jint 3])
  ∧ ∃ display cleaned,
      resolve (fun _ => None) bareOutput fixtureCandidates None = inr (display, cleaned)
      ∧ (∀ p, p ∈ display → p ∈ fixtureCandidates)
      ∧ length display = 2%nat.
Proof.
  assert (H : declares bareOutput (JArray [jint 1; jint 3])).
  { exists (selectionObject "1, 3"), [("selected_product_ids"%string, JArray [jint 1; jint 3])].
    repeat split; reflexivity. }
  split; [exact H|].
  destruct (resolve_maps_selection (fun _ => None) bareOutput fixtureCandidates None
              _ _ H) as (display & cleaned & Hr & Hsub & _ & _ & _ & _ & Hall).
  exists display, cleaned. split; [exact Hr|]. split; [exact Hsub|].
  apply Hall. repeat constructor.
Defined.

(** C8, as worded, fails: of the references 1 and 9 declared against five
    candidates only the first is displayed, so that the displayed items
    are fewer than the references. *)
Lemma resolve_drops_reference_out_of_range :
  declares outOfRangeOutput (JArray [jint 1; jint 9])
  ∧ ∃ cleaned,
      resolve (fun _ => None) outOfRangeOutput fixtureCandidates None
      = inr ([fixtureProduct "c1" "Alpha" 30000 32000], cleaned)
      ∧ ¬ selection_rule_as_worded fixtureCandidates [jint 1; jint 9]
            [fixtureProduct "c1" "Alpha" 30000 32000].
Proof.
  split.
  { exists (selectionObject "1, 9"), [("selected_product_ids"%string, JArray [jint 1; jint 9])].
    repeat split; reflexivity. }
  eexists. split; [reflexivity|]. intros [_ H]. discriminate H.
Qed.



(** ** Follow-up path *)

Lemma find_Some_split {A} (f : A -> bool) (l : list A) (x : A) :
  List.find f l = Some x →
  ∃ l1 l2, l = l1 ++ x :: l2 ∧ Forall (fun y => f y = false) l1 ∧ f x = true.
Proof.
  induction l as [|a l IH]; simpl; [discriminate|].
  destruct (f a) eqn:Ha.
  - intros [= <-]. by exists [], l.
  - intros H. destruct (IH H) as (l1 & l2 & -> & Hl1 & Hx).
    exists (a :: l1), l2. repeat split; [|done]. by constructor.
Qed.

(** The prior items of a contextual route are the products of the most
    recent assistant turn that carried any. *)
Lemma route_Contextual_inv (message : string) (history : list Message)
    (previous : list Product) :
  route message history = Contextual previous →
  message ≠ EmptyString
  ∧ previous ≠ []
  ∧ ∃ earlier turn later,
      history = earlier ++ turn :: later
      ∧ msg_role turn = assistant
      ∧ msg_products turn = Some previous
      ∧ Forall (fun m => carries_products m = false) later.
Proof.
  intros H. split.
  { intros ->. unfold route in H.
    change (isCasualMessage EmptyString) with false in H. cbv iota in H.
    destruct history; [discriminate|].
    change (shouldUseConversationHistory EmptyString (m :: history)) with false in H.
    discriminate. }
  unfold route in H. destruct (isCasualMessage message); [discriminate|].
  destruct (shouldUseConversationHistory message history); [|discriminate].
  destruct (previousProducts history) as [|p ps] eqn:E; [discriminate|].
  injection H as <-. split; [discriminate|].
  unfold previousProducts, lastAssistantMessage in E.
  destruct (List.find carries_products (rev history)) as [turn|] eqn:F; [|discriminate].
  apply find_Some_split in F as (l1 & l2 & Hrev & Hl1 & Hturn).
  exists (rev l2), turn, (rev l1). split; [|split; [|split]].
  - rewrite <- (rev_involutive history), Hrev, rev_app_distr. simpl.
    by rewrite <- app_assoc.
  - unfold carries_products in Hturn. by destruct (msg_role turn).
  - unfold carries_products in Hturn.
    destruct (msg_role turn); [discriminate|].
    destruct (msg_products turn) as [[|q qs]|]; try discriminate. simpl in E. by rewrite E.
  - apply Forall_forall. intros m Hm. rewrite Forall_forall in Hl1. apply Hl1.
    by apply list_elem_of_In, in_rev, list_elem_of_In.
Qed.

Lemma number_of_jint (T : json -> option Z) (n : Z) : number_of T (jint n) = Some n.
Proof. unfold number_of, jint, jn_integer. cbn. f_equal. lia. Qed.

Lemma product_at_jint (T : json -> option Z) (previous : list Product) (n : Z) :
  product_at T previous (jint n) = referenced previous n.
Proof.
  unfold product_at, referenced. rewrite number_of_jint.
  destruct (Z.leb_spec 0 (n - 1)), (Z.leb_spec 1 n); try lia; reflexivity.
Qed.

Lemma selectProducts_jint (T : json -> option Z) (previous : list Product) (ns : list Z) :
  selectProducts T previous (map jint ns) = omap (referenced previous) ns.
Proof.
  unfold selectProducts. induction ns as [|n ns IH]; [reflexivity|].
  cbn [map omap list_omap]. by rewrite product_at_jint, IH.
Qed.

(** C10. On the follow-up path the prior items are the products of the
    most recent assistant turn that carried any, and the generator is the
    only collaborator called. When no selection object can be parsed from
    the text of the generator, the reply displays all of them, with the
    text unchanged. When the text declares a non-empty reference list, the
    reply displays, in the declared order, the prior item at position n
    (counted from 1) for every reference n from 1 to the number of prior
    items, and drops every other reference; for references that are
    integer literals the display is therefore the list of the prior items
    at the positions n - 1 that exist. *)
Theorem followUp_displays_prior_items (svc : Services) (req : Request)
    (message : string) (previous : list Product) (llmResponse : LLMResponse) :
  req_message req = Some message →
  route message (req_conversationHistory req) = Contextual previous →
  queryLLM svc message
    ((buildContext (toLocaleString svc) previous
      +:+ formatConversationHistory (req_conversationHistory req)) +:+ intentHint)
    (req_provider req) = inr llmResponse →
  (∃ earlier turn later,
     req_conversationHistory req = earlier ++ turn :: later
     ∧ msg_role turn = assistant
     ∧ msg_products turn = Some previous
     ∧ Forall (fun m => carries_products m = false) later)
  ∧ (no_selection (llm_content llmResponse) →
     ∃ trace,
       POST svc req
       = (trace, Reply (llm_content llmResponse) previous (llm_provider llmResponse)
                   (llm_model llmResponse) (length previous)
                   (llm_tokensUsed llmResponse))
       ∧ Forall (fun e => is_retrieval_call e = false) trace)
  ∧ (∀ i ids,
       declares (llm_content llmResponse) (JArray (i :: ids)) →
       ∃ trace cleaned display,
         POST svc req
         = (trace, Reply cleaned display (llm_provider llmResponse)
                     (llm_model llmResponse) (length display)
                     (llm_tokensUsed llmResponse))
         ∧ Forall (fun e => is_retrieval_call e = false) trace
         ∧ map Some display
           = map (product_at (ToNumber svc) previous)
               (List.filter (reference_in_range (ToNumber svc) previous) (i :: ids))
         ∧ (∀ p, p ∈ display → p ∈ previous)
         ∧ (∀ id n, number_of (ToNumber svc) id = Some n →
              1 <= n <= Z.of_nat (length previous) →
              product_at (ToNumber svc) previous id = previous !! Z.to_nat (n - 1)
              ∧ is_Some (previous !! Z.to_nat (n - 1)))
         ∧ (∀ ns, i :: ids = map jint ns →
              display = omap (referenced previous) ns)).
Proof.
  intros Hmsg Hroute Hllm.
  destruct (route_Contextual_inv _ _ _ Hroute) as (Hne & _ & Hturn).
  split; [exact Hturn|].
  assert (HP : POST svc req
               = ([LLMCall message
                     ((buildContext (toLocaleString svc) previous
                       +:+ formatConversationHistory (req_conversationHistory req))
                      +:+ intentHint)
                     (req_provider req)],
                  match resolvePrevious (ToNumber svc) (llm_content llmResponse) previous with
                  | inl details => Failure 500 "Failed to generate response" (Some details)
                  | inr (display, cleanedContent) =>
                      Reply cleanedContent display (llm_provider llmResponse)
                        (llm_model llmResponse) (length display)
                        (llm_tokensUsed llmResponse)
                  end)).
  { unfold POST. rewrite Hmsg. destruct message as [|c r]; [done|].
    rewrite Hroute. unfold followUp, call, mbind, IO_bind.
    rewrite Hllm.
    by destruct (resolvePrevious _ _ _) as [e|[d cl]]. }
  split.
  - intros Hno. eexists. rewrite HP. unfold resolvePrevious.
    rewrite (extractSelection_no_selection _ Hno). cbn [displayPrevious].
    split; [reflexivity|]. repeat constructor.
  - intros i ids Hd. rewrite HP. unfold resolvePrevious.
    rewrite (extractSelection_declares _ _ Hd). cbn [is_falsy displayPrevious].
    eexists _, _, _. split; [reflexivity|].
    split; [repeat constructor|].
    split; [apply selectProducts_in_range|].
    split; [intros p; apply selectProducts_subset|].
    split; [intros id n; apply product_at_in_range|].
    intros ns ->. apply selectProducts_jint.
Qed.

Lemma followUp_displays_prior_items_witness :
  route "which one is better" fixtureHistory
  = Contextual [fixtureProduct "c1" "Alpha" 30000 32000;
                fixtureProduct "c2" "Bravo" 33000 35000]
  ∧ declares secondOutput (JArray [jint 2; jint 9])
  ∧ (∃ trace,
       POST (fixtureServices secondOutput)
         (fixtureRequest "which one is better" (0, 200000) fixtureHistory)
       = (trace, Reply "The second one."
                   [fixtureProduct "c2" "Bravo" 33000 35000]
                   "gemini" "gemini-2.5-flash" 1 None))
  ∧ no_selection plainOutput
  ∧ ∃ trace,
      POST (fixtureServices plainOutput)
        (fixtureRequest "which one is better" (0, 200000) fixtureHistory)
      = (trace, Reply plainOutput
                  [fixtureProduct "c1" "Alpha" 30000 32000;
                   fixtureProduct "c2" "Bravo" 33000 35000]
                  "gemini" "gemini-2.5-flash" 2 None).
Proof.
  assert (Hno : no_selection plainOutput) by (left; reflexivity).
  assert (Hd : declares secondOutput (JArray [jint 2; jint 9])).
  { exists (selectionObject "2, 9"), [("selected_product_ids"%string, JArray [jint 2; jint 9])].
    repeat split; reflexivity. }
  split; [reflexivity|]. split; [exact Hd|]. split; [|split; [exact Hno|]].
  - destruct (followUp_displays_prior_items (fixtureServices secondOutput)
                (fixtureRequest "which one is better" (0, 200000) fixtureHistory)
                "which one is better"
                [fixtureProduct "c1" "Alpha" 30000 32000;
                 fixtureProduct "c2" "Bravo" 33000 35000]
                {| llm_content := secondOutput; llm_provider := "gemini";
                   llm_model := "gemini-2.5-flash"; llm_tokensUsed := None |}
                eq_refl eq_refl eq_refl) as (_ & _ & H).
    destruct (H (jint 2) [jint 9] Hd) as (trace & cleaned & display & HP & _ & _ & _ & _ & Hns).
    rewrite (Hns [2; 9] eq_refl) in HP. exists trace. rewrite HP.
    f_equal. vm_compute in HP. by injection HP as _ <-.
  - destruct (followUp_displays_prior_items (fixtureServices plainOutput)
                (fixtureRequest "which one is better" (0, 200000) fixtureHistory)
                "which one is better"
                [fixtureProduct "c1" "Alpha" 30000 32000;
                 fixtureProduct "c2" "Bravo" 33000 35000]
                {| llm_content := plainOutput; llm_provider := "gemini";
                   llm_model := "gemini-2.5-flash"; llm_tokensUsed := None |}
                eq_refl eq_refl eq_refl) as (_ & H & _).
    destruct (H Hno) as (trace & HP & _). exists trace. exact HP.
Defined.

(** * Further properties *)

(** ** Vector search *)

Lemma postFilter_eligible (filters : SearchFilters) (topK : nat)
    (embeddingModel : EmbeddingModel) (matches : list ScoredMatch) :
  postFilter filters topK embeddingModel matches
  = take topK (if budget_active filters
               then array_sort by_price_min (eligibleProducts filters embeddingModel matches)
               else eligibleProducts filters embeddingModel matches).
Proof.
  unfold postFilter, eligibleProducts, budget_active.
  destruct (sf_priceRange filters) as [[lo hi]|]; [|done].
  by destruct (hi <? 200000).
Qed.

Lemma elem_of_eligibleProducts (filters : SearchFilters) (embeddingModel : EmbeddingModel)
    (matches : list ScoredMatch) (p : Product) :
  p ∈ eligibleProducts filters embeddingModel matches →
  (∃ m, m ∈ matches ∧ p = toProduct m ∧ is_relevant embeddingModel m = true)
  ∧ (∀ c cs, sf_categories filters = Some (c :: cs) → category_matches (c :: cs) p = true)
  ∧ (∀ lo hi, sf_priceRange filters = Some (lo, hi) → withinRange lo hi p = true).
Proof.
  unfold eligibleProducts. intros Hp.
  assert (Hprice : p ∈ match sf_categories filters with
                       | Some (c :: cs) =>
                           List.filter (category_matches (c :: cs))
                             (map toProduct (List.filter (is_relevant embeddingModel) matches))
                       | _ => map toProduct (List.filter (is_relevant embeddingModel) matches)
                       end
                   ∧ ∀ lo hi, sf_priceRange filters = Some (lo, hi) →
                              withinRange lo hi p = true).
  { destruct (sf_priceRange filters) as [[lo hi]|]; [|by split].
    apply elem_of_List_filter in Hp as [Hp Hw]. split; [done|]. by intros ? ? [= <- <-]. }
  destruct Hprice as [Hc Hprice].
  assert (Hcat : p ∈ map toProduct (List.filter (is_relevant embeddingModel) matches)
                 ∧ ∀ c cs, sf_categories filters = Some (c :: cs) →
                           category_matches (c :: cs) p = true).
  { destruct (sf_categories filters) as [[|c cs]|]; try by split.
    apply elem_of_List_filter in Hc as [Hc Hm]. split; [done|]. by intros ? ? [= <- <-]. }
  destruct Hcat as [Hr Hcat]. split; [|by split].
  apply list_elem_of_fmap in Hr as (m & -> & Hm).
  apply elem_of_List_filter in Hm as [Hm Hrel]. by exists m.
Qed.

Lemma elem_of_postFilter (filters : SearchFilters) (topK : nat)
    (embeddingModel : EmbeddingModel) (matches : list ScoredMatch) (p : Product) :
  p ∈ postFilter filters topK embeddingModel matches →
  p ∈ eligibleProducts filters embeddingModel matches.
Proof.
  rewrite postFilter_eligible. intros Hp.
  apply elem_of_take in Hp as (i & Hi & _). apply list_elem_of_lookup_2 in Hi.
  destruct (budget_active filters); [|done]. by apply elem_of_array_sort in Hi.
Qed.

(** X1. Every product that a retrieval returns is the product of a match
    of the index whose score, taken as 0 when missing, reaches the
    threshold of the embedding model: 0.5 for huggingface, 0.4 for
    openai. *)
Theorem searchProducts_relevance_threshold
    (index_query : option string -> list Q -> nat -> option PineconeFilter ->
                   string + list ScoredMatch)
    (queryEmbedding : list Q) (filters : SearchFilters) (topK : nat)
    (embeddingModel : EmbeddingModel) (products : list Product) :
  searchProducts index_query queryEmbedding filters topK embeddingModel = inr products →
  ∃ matches,
    index_query (getNamespace embeddingModel) queryEmbedding
      (if nonempty_list (sf_categories filters) then (topK * 2)%nat else topK)
      (filter_or_undefined (buildPineconeFilter filters)) = inr matches
    ∧ ∀ p, p ∈ products →
        ∃ m, m ∈ matches ∧ p = toProduct m
             ∧ ((if embeddingModel is huggingface then 0.5 else 0.4)
                <= default 0 (match_score m))%Q.
Proof.
  unfold searchProducts.
  destruct (index_query _ _ _ _) as [e|matches]; [discriminate|].
  intros [= <-]. exists matches. split; [reflexivity|].
  intros p Hp. apply elem_of_postFilter, elem_of_eligibleProducts in Hp.
  destruct Hp as ((m & Hm & -> & Hrel) & _). exists m. split; [done|]. split; [done|].
  unfold is_relevant in Hrel. apply Qle_bool_iff in Hrel. by destruct embeddingModel.
Qed.

Lemma searchProducts_relevance_threshold_witness :
  ∃ products,
    searchProducts fixtureIndex [] (fixtureFilters None) 8 openai = inr products
    ∧ ∀ p, p ∈ products →
        ∃ m, m ∈ fixtureMatches ∧ p = toProduct m ∧ (0.4 <= default 0 (match_score m))%Q.
Proof.
  eexists. split; [reflexivity|].
  destruct (searchProducts_relevance_threshold fixtureIndex [] (fixtureFilters None)
              8%nat openai _ eq_refl) as (matches & Hm & H).
  injection Hm as <-. exact H.
Defined.

(** X2. When the filters name categories, every product that a retrieval
    returns has a category that contains one of them, letter case set
    aside. *)
Theorem searchProducts_category_filter
    (index_query : option string -> list Q -> nat -> option PineconeFilter ->
                   string + list ScoredMatch)
    (queryEmbedding : list Q) (filters : SearchFilters) (topK : nat)
    (embeddingModel : EmbeddingModel) (products : list Product)
    (c : string) (cs : list string) :
  sf_categories filters = Some (c :: cs) →
  searchProducts index_query queryEmbedding filters topK embeddingModel = inr products →
  ∀ p, p ∈ products →
    ∃ cat, cat ∈ c :: cs
           ∧ includes (toLowerCase (category p)) (toLowerCase cat) = true.
Proof.
  intros Hc. unfold searchProducts.
  destruct (index_query _ _ _ _) as [e|matches]; [discriminate|].
  intros [= <-] p Hp. apply elem_of_postFilter, elem_of_eligibleProducts in Hp.
  destruct Hp as (_ & Hcat & _). specialize (Hcat c cs Hc).
  unfold category_matches in Hcat. apply existsb_exists in Hcat as (cat & Hin & Hcat).
  exists cat. split; [by apply list_elem_of_In|done].
Qed.

Lemma searchProducts_category_filter_witness :
  ∃ products,
    searchProducts fixtureIndex []
      {| sf_priceRange := None; sf_categories := Some ["gaming"%string];
         sf_brands := None; sf_sources := None |} 8 openai = inr products
    ∧ ∀ p, p ∈ products →
        ∃ cat, cat ∈ ["gaming"%string]
               ∧ includes (toLowerCase (category p)) (toLowerCase cat) = true.
Proof.
  eexists. split; [reflexivity|].
  apply (searchProducts_category_filter fixtureIndex []
           {| sf_priceRange := None; sf_categories := Some ["gaming"%string];
              sf_brands := None; sf_sources := None |} 8%nat openai _ "gaming" []);
    reflexivity.
Defined.

Lemma sort_insert_Permutation {A} (cmp : A -> A -> Z) (a : A) (l : list A) :
  sort_insert cmp a l ≡ₚ a :: l.
Proof.
  induction l as [|y t IH]; simpl; [done|].
  destruct (cmp a y <=? 0); [done|]. rewrite IH. apply Permutation_swap.
Qed.

Lemma array_sort_Permutation {A} (cmp : A -> A -> Z) (l : list A) :
  array_sort cmp l ≡ₚ l.
Proof.
  induction l as [|a t IH]; simpl; [done|].
  by rewrite sort_insert_Permutation, IH.
Qed.

(** X3. A retrieval with an active budget (an upper price bound below
    200000) returns the cheapest candidates: together with the candidates
    it leaves out it makes up the candidates, no returned product has a
    higher [price_min] than a candidate left out, and it returns [topK]
    products or, if there are fewer, all candidates. *)
Theorem searchProducts_keeps_cheapest
    (index_query : option string -> list Q -> nat -> option PineconeFilter ->
                   string + list ScoredMatch)
    (queryEmbedding : list Q) (filters : SearchFilters) (topK : nat)
    (embeddingModel : EmbeddingModel) (products : list Product) :
  budget_active filters = true →
  searchProducts index_query queryEmbedding filters topK embeddingModel = inr products →
  ∃ matches rest,
    index_query (getNamespace embeddingModel) queryEmbedding
      (if nonempty_list (sf_categories filters) then (topK * 2)%nat else topK)
      (filter_or_undefined (buildPineconeFilter filters)) = inr matches
    ∧ products ++ rest ≡ₚ eligibleProducts filters embeddingModel matches
    ∧ (∀ p q, p ∈ products → q ∈ rest → price_min p <= price_min q)
    ∧ length products
      = (topK `min` length (eligibleProducts filters embeddingModel matches))%nat.
Proof.
  intros Hb. unfold searchProducts.
  destruct (index_query _ _ _ _) as [e|matches]; [discriminate|].
  intros [= <-]. rewrite postFilter_eligible, Hb.
  set (sorted := array_sort by_price_min (eligibleProducts filters embeddingModel matches)).
  exists matches, (drop topK sorted). split; [reflexivity|]. split; [|split].
  - rewrite take_drop. apply array_sort_Permutation.
  - intros p q Hp Hq.
    pose proof (array_sort_by_price_sorted
                  (eligibleProducts filters embeddingModel matches)) as Hs.
    fold sorted in Hs. rewrite <- (take_drop topK sorted) in Hs.
    exact (StronglySorted_app_1_elem_of _ _ _ _ _ Hs Hp Hq).
  - rewrite length_take. unfold sorted.
    by rewrite (Permutation_length (array_sort_Permutation _ _)).
Qed.

Lemma searchProducts_keeps_cheapest_witness :
  budget_active (fixtureFilters (Some (0, 40000))) = true
  ∧ ∃ products,
      searchProducts fixtureIndex [] (fixtureFilters (Some (0, 40000))) 1 openai
      = inr products
      ∧ length products = 1%nat.
Proof.
  split; [reflexivity|]. eexists. split; [reflexivity|].
  destruct (searchProducts_keeps_cheapest fixtureIndex [] (fixtureFilters (Some (0, 40000)))
              1%nat openai _ eq_refl eq_refl) as (matches & rest & Hm & _ & _ & Hlen).
  injection Hm as <-. exact Hlen.
Defined.

Lemma filter_sort_insert_by_price (v : Z) (a : Product) (l : list Product) :
  List.filter (has_price_min v) (sort_insert by_price_min a l)
  = List.filter (has_price_min v) (a :: l).
Proof.
  induction l as [|y t IH]; [done|].
  cbn [sort_insert]. unfold by_price_min at 1.
  destruct (Z.leb_spec (price_min a - price_min y) 0) as [Hle|Hgt]; [done|].
  cbn [List.filter] in *. rewrite IH. unfold has_price_min.
  destruct (Z.eqb_spec (price_min y) v), (Z.eqb_spec (price_min a) v); try done. lia.
Qed.

Lemma filter_array_sort_by_price (v : Z) (l : list Product) :
  List.filter (has_price_min v) (array_sort by_price_min l)
  = List.filter (has_price_min v) l.
Proof.
  induction l as [|a t IH]; [done|].
  cbn [array_sort foldr]. rewrite filter_sort_insert_by_price.
  cbn [List.filter]. fold (array_sort by_price_min t). by rewrite IH.
Qed.

Lemma filter_take_prefix {A} (f : A -> bool) (k : nat) (l : list A) :
  List.filter f (take k l) `prefix_of` List.filter f l.
Proof.
  rewrite <- (take_drop k l) at 2. rewrite List.filter_app. by eexists.
Qed.

(** X4. The sort of a retrieval is stable: for every price, the returned
    products with that [price_min] come in the order in which the index
    ranked them, and they are the first of the candidates with that
    [price_min]. *)
Theorem searchProducts_equal_price_keeps_rank
    (index_query : option string -> list Q -> nat -> option PineconeFilter ->
                   string + list ScoredMatch)
    (queryEmbedding : list Q) (filters : SearchFilters) (topK : nat)
    (embeddingModel : EmbeddingModel) (products : list Product) :
  searchProducts index_query queryEmbedding filters topK embeddingModel = inr products →
  ∃ matches,
    index_query (getNamespace embeddingModel) queryEmbedding
      (if nonempty_list (sf_categories filters) then (topK * 2)%nat else topK)
      (filter_or_undefined (buildPineconeFilter filters)) = inr matches
    ∧ ∀ v, List.filter (has_price_min v) products
           `prefix_of` List.filter (has_price_min v)
                         (eligibleProducts filters embeddingModel matches).
Proof.
  unfold searchProducts.
  destruct (index_query _ _ _ _) as [e|matches]; [discriminate|].
  intros [= <-]. exists matches. split; [reflexivity|]. intros v.
  rewrite postFilter_eligible. destruct (budget_active filters).
  - rewrite <- (filter_array_sort_by_price v (eligibleProducts _ _ _)).
    apply filter_take_prefix.
  - apply filter_take_prefix.
Qed.

Lemma searchProducts_equal_price_keeps_rank_witness :
  ∃ products,
    searchProducts fixtureIndex [] (fixtureFilters (Some (0, 40000))) 8 openai
    = inr products
    ∧ List.filter (has_price_min 30000) products
      `prefix_of` List.filter (has_price_min 30000)
                    (eligibleProducts (fixtureFilters (Some (0, 40000))) openai
                       fixtureMatches).
Proof.
  eexists. split; [reflexivity|].
  destruct (searchProducts_equal_price_keeps_rank fixtureIndex []
              (fixtureFilters (Some (0, 40000))) 8%nat openai _ eq_refl)
    as (matches & Hm & H).
  injection Hm as <-. exact (H 30000).
Defined.

(** X5. A product fetched by its id carries that id and the same fields
    as the search makes of the same metadata, except that availability,
    rating and review count are left out; a record that is missing, or an
    index that fails, gives no product and no failure. *)
Theorem getProductById_fields (index_fetch : string -> string + option Metadata)
    (productId : string) :
  match index_fetch productId with
  | inr (Some meta) =>
      getProductById index_fetch productId
      = Some (without_extras
                (toProduct {| match_id := productId; match_score := None;
                              match_metadata := meta |}))
      ∧ (id <$> getProductById index_fetch productId) = Some productId
  | _ => getProductById index_fetch productId = None
  end.
Proof.
  unfold getProductById. by destruct (index_fetch productId) as [e|[meta|]].
Qed.

(** ** Filter merger *)

Lemma set_add_all_app (seen x y : list string) :
  set_add_all seen (x ++ y) = set_add_all (set_add_all seen x) y.
Proof. revert seen. induction x as [|a x IH]; intros seen; simpl; [done|apply IH]. Qed.

Lemma set_add_all_fresh (seen u : list string) :
  NoDup (seen ++ u) → set_add_all seen u = seen ++ u.
Proof.
  revert seen. induction u as [|a u IH]; intros seen Hnd; simpl.
  - by rewrite app_nil_r.
  - apply NoDup_app in Hnd as Hsplit. destruct Hsplit as (_ & Hdis & _).
    destruct (decide (a ∈ seen)) as [Hin|_].
    + destruct (Hdis a Hin). apply list_elem_of_here.
    + rewrite IH; [by rewrite <- app_assoc|]. by rewrite <- app_assoc.
Qed.

Lemma set_add_all_known (seen l : list string) :
  (∀ x, x ∈ l → x ∈ seen) → set_add_all seen l = seen.
Proof.
  induction l as [|a l IH]; intros Hsub; simpl; [done|].
  destruct (decide (a ∈ seen)) as [_|Hn].
  - apply IH. intros x Hx. apply Hsub. by apply list_elem_of_further.
  - destruct Hn. apply Hsub. apply list_elem_of_here.
Qed.

Lemma set_union_absorb (a b : list string) :
  set_union (set_union a b) b = set_union a b.
Proof.
  destruct (set_union_spec a b) as [Hnd Hin].
  unfold set_union at 1. rewrite set_add_all_app.
  rewrite (set_add_all_fresh [] (set_union a b)); [|done].
  simpl. apply set_add_all_known. intros x Hx. apply Hin. by right.
Qed.

(** X6. Merging is idempotent: the filters that a merge returns, merged
    again with the same criteria, come back unchanged. *)
Theorem mergeFilters_idempotent (sidebar : Filters) (criteria : ParsedQuery)
    (merged : Filters) :
  mergeFilters (Some sidebar) criteria = inr merged →
  mergeFilters (Some merged) criteria = inr merged.
Proof.
  destruct criteria as [pr br ca so sp it], sidebar as [fp fc fb fs].
  unfold mergeFilters. simpl.
  destruct pr as [r|], br as [[|b bs]|], ca as [[|c cs]|], so as [[|s ss]|];
    simpl; intros [= <-]; simpl; by rewrite ?set_union_absorb.
Qed.

Lemma mergeFilters_idempotent_witness :
  ∃ merged,
    mergeFilters (Some (filtersOfState fixtureState)) fixtureCriteria = inr merged
    ∧ mergeFilters (Some merged) fixtureCriteria = inr merged.
Proof.
  eexists. split; [reflexivity|].
  apply (mergeFilters_idempotent (filtersOfState fixtureState) fixtureCriteria).
  reflexivity.
Defined.

(** X7. Criteria that carry nothing leave the filters of the user
    interface as they are, and so do criteria that carry only an intent or
    specs. *)
Theorem mergeFilters_without_criteria (sidebar : Filters) (criteria : ParsedQuery) :
  pq_priceRange criteria = None →
  ¬ nonempty_list (pq_brands criteria) →
  ¬ nonempty_list (pq_categories criteria) →
  ¬ nonempty_list (pq_sources criteria) →
  mergeFilters (Some sidebar) criteria = inr sidebar.
Proof.
  destruct criteria as [pr br ca so sp it], sidebar as [fp fc fb fs]. simpl.
  intros -> Hb Hc Hs. unfold mergeFilters. simpl.
  destruct br as [[|b bs]|], ca as [[|c cs]|], so as [[|s ss]|]; simpl in *;
    done.
Qed.

Lemma mergeFilters_without_criteria_witness :
  mergeFilters (Some (filtersOfState fixtureState)) emptyParsedQuery
  = inr (filtersOfState fixtureState).
Proof.
  apply mergeFilters_without_criteria; [reflexivity | | | ]; simpl; tauto.
Defined.

(** Without filters of the user interface (an undefined first
    argument) the merge throws exactly when the criteria carry a non-empty
    brand or category list; otherwise it returns the price interval and
    the non-empty source list of the criteria and nothing else. *)
Lemma mergeFilters_undefined_sidebar (criteria : ParsedQuery) :
  if nonempty_list (pq_brands criteria) || nonempty_list (pq_categories criteria)
  then ∃ e, mergeFilters None criteria = inl e
  else mergeFilters None criteria
       = inr {| priceRange := pq_priceRange criteria;
                categories := None;
                brands := None;
                filter_source := if nonempty_list (pq_sources criteria)
                                 then pq_sources criteria else None |}.
Proof.
  destruct criteria as [pr br ca so sp it]. unfold mergeFilters. simpl.
  destruct pr as [r|], br as [[|b bs]|], ca as [[|c cs]|], so as [[|s ss]|];
    simpl; first [reflexivity | by eexists].
Qed.

(** ** The handler as a whole *)

Lemma resolve_subset (T : json -> option Z) (rawOutput : string)
    (candidates display : list Product) (intent : option Intent) (cleaned : string) :
  resolve T rawOutput candidates intent = inr (display, cleaned) →
  ∀ p, p ∈ display → p ∈ candidates.
Proof.
  unfold resolve. destruct (extractSelection rawOutput) as [v c].
  destruct v as [| | | s | [|i ids] |]; cbn [displayProducts];
    try (intros [= <- _] p Hp; by eapply elem_of_sublist, sublist_take).
  - destruct s; [|discriminate].
    intros [= <- _] p Hp. by eapply elem_of_sublist, sublist_take.
  - intros H p.
    assert (display = selectProducts T candidates (i :: ids)) as -> by congruence.
    apply selectProducts_subset.
Qed.

Lemma resolvePrevious_subset (T : json -> option Z) (rawOutput : string)
    (previous display : list Product) (cleaned : string) :
  resolvePrevious T rawOutput previous = inr (display, cleaned) →
  ∀ p, p ∈ display → p ∈ previous.
Proof.
  unfold resolvePrevious. destruct (extractSelection rawOutput) as [v c].
  destruct v as [| | | s | [|i ids] |]; cbn [displayPrevious];
    try (by intros [= <- _]).
  - destruct s; [|discriminate]. by intros [= <- _].
  - intros H p.
    assert (display = selectProducts T previous (i :: ids)) as -> by congruence.
    apply selectProducts_subset.
Qed.

Lemma length_recentHistory (history : list Message) :
  (length (recentHistory history) <= 8)%nat.
Proof. unfold recentHistory. rewrite length_drop. lia. Qed.

Lemma recentHistory_suffix (history : list Message) :
  recentHistory history `suffix_of` history.
Proof. apply suffix_drop. Qed.

(** The run of the handler on a request with a message, by route. *)
Lemma POST_unfold (svc : Services) (req : Request) (c : ascii) (r : string) :
  req_message req = Some (String c r) →
  POST svc req
  = match route (String c r) (req_conversationHistory req) with
    | Casual => ([], casualReply svc (String c r))
    | Contextual previous => followUp svc req (String c r) previous
    | Fresh => freshSearch svc req (String c r)
    end.
Proof. intros H. unfold POST. rewrite H. by destruct (route _ _). Qed.

(** Case analysis on every test that a run of the handler makes. *)
Ltac handler_cases :=
  unfold followUp, freshSearch, call, mbind, mret, IO_bind, IO_ret;
  repeat match goal with
         | |- context [match ?x with _ => _ end] =>
             lazymatch x with
             | context [match _ with _ => _ end] => fail
             | _ => destruct x eqn:?
             end
         end.

(** X8. The collaborators are called in the order of the pipeline and at
    most once each: the calls of a request are either none, or the one call
    of the generator on the follow-up path, with the context of the prior
    items of the route, or a prefix of the sequence interpretation of the
    query, embedding, search (for 8 results), generator. So no search is
    made without an embedding and no generator call without a search or
    prior items. *)
Theorem POST_call_order (svc : Services) (req : Request) :
  fst (POST svc req) = []
  ∨ ∃ message,
      req_message req = Some message
      ∧ ((∃ ctx, fst (POST svc req) = [LLMCall message ctx (req_provider req)]
                 ∧ ∃ previous,
                     route message (req_conversationHistory req) = Contextual previous
                     ∧ ctx = (buildContext (toLocaleString svc) previous
                              +:+ formatConversationHistory (req_conversationHistory req))
                             +:+ intentHint)
         ∨ ∃ sf ctx,
             fst (POST svc req) `prefix_of`
               [ParseQueryCall message;
                EmbeddingCall message (req_embeddingModel req);
                SearchCall sf 8 (req_embeddingModel req);
                LLMCall message ctx (req_provider req)]).
Proof.
  destruct (req_message req) as [[|c r]|] eqn:Hmsg;
    [left; unfold POST; by rewrite Hmsg | | left; unfold POST; by rewrite Hmsg].
  rewrite (POST_unfold _ _ _ _ Hmsg).
  destruct (route _ _) as [|previous|] eqn:Hroute; [by left| |]; right;
    exists (String c r); (split; [reflexivity|]).
  - left. eexists. unfold followUp, call, mbind, IO_bind.
    destruct (queryLLM svc _ _ _) as [e|llm];
      [split; [reflexivity|by exists previous]|].
    destruct (resolvePrevious _ _ _) as [e|[d cl]];
      (split; [reflexivity|by exists previous]).
  - right.
    handler_cases; simpl;
      first
        [ exists (fixtureFilters None), EmptyString; by eexists
        | eexists _, EmptyString; by eexists
        | eexists _, _; by eexists ].
Qed.

(** Case analysis on a whole run of the handler. *)
Ltac post_cases Hmsg Hroute :=
  let c := fresh "c" in
  let r := fresh "r" in
  destruct (req_message _) as [[|c r]|] eqn:Hmsg; unfold POST; rewrite ?Hmsg;
  [ | destruct (route _ _) eqn:Hroute; handler_cases | ].

(** X9. Grounding: a product that a reply displays was either attached to
    the most recent assistant turn with products (follow-up path) or
    returned by the search that this request made (fresh path). *)
Theorem POST_displays_only_known_products (svc : Services) (req : Request)
    (trace : list Event) (content : string) (products : list Product)
    (provider model : string) (found : nat) (tokens : option nat) :
  POST svc req = (trace, Reply content products provider model found tokens) →
  ∀ shown, shown ∈ products →
    ∃ message,
      req_message req = Some message
      ∧ ((∃ prior, route message (req_conversationHistory req) = Contextual prior
                   ∧ shown ∈ prior)
         ∨ (∃ embedding sf retrieved,
              SearchCall sf 8 (req_embeddingModel req) ∈ trace
              ∧ generateEmbedding svc message (req_embeddingModel req) = inr embedding
              ∧ searchProducts (index_query svc) embedding sf 8 (req_embeddingModel req)
                = inr retrieved
              ∧ shown ∈ retrieved)).
Proof.
  post_cases Hmsg Hroute; simpl; unfold casualReply; intros H shown Hp; simplify_eq;
    try (by apply elem_of_nil in Hp);
    (eexists; split; [reflexivity|]).
  - left. eexists. split; [eassumption|]. by eapply resolvePrevious_subset.
  - right. eexists _, _, _.
    split; [|split; [eassumption|split; [eassumption|by eapply resolve_subset]]].
    rewrite !elem_of_cons. tauto.
  - right. eexists _, _, _.
    split; [|split; [eassumption|split; [eassumption|by eapply resolve_subset]]].
    rewrite !elem_of_cons. tauto.
Qed.

Lemma POST_displays_only_known_products_witness :
  ∃ trace content products provider model found tokens,
    POST (fixtureServices bareOutput) (fixtureRequest "laptops" (0, 40000) [])
    = (trace, Reply content products provider model found tokens)
    ∧ products ≠ []
    ∧ ∀ shown, shown ∈ products →
        ∃ message,
          req_message (fixtureRequest "laptops" (0, 40000) []) = Some message
          ∧ ((∃ prior, route message [] = Contextual prior ∧ shown ∈ prior)
             ∨ (∃ embedding sf retrieved,
                  SearchCall sf 8 openai ∈ trace
                  ∧ generateEmbedding (fixtureServices bareOutput) message openai
                    = inr embedding
                  ∧ searchProducts fixtureIndex embedding sf 8 openai = inr retrieved
                  ∧ shown ∈ retrieved)).
Proof.
  eexists _, _, _, _, _, _, _. split; [vm_compute; reflexivity|]. split; [discriminate|].
  eapply (POST_displays_only_known_products (fixtureServices bareOutput)
            (fixtureRequest "laptops" (0, 40000) [])).
  vm_compute. reflexivity.
Defined.

(** X10. Budget safety from end to end: when a request made a search with
    a price interval, which is the merged interval of the filters of the
    user interface and of the interpreted query, every product that the
    reply displays has its whole price interval inside it. *)
Theorem POST_display_within_budget (svc : Services) (req : Request)
    (trace : list Event) (content : string) (products : list Product)
    (provider model : string) (found : nat) (tokens : option nat)
    (sf : SearchFilters) (topK : nat) (embeddingModel : EmbeddingModel) (lo hi : Z) :
  POST svc req = (trace, Reply content products provider model found tokens) →
  SearchCall sf topK embeddingModel ∈ trace →
  sf_priceRange sf = Some (lo, hi) →
  (∃ message merged,
     req_message req = Some message
     ∧ mergeFilters (req_filters req)
         (match parseQuery svc message with
          | inr q => q
          | inl _ => emptyParsedQuery
          end) = inr merged
     ∧ priceRange merged = Some (lo, hi))
  ∧ ∀ shown, shown ∈ products → lo <= price_min shown ∧ price_max shown <= hi.
Proof.
  post_cases Hmsg Hroute; simpl; unfold casualReply; intros H Hcall Hrange;
    simplify_eq; rewrite ?elem_of_cons, ?elem_of_nil in Hcall;
    try (destruct Hcall as [?|[?|[?|[?|?]]]]; simplify_eq);
    try (destruct Hcall as [?|[?|[?|?]]]; simplify_eq);
    try (destruct Hcall as [?|?]; simplify_eq);
    try done;
    (split;
     [eexists _, _; split; [reflexivity|];
      match goal with Hq : parseQuery _ _ = _ |- _ => rewrite Hq end;
      split; [eassumption | exact Hrange] |]);
    try (intros shown Hs; by apply elem_of_nil in Hs).
  all: intros shown Hs;
    match goal with
    | Hr : resolve _ _ _ _ = inr _ |- _ => pose proof (resolve_subset _ _ _ _ _ _ Hr _ Hs) as Hin
    end;
    match goal with
    | Hsp : searchProducts _ _ ?f _ _ = inr ?l |- _ =>
        unfold searchProducts in Hsp;
        destruct (index_query svc _ _ _ _) as [e|matches]; [discriminate|];
        injection Hsp as Hsp; rewrite <- Hsp in Hin;
        pose proof (postFilter_within f _ _ _ lo hi shown Hrange Hin) as Hw
    end;
    unfold withinRange in Hw; apply andb_true_iff in Hw as [H1 H2]; lia.
Qed.

Lemma POST_display_within_budget_witness :
  ∃ trace content products provider model found tokens,
    POST (fixtureServices bareOutput) (fixtureRequest "laptops" (0, 40000) [])
    = (trace, Reply content products provider model found tokens)
    ∧ SearchCall ({| sf_priceRange := Some (0, 40000); sf_categories := Some []; sf_brands := Some []; sf_sources := Some [] |}) 8 openai ∈ trace
    ∧ products ≠ []
    ∧ ∀ shown, shown ∈ products → 0 <= price_min shown ∧ price_max shown <= 40000.
Proof.
  eexists _, _, _, _, _, _, _. split; [vm_compute; reflexivity|].
  match goal with
  | |- ?P ∧ _ =>
      assert (Hcall : P)
        by apply list_elem_of_further, list_elem_of_further, list_elem_of_here
  end.
  split; [exact Hcall|]. split; [discriminate|].
  eapply (POST_display_within_budget (fixtureServices bareOutput)
            (fixtureRequest "laptops" (0, 40000) [])); [|exact Hcall|reflexivity].
  vm_compute. reflexivity.
Defined.

(** X11. The failures of the handler. A reply with status 400 is given
    only to a request without a message (or with an empty one) and before
    any call. Every other failure has status 500 and carries the message
    of the exception. Its error is Internal server error with no call made
    when the body cannot be read; Failed to generate embedding when the
    embedding failed (then no search was made); Failed to search products
    when the search failed (then the detail starts with Vector search
    failed and the generator was not called); Failed to generate response
    when the generator failed and also, on the follow-up path, when the
    generator answered and the selection could not be mapped; Internal
    server error when the merge of the filters threw, right after the
    interpretation of the query, and when, on the fresh path, the
    generator answered and the selection could not be mapped. *)
Theorem POST_failures (svc : Services) (body : string + Request) (trace : list Event)
    (status : nat) (error : string) (details : option string) :
  POST_body svc body = (trace, Failure status error details) →
  (status = 400%nat ∧ error = "Message is required"%string ∧ details = None ∧ trace = []
   ∧ ∃ req, body = inr req
            ∧ (req_message req = None ∨ req_message req = Some EmptyString))
  ∨ (status = 500%nat
     ∧ ∃ d,
         details = Some d
         ∧ ((error = "Internal server error"%string ∧ trace = [] ∧ body = inl d)
            ∨ ∃ req message,
                body = inr req ∧ req_message req = Some message ∧ message ≠ EmptyString
                ∧ ((error = "Failed to generate embedding"%string
                    ∧ generateEmbedding svc message (req_embeddingModel req) = inl d
                    ∧ trace = [ParseQueryCall message;
                               EmbeddingCall message (req_embeddingModel req)])
                   ∨ (error = "Failed to search products"%string
                      ∧ (∃ e, d = "Vector search failed: " +:+ e)
                      ∧ ∃ sf, trace = [ParseQueryCall message;
                                       EmbeddingCall message (req_embeddingModel req);
                                       SearchCall sf 8 (req_embeddingModel req)])
                   ∨ (error = "Failed to generate response"%string
                      ∧ ∃ ctx,
                          last trace = Some (LLMCall message ctx (req_provider req))
                          ∧ (queryLLM svc message ctx (req_provider req) = inl d
                             ∨ ∃ previous llmResponse,
                                 route message (req_conversationHistory req)
                                 = Contextual previous
                                 ∧ queryLLM svc message ctx (req_provider req)
                                   = inr llmResponse
                                 ∧ resolvePrevious (ToNumber svc)
                                     (llm_content llmResponse) previous = inl d))
                   ∨ (error = "Internal server error"%string
                      ∧ ((trace = [ParseQueryCall message]
                          ∧ mergeFilters (req_filters req)
                              (match parseQuery svc message with
                               | inr q => q
                               | inl _ => emptyParsedQuery
                               end) = inl d)
                         ∨ ∃ ctx llmResponse products intent,
                             route message (req_conversationHistory req) = Fresh
                             ∧ last trace
                               = Some (LLMCall message ctx (req_provider req))
                             ∧ queryLLM svc message ctx (req_provider req)
                               = inr llmResponse
                             ∧ resolve (ToNumber svc) (llm_content llmResponse)
                                 products intent = inl d))))).
Proof.
  destruct body as [e|req]; unfold POST_body.
  { unfold mret, IO_ret. intros H. simplify_eq. right. split; [reflexivity|].
    eexists. split; [reflexivity|]. left. by repeat split. }
  unfold POST.
  destruct (req_message req) as [[|c r]|] eqn:Hmsg; cbv beta iota;
    [ | destruct (route _ _) eqn:Hroute; handler_cases | ];
    simpl; unfold casualReply, mret, IO_ret; intros H; simplify_eq;
    try (left; repeat split; eexists; split; [reflexivity|]; tauto);
    right; (split; [reflexivity|]); eexists; (split; [reflexivity|]); right;
    eexists _, _; (split; [reflexivity|]); (split; [eassumption|]);
    (split; [discriminate|]).
  all: try (right; right; left; split; [reflexivity|]; eexists;
            split; [reflexivity|]; first [by left | right; by eexists _, _]).
  all: try (right; right; right; split; [reflexivity|];
            first [ left; split; [reflexivity|];
                    match goal with Hq : parseQuery _ _ = _ |- _ => rewrite Hq end;
                    eassumption
                  | right; eexists _, _, _, _; split; [eassumption|];
                    split; [reflexivity|]; split; eassumption ]).
  all: try (left; repeat split; by eauto).
  all: right; left; split; [reflexivity|]; split; [|by eexists].
  all: match goal with
       | Hsp : searchProducts _ _ _ _ _ = inl _ |- _ =>
           unfold searchProducts in Hsp;
           destruct (index_query svc _ _ _ _) as [e|matches]; [|discriminate];
           injection Hsp as <-; by eexists
       end.
Qed.

Lemma POST_failures_witness :
  POST_body criteriaServices (inr (bareRequest "asus laptop"))
  = ([ParseQueryCall "asus laptop"],
     Failure 500 "Internal server error"
       (Some "Cannot read properties of undefined (reading 'brands')"))
  ∧ mergeFilters None fixtureCriteria
    = inl "Cannot read properties of undefined (reading 'brands')"%string.
Proof.
  split; [reflexivity|].
  destruct (POST_failures criteriaServices (inr (bareRequest "asus laptop"))
              [ParseQueryCall "asus laptop"] 500 "Internal server error"
              (Some "Cannot read properties of undefined (reading 'brands')") eq_refl)
    as [(H & _)|(_ & d & Hd & [(_ & H & _)|(req & message & Hb & Hm & _ & H)])];
    [discriminate H | discriminate H |].
  injection Hd as <-. injection Hb as <-. injection Hm as <-.
  destruct H as [(H & _)|[(H & _)|[(H & _)|(_ & [(_ & H)|(c & l & p & i & _ & H & _)])]]];
    [discriminate H | discriminate H | discriminate H | exact H | discriminate H].
Defined.

Lemma recentHistory_idemp (history : list Message) :
  recentHistory (recentHistory history) = recentHistory history.
Proof.
  unfold recentHistory at 1.
  replace (length (recentHistory history) - 8)%nat with 0%nat; [done|].
  pose proof (length_recentHistory history). lia.
Qed.

(** The formatter reads the history through its window only. *)
Lemma formatConversationHistory_recent (history : list Message) :
  formatConversationHistory history = formatConversationHistory (recentHistory history).
Proof.
  destruct history as [|m ms] eqn:E; [reflexivity|]. rewrite <- E.
  assert (Hne : recentHistory history ≠ []).
  { intros Hnil. apply (f_equal length) in Hnil. unfold recentHistory in Hnil.
    rewrite length_drop in Hnil. subst history. simpl in Hnil. lia. }
  unfold formatConversationHistory at 2. rewrite recentHistory_idemp.
  destruct (recentHistory history) as [|x xs] eqn:R; [done|].
  subst history. unfold formatConversationHistory. by rewrite R.
Qed.

(** X12. What the generator is given. Whenever the handler calls the
    generator, it passes the message and the provider of the request and a
    context that renders a product list that is not empty: on the
    follow-up path the prior items of the route, then the conversation,
    then the follow-up hint; on the fresh path the products that the
    search of this request found, then the intent of the interpreted
    query, then the conversation. Of the conversation the context holds
    the last 8 turns at most: it is the same text as for a conversation
    cut down to those turns. *)
Theorem POST_generator_context (svc : Services) (req : Request)
    (message ctx : string) (provider : LLMProvider) :
  LLMCall message ctx provider ∈ fst (POST svc req) →
  req_message req = Some message
  ∧ provider = req_provider req
  ∧ (length (recentHistory (req_conversationHistory req)) <= 8)%nat
  ∧ ∃ products,
      products ≠ []
      ∧ ((route message (req_conversationHistory req) = Contextual products
          ∧ ctx = (buildContext (toLocaleString svc) products
                   +:+ formatConversationHistory
                         (recentHistory (req_conversationHistory req)))
                  +:+ intentHint)
         ∨ (∃ embedding sf,
              route message (req_conversationHistory req) = Fresh
              ∧ generateEmbedding svc message (req_embeddingModel req) = inr embedding
              ∧ searchProducts (index_query svc) embedding sf 8 (req_embeddingModel req)
                = inr products
              ∧ ctx = buildContext (toLocaleString svc) products
                      +:+ intentContext
                            (pq_intent (match parseQuery svc message with
                                        | inr q => q
                                        | inl _ => emptyParsedQuery
                                        end))
                      +:+ formatConversationHistory
                            (recentHistory (req_conversationHistory req)))).
Proof.
  rewrite <- formatConversationHistory_recent.
  match goal with |- _ → ?G => remember G as Concl eqn:HConcl end.
  unfold POST.
  destruct (req_message req) as [[|c r]|] eqn:Hmsg; cbv beta iota;
    [ | destruct (route (String c r) (req_conversationHistory req)) eqn:Hroute;
        handler_cases | ];
    cbn [fst app]; unfold mret, IO_ret; cbn [fst app];
    rewrite ?elem_of_cons, ?elem_of_nil; intros Hcall;
    repeat (destruct Hcall as [Hcall|Hcall]; [discriminate Hcall || idtac|]);
    try done; try discriminate Hcall; simplify_eq;
    try match goal with Hq : parseQuery _ _ = _ |- _ => rewrite Hq end;
    (split; [reflexivity|]); (split; [reflexivity|]);
    (split; [apply length_recentHistory|]).
  all: try (eexists; split;
            [|left; split; [eassumption|reflexivity]];
            by apply route_Contextual_inv in Hroute as (_ & Hne & _)).
  all: eexists; (split; [|right; eexists _, _; split; [eassumption|];
                           split; [eassumption|]; split; [eassumption|reflexivity]]);
       discriminate.
Qed.

Lemma POST_generator_context_witness :
  ∃ ctx,
    LLMCall "which one is better" ctx provider_gemini
    ∈ fst (POST (fixtureServices plainOutput)
             (fixtureRequest "which one is better" (0, 200000)
                (fixtureHistory ++ fixtureHistory ++ fixtureHistory ++ fixtureHistory
                 ++ fixtureHistory)))
    ∧ ctx = (buildContext (toLocaleString (fixtureServices plainOutput))
               [fixtureProduct "c1" "Alpha" 30000 32000;
                fixtureProduct "c2" "Bravo" 33000 35000]
             +:+ formatConversationHistory
                   (fixtureHistory ++ fixtureHistory ++ fixtureHistory ++ fixtureHistory))
            +:+ intentHint.
Proof.
  eexists. split; [apply list_elem_of_here|].
  destruct (POST_generator_context (fixtureServices plainOutput)
              (fixtureRequest "which one is better" (0, 200000)
                 (fixtureHistory ++ fixtureHistory ++ fixtureHistory ++ fixtureHistory
                  ++ fixtureHistory))
              "which one is better" _ provider_gemini (list_elem_of_here _ _))
    as (_ & _ & _ & products & _ & [[Hr ->]|(e & sf & Hr & _)]); [|discriminate Hr].
  vm_compute in Hr. injection Hr as <-. reflexivity.
Defined.

(** X13. A request that carries no filters is answered with status 500
    as soon as the interpreted query names a brand or a category: on the
    fresh path the handler then fails while merging, right after the
    interpretation of the query and before any embedding, search or
    generation. *)
Theorem POST_without_filters (svc : Services) (req : Request) (message : string)
    (q : ParsedQuery) :
  req_message req = Some message →
  message ≠ EmptyString →
  route message (req_conversationHistory req) = Fresh →
  req_filters req = None →
  parseQuery svc message = inr q →
  nonempty_list (pq_brands q) || nonempty_list (pq_categories q) = true →
  ∃ details,
    POST svc req
    = ([ParseQueryCall message], Failure 500 "Internal server error" (Some details)).
Proof.
  intros Hm Hne Hr Hf Hq Hbc. destruct message as [|c r]; [done|].
  rewrite (POST_unfold svc req c r Hm), Hr.
  unfold freshSearch, call, mbind, mret, IO_bind, IO_ret. rewrite Hq, Hf.
  destruct q as [pr br ca so sp it]. simpl in Hbc.
  unfold mergeFilters. simpl.
  destruct pr as [range|], br as [[|b bs]|], ca as [[|c' cs]|]; simpl in *;
    try discriminate; by eexists.
Qed.

Lemma POST_without_filters_witness :
  ∃ details,
    POST criteriaServices (bareRequest "asus laptop")
    = ([ParseQueryCall "asus laptop"],
       Failure 500 "Internal server error" (Some details)).
Proof.
  apply (POST_without_filters criteriaServices (bareRequest "asus laptop")
           "asus laptop" fixtureCriteria); try reflexivity. discriminate.
Defined.

(** ** LLM providers *)

Lemma queryProvider_shape (b : Backends) (provider : LLMProvider)
    (systemPrompt userMessage context : string) :
  ∃ c result,
    queryProvider b provider systemPrompt userMessage context = ([c], result)
    ∧ callee c = provider
    ∧ ∀ response, result = inr response → llm_provider response = providerName provider.
Proof.
  destruct provider; simpl; unfold queryOpenAI, queryGemini; eexists _, _;
    (split; [reflexivity|]); (split; [reflexivity|]); intros response.
  - destruct (openai_create b _ _) as [e|completion]; [discriminate|].
    destruct (completion_choices completion); [discriminate|]. by intros [= <-].
  - destruct (gemini_generate b _) as [e|text]; [discriminate|]. by intros [= <-].
Qed.

(** X14. The fallback between the providers. A query calls the preferred
    backend first. If that backend answers, no other call is made and the
    answer is the answer of the preferred backend. If it fails, the other
    backend is called next and exactly once; its answer, if it gives one,
    is returned under its own name. The query fails only when both
    backends failed, and then its message quotes the error of the preferred
    backend before the error of the other one. *)
Theorem queryLLM_fallback (b : Backends) (systemPrompt userMessage context : string)
    (preferredProvider : LLMProvider) :
  let run p := queryProvider b p systemPrompt userMessage context in
  let result := queryLLMWithFallback b systemPrompt userMessage context preferredProvider in
  match snd (run preferredProvider) with
  | inr response =>
      result = (fst (run preferredProvider), inr response)
      ∧ map callee (fst result) = [preferredProvider]
      ∧ llm_provider response = providerName preferredProvider
  | inl error =>
      map callee (fst result) = [preferredProvider; otherProvider preferredProvider]
      ∧ fst result = fst (run preferredProvider) ++ fst (run (otherProvider preferredProvider))
      ∧ match snd (run (otherProvider preferredProvider)) with
        | inr response =>
            snd result = inr response
            ∧ llm_provider response = providerName (otherProvider preferredProvider)
        | inl fallbackError =>
            snd result
            = inl ("Both LLM providers failed. OpenAI: " +:+ error +:+ ", Gemini: "
                   +:+ fallbackError)
        end
  end.
Proof.
  intros run result. subst run result. unfold queryLLMWithFallback.
  destruct (queryProvider_shape b preferredProvider systemPrompt userMessage context)
    as (c1 & r1 & -> & Hc1 & Hp1).
  destruct (queryProvider_shape b (otherProvider preferredProvider) systemPrompt
              userMessage context) as (c2 & r2 & -> & Hc2 & Hp2).
  simpl. destruct r1 as [e1|resp1]; simpl.
  - destruct r2 as [e2|resp2]; simpl; rewrite Hc1, Hc2; repeat split; auto.
  - rewrite Hc1. repeat split; auto.
Qed.

(** X15. Both backends are given the same instructions, context and
    question: the prompt of Gemini is the system prompt, an empty line and
    the user content that OpenAI receives beside the system prompt. *)
Theorem queryLLM_same_prompt (b : Backends) (systemPrompt userMessage context : string)
    (preferredProvider : LLMProvider) (c : BackendCall) :
  c ∈ fst (queryLLMWithFallback b systemPrompt userMessage context preferredProvider) →
  let userContent := context +:+ nl +:+ nl +:+ "User Question: " +:+ userMessage in
  c = OpenAICall systemPrompt userContent
  ∨ c = GeminiCall (systemPrompt +:+ nl +:+ nl +:+ userContent).
Proof.
  unfold queryLLMWithFallback, queryProvider, queryOpenAI, queryGemini.
  destruct preferredProvider; simpl;
    repeat match goal with
           | |- context [match ?x with _ => _ end] =>
               lazymatch x with
               | context [match _ with _ => _ end] => fail
               | _ => destruct x
               end
           end; simpl; rewrite ?elem_of_cons, ?elem_of_nil; intros H;
    repeat (destruct H as [H|H]); subst; try done; auto.
Qed.

Lemma queryLLM_same_prompt_witness :
  GeminiCall ("S" +:+ nl +:+ nl +:+ "C" +:+ nl +:+ nl +:+ "User Question: " +:+ "Q")
  ∈ fst (queryLLMWithFallback (fixtureBackends "ok") "S" "Q" "C" provider_openai)
  ∧ (GeminiCall ("S" +:+ nl +:+ nl +:+ "C" +:+ nl +:+ nl +:+ "User Question: " +:+ "Q")
     = OpenAICall "S" ("C" +:+ nl +:+ nl +:+ "User Question: " +:+ "Q")
     ∨ GeminiCall ("S" +:+ nl +:+ nl +:+ "C" +:+ nl +:+ nl +:+ "User Question: " +:+ "Q")
       = GeminiCall ("S" +:+ nl +:+ nl +:+ "C" +:+ nl +:+ nl +:+ "User Question: " +:+ "Q")).
Proof.
  assert (H : GeminiCall ("S" +:+ nl +:+ nl +:+ "C" +:+ nl +:+ nl +:+ "User Question: " +:+ "Q")
              ∈ fst (queryLLMWithFallback (fixtureBackends "ok") "S" "Q" "C" provider_openai)).
  { apply list_elem_of_further, list_elem_of_here. }
  split; [exact H|].
  exact (queryLLM_same_prompt _ _ _ _ _ _ H).
Defined.

(** ** Embeddings *)

(** X16. Without the key of the chosen model (not set, or empty) no
    request is sent, and the embedding fails with a message that names the
    model and the missing key. *)
Theorem generateEmbedding_missing_key (env : Env) (svc : EmbeddingServices)
    (text : string) (model : EmbeddingModel) :
  unset (keyOf env model) = true →
  generateEmbeddingWith env svc text model
  = ([], inl ("Failed to generate " +:+ embeddingModelName model +:+ " embedding: "
              +:+ keyName model +:+ " is not set in environment variables")).
Proof.
  unfold generateEmbeddingWith, generateHuggingFaceEmbedding.
  destruct model; simpl; intros H.
  - by rewrite H.
  - by destruct (HUGGINGFACE_API_KEY env) as [[|c k]|].
Qed.

Lemma generateEmbedding_missing_key_witness :
  unset (keyOf fixtureEnv openai) = true
  ∧ fst (generateEmbeddingWith fixtureEnv (fixtureEmbeddingServices "[]") "laptop" openai)
    = [].
Proof.
  split; [reflexivity|].
  by rewrite (generateEmbedding_missing_key fixtureEnv (fixtureEmbeddingServices "[]")
                "laptop" openai eq_refl).
Defined.

(** X17. An embedding of HuggingFace that succeeds was asked for with the
    key of the environment in exactly one request, which was answered with
    an OK status and a JSON body; the vector is not empty, starts with a
    number, and is either the body itself (an array of numbers) or the
    first element of the body (a batch). *)
Theorem generateEmbedding_huggingface_success (env : Env) (svc : EmbeddingServices)
    (text : string) (requests : list EmbeddingRequest) (embedding : list json) :
  generateEmbeddingWith env svc text huggingface = (requests, inr embedding) →
  ∃ apiKey response,
    HUGGINGFACE_API_KEY env = Some apiKey ∧ apiKey ≠ EmptyString
    ∧ requests = [HuggingFaceRequest apiKey text]
    ∧ hf_fetch svc apiKey text = inr response
    ∧ resp_ok response = true
    ∧ (∃ first rest, embedding = first :: rest ∧ is_number first = true)
    ∧ (JSON_parse (resp_body response) = Some (JArray embedding)
       ∨ ∃ others, JSON_parse (resp_body response) = Some (JArray (JArray embedding :: others))).
Proof.
  unfold generateEmbeddingWith, generateHuggingFaceEmbedding.
  destruct (HUGGINGFACE_API_KEY env) as [[|c k]|]; try discriminate.
  destruct (hf_fetch svc (String c k) text) as [e|response] eqn:Hf; [discriminate|].
  destruct (resp_ok response) eqn:Hok; [|discriminate].
  destruct (JSON_parse (resp_body response)) as [result|] eqn:Hp; [|discriminate].
  unfold extractEmbedding.
  intros H. exists (String c k), response.
  split; [reflexivity|]. split; [discriminate|].
  destruct result as [| | | | [|[| | n | | [|[| | n | | |] rest] |] others] |];
    simplify_eq; (split; [reflexivity|]); (split; [exact Hf|]); (split; [exact Hok|]);
    (split; [by eexists _, _|]); [by left | right; by eexists].
Qed.

Lemma generateEmbedding_huggingface_success_witness :
  ∃ requests embedding,
    generateEmbeddingWith fixtureEnv (fixtureEmbeddingServices "[[0.5, 1]]") "laptop"
      huggingface = (requests, inr embedding)
    ∧ ∃ first rest, embedding = first :: rest ∧ is_number first = true.
Proof.
  eexists _, _. split; [vm_compute; reflexivity|].
  edestruct (generateEmbedding_huggingface_success fixtureEnv
               (fixtureEmbeddingServices "[[0.5, 1]]") "laptop")
    as (apiKey & response & _ & _ & _ & _ & _ & H & _); [vm_compute; reflexivity|].
  exact H.
Defined.

(** ** Validation in [parseQuery] *)

Lemma jn_nonneg_value (n : jnumber) : jn_nonneg n = true → (0 <= jn_value n)%Q.
Proof.
  unfold jn_nonneg, jn_value. intros H. apply Z.leb_le in H.
  destruct (Z.leb_spec 0 (jn_exp10 n)) as [He|He].
  - unfold Qle. simpl. assert (0 <= 10 ^ jn_exp10 n) by (apply Z.pow_nonneg; lia). nia.
  - unfold Qle. simpl. lia.
Qed.

Lemma jn_leb_value (n : jnumber) (k : Z) :
  jn_leb n k = true → (jn_value n <= inject_Z k)%Q.
Proof.
  unfold jn_leb, jn_value.
  destruct (Z.leb_spec 0 (jn_exp10 n)) as [He|He]; intros H; apply Z.leb_le in H.
  - unfold Qle. simpl. lia.
  - unfold Qle. simpl. rewrite Z2Pos.id; [lia|]. apply Z.pow_pos_nonneg; lia.
Qed.

Lemma cleanList_elem (keep : json -> option string) (v : option json)
    (l : list string) (s : string) :
  cleanList keep v = Some l → s ∈ l → ∃ x, keep x = Some s.
Proof.
  unfold cleanList. destruct v as [[| | | | [|x xs] |]|]; try discriminate.
  intros H Hs. assert (l = omap keep (x :: xs)) as -> by congruence.
  apply list_elem_of_omap in Hs as (y & _ & Hy). by exists y.
Qed.

(** X18. What [parseQuery] lets through. A price interval in the criteria
    has a lower bound that is not negative and an upper bound of at most
    300000; every source in the criteria is StarTech or Daraz; no brand and
    no category in the criteria is the empty string. *)
Theorem parseQuery_validated (ToString : json -> string) (generated : string + string) :
  let cleaned := parseQueryFrom ToString generated in
  (∀ lo hi, cq_priceRange cleaned = Some (lo, hi) →
     (0 <= jn_value lo)%Q ∧ (jn_value hi <= 300000)%Q)
  ∧ (∀ l s, cq_sources cleaned = Some l → s ∈ l →
       s = "StarTech"%string ∨ s = "Daraz"%string)
  ∧ (∀ l s, cq_brands cleaned = Some l → s ∈ l → s ≠ EmptyString)
  ∧ (∀ l s, cq_categories cleaned = Some l → s ∈ l → s ≠ EmptyString).
Proof.
  intros cleaned. subst cleaned. unfold parseQueryFrom.
  assert (Hprice : ∀ v lo hi, cleanPriceRange v = Some (lo, hi) →
                     (0 <= jn_value lo)%Q ∧ (jn_value hi <= 300000)%Q).
  { intros v lo hi. unfold cleanPriceRange.
    destruct v as [[| | | | [|[| | a | | |] [|[| | b | | |] rest]] |]|]; try discriminate.
    destruct (jn_nonneg a) eqn:Ha; [|discriminate].
    destruct (jn_leb b 300000) eqn:Hb; [|discriminate].
    intros [= <- <-]. split; [by apply jn_nonneg_value|].
    by apply (jn_leb_value b 300000). }
  assert (Hsrc : ∀ v l s, cleanList valid_source v = Some l → s ∈ l →
                   s = "StarTech"%string ∨ s = "Daraz"%string).
  { intros v l s Hl Hs. destruct (cleanList_elem _ _ _ _ Hl Hs) as (x & Hx).
    unfold valid_source in Hx. destruct x; try discriminate.
    destruct (existsb _ _) eqn:E; [|discriminate]. injection Hx as <-.
    apply existsb_exists in E as (t & Ht & Heq). apply String.eqb_eq in Heq as <-.
    simpl in Ht. destruct Ht as [<-|[<-|[]]]; auto. }
  assert (Hne : ∀ v l s, cleanList nonempty_string v = Some l → s ∈ l →
                  s ≠ EmptyString).
  { intros v l s Hl Hs. destruct (cleanList_elem _ _ _ _ Hl Hs) as (x & Hx).
    unfold nonempty_string in Hx. destruct x as [| | | [|c r] | |]; try discriminate.
    by injection Hx as <-. }
  destruct generated as [e|text]; [by repeat split|].
  destruct (JSON_parse text) as [[]|]; simpl; try (by repeat split);
    (split; [apply Hprice|]); (split; [apply Hsrc|]); split; apply Hne.
Qed.

Lemma parseQuery_validated_witness :
  cq_sources (parseQueryFrom (fun _ => EmptyString) (inr fixtureCriteriaText))
  = Some ["Daraz"%string]
  ∧ ("Daraz" = "StarTech" ∨ "Daraz" = "Daraz")%string.
Proof.
  split; [reflexivity|].
  destruct (parseQuery_validated (fun _ => EmptyString) (inr fixtureCriteriaText))
    as (_ & H & _).
  apply (H ["Daraz"%string]); [reflexivity|apply list_elem_of_here].
Defined.

(** X19. [parseQuery] degrades to empty criteria: when the call of the
    generator fails, when its text is not JSON, and when the text is JSON
    but not an object. *)
Theorem parseQuery_degrades (ToString : json -> string) (generated : string + string) :
  (∀ text ms, generated = inr text → JSON_parse text ≠ Some (JObject ms)) →
  parseQueryFrom ToString generated = emptyCleanedQuery.
Proof.
  intros H. unfold parseQueryFrom. destruct generated as [e|text]; [done|].
  destruct (JSON_parse text) as [[| | | | |ms]|] eqn:E; try done.
  by destruct (H text ms eq_refl).
Qed.

Lemma parseQuery_degrades_witness :
  (∀ text ms, @inr string string "not json" = inr text →
              JSON_parse text ≠ Some (JObject ms))
  ∧ parseQueryFrom (fun _ => EmptyString) (inr "not json") = emptyCleanedQuery.
Proof.
  assert (H : ∀ text ms, @inr string string "not json" = inr text →
                         JSON_parse text ≠ Some (JObject ms)).
  { intros text ms [= <-]. discriminate. }
  split; [exact H|].
  exact (parseQuery_degrades (fun _ => EmptyString) (inr "not json") H).
Defined.

(** ** The selection protocol *)

Lemma append_cons (c : ascii) (a b : string) : String c a +:+ b = String c (a +:+ b).
Proof. reflexivity. Qed.

Lemma append_empty_r (a : string) : a +:+ EmptyString = a.
Proof.
  induction a as [|c a IH]; [reflexivity|]. by rewrite append_cons, IH.
Qed.

Lemma string_drop_app (p t : string) : string_drop (String.length p) (p +:+ t) = t.
Proof. induction p as [|c p IH]; [by destruct t|]. exact IH. Qed.

Lemma string_drop_split (n : nat) (s : string) : ∃ p, s = p +:+ string_drop n s.
Proof.
  revert s. induction n as [|n IH]; intros s; [by exists EmptyString|].
  destruct s as [|c r]; [by exists EmptyString|].
  destruct (IH r) as [p Hp]. exists (String c p). simpl string_drop.
  by rewrite append_cons, <- Hp.
Qed.

Lemma string_drop_app_le (n : nat) (w t : string) :
  (n <= String.length w)%nat → string_drop n (w +:+ t) = string_drop n w +:+ t.
Proof.
  revert w. induction n as [|n IH]; intros w Hn; [reflexivity|].
  destruct w as [|c w]; [simpl in Hn; lia|].
  rewrite append_cons. simpl string_drop. apply IH. simpl in Hn. lia.
Qed.

Lemma length_append (a b : string) :
  String.length (a +:+ b) = (String.length a + String.length b)%nat.
Proof.
  induction a as [|c a IH]; [reflexivity|]. rewrite append_cons. simpl. by rewrite IH.
Qed.

Lemma prefix_app (pat t : string) : String.prefix pat (pat +:+ t) = true.
Proof.
  induction pat as [|c pat IH]; [by destruct t|].
  rewrite append_cons. simpl. by destruct (ascii_dec c c).
Qed.

Lemma prefix_split (pat s : string) :
  String.prefix pat s = true → s = pat +:+ string_drop (String.length pat) s.
Proof.
  revert s. induction pat as [|c pat IH]; intros s H; [by destruct s|].
  destruct s as [|d s]; [done|]. simpl in H.
  destruct (ascii_dec c d) as [->|]; [|done].
  rewrite append_cons. simpl string_drop. by rewrite <- (IH s H).
Qed.

Lemma find_sub_unfold (pat s : string) :
  find_sub pat s
  = if String.prefix pat s then Some (EmptyString, string_drop (String.length pat) s)
    else match s with
         | EmptyString => None
         | String c r =>
             match find_sub pat r with
             | Some (before, after) => Some (String c before, after)
             | None => None
             end
         end.
Proof. by destruct s. Qed.

(** What [find_sub] finds is an occurrence. *)
Lemma find_sub_sound (pat s before after : string) :
  find_sub pat s = Some (before, after) → s = before +:+ pat +:+ after.
Proof.
  revert before. induction s as [|c r IH]; intros before; rewrite find_sub_unfold;
    destruct (String.prefix pat _) eqn:Hp; try discriminate.
  - intros [= <- <-]. by apply prefix_split.
  - intros [= <- <-]. by apply prefix_split.
  - destruct (find_sub pat r) as [[b a]|]; [|discriminate].
    intros [= <- <-]. rewrite append_cons. by rewrite <- (IH b).
Qed.

(** An occurrence anywhere makes [find_sub] find one that ends no later. *)
Lemma find_sub_first (pat p t : string) :
  ∃ before after u,
    find_sub pat (p +:+ pat +:+ t) = Some (before, after) ∧ after = u +:+ t.
Proof.
  induction p as [|c p IH].
  - change (EmptyString +:+ pat +:+ t) with (pat +:+ t).
    rewrite find_sub_unfold, prefix_app, string_drop_app. by exists EmptyString, t, EmptyString.
  - rewrite find_sub_unfold. destruct (String.prefix pat _) eqn:Hp.
    + eexists _, _, _. split; [reflexivity|].
      rewrite <- (append_assoc (String c p) pat t).
      apply string_drop_app_le. rewrite length_append. lia.
    + rewrite append_cons. destruct IH as (b & a & u & -> & ->). by eexists _, _, _.
Qed.

Lemma find_sub_None (pat s : string) :
  find_sub pat s = None ↔ includes s pat = false.
Proof.
  induction s as [|c r IH]; rewrite find_sub_unfold; cbn [includes];
    destruct (String.prefix pat _); simpl; try done.
  destruct (find_sub pat r) as [[b a]|]; [|tauto].
  split; [done|]. intros H. by apply IH in H.
Qed.

Lemma trimStart_split (s : string) : ∃ ws, s = ws +:+ trimStart s.
Proof.
  induction s as [|c r [ws IH]]; [by exists EmptyString|]. simpl.
  destruct (is_space c); [|by exists EmptyString].
  exists (String c ws). by rewrite append_cons, <- IH.
Qed.

Lemma find_close_sound (s tl after : string) :
  find_close s = Some (tl, after) → ∃ x, s = tl +:+ "}" +:+ x.
Proof.
  revert tl. induction s as [|c r IH]; intros tl; [discriminate|]. cbn [find_close].
  destruct ((c =? "}")%char && String.prefix "```" (trimStart r)) eqn:E.
  - intros [= <- _]. apply andb_true_iff in E as [E _].
    apply Ascii.eqb_eq in E as ->. by exists r.
  - destruct (find_close r) as [[t a]|]; [|discriminate].
    intros [= <- <-]. destruct (IH t eq_refl) as [x ->]. by exists x.
Qed.

(** A fenced match holds an opening brace, later the key, later a closing
    brace. *)
Lemma match_fenced_here_shape (s object after : string) :
  match_fenced_here s = Some (object, after) →
  ∃ p mid tl x, s = p +:+ "{" +:+ mid +:+ SELECTION_KEY +:+ tl +:+ "}" +:+ x.
Proof.
  unfold match_fenced_here. destruct (String.prefix _ s); [|discriminate].
  destruct (string_drop_split 6 s) as [p0 Hs].
  set (r0 := string_drop 6 s) in *.
  assert (Hn : ∃ p1, r0 = p1 +:+ match r0 with String "n" r' => r' | _ => r0 end).
  { destruct r0 as [|c r']; [by exists EmptyString|].
    destruct (Ascii.eqb_spec c "n") as [->|Hc]; [by exists "n"%string|].
    exists EmptyString. by destruct c as [[] [] [] [] [] [] [] []]. }
  destruct Hn as [p1 Hn]. set (r1 := match r0 with String "n" r' => r' | _ => r0 end) in *.
  destruct (trimStart_split r1) as [ws Hws].
  destruct (trimStart r1) as [|c r2]; [discriminate|].
  destruct (Ascii.eqb_spec c "{") as [->|Hc];
    [|destruct c as [[] [] [] [] [] [] [] []]; try discriminate; by destruct Hc].
  destruct (find_sub SELECTION_KEY r2) as [[mid r3]|] eqn:Hk; [|discriminate].
  destruct (find_close r3) as [[tl a]|] eqn:Hc; [|discriminate].
  intros _. apply find_sub_sound in Hk. apply find_close_sound in Hc as [x Hx].
  exists (p0 +:+ p1 +:+ ws), mid, tl, x.
  rewrite Hs, Hn, Hws, Hk, Hx. by rewrite !append_assoc.
Qed.

Lemma match_fenced_shape (s before object after : string) :
  match_fenced s = Some (before, object, after) →
  ∃ p mid tl x, s = p +:+ "{" +:+ mid +:+ SELECTION_KEY +:+ tl +:+ "}" +:+ x.
Proof.
  revert before object after.
  induction s as [|c s IH]; intros before object after; cbn [match_fenced];
    destruct (match_fenced_here _) as [[o a]|] eqn:E;
    try (intros _; by eapply match_fenced_here_shape); [discriminate|].
  destruct (match_fenced s) as [[[b o] a]|] eqn:Em; [|discriminate].
  intros _. destruct (IH b o a eq_refl) as (p & mid & tl & x & ->).
  by exists (String c p), mid, tl, x.
Qed.

Lemma match_object_complete (p mid tl x : string) :
  ∃ before m after,
    match_object (p +:+ "{" +:+ mid +:+ SELECTION_KEY +:+ tl +:+ "}" +:+ x)
    = Some (before, m, after).
Proof.
  unfold match_object.
  destruct (find_sub_first "{" p (mid +:+ SELECTION_KEY +:+ tl +:+ "}" +:+ x))
    as (b1 & a1 & u1 & -> & ->).
  rewrite <- (append_assoc u1 mid).
  destruct (find_sub_first SELECTION_KEY (u1 +:+ mid) (tl +:+ "}" +:+ x))
    as (b2 & a2 & u2 & -> & ->).
  rewrite <- (append_assoc u2 tl).
  destruct (find_sub_first "}" (u2 +:+ tl) x) as (b3 & a3 & u3 & -> & ->).
  by eexists _, _, _.
Qed.

Lemma find_sub_char (ch : ascii) (b a : string) :
  includes b (String ch EmptyString) = false →
  find_sub (String ch EmptyString) (b +:+ String ch a) = Some (b, a).
Proof.
  induction b as [|c b IH]; intros H.
  - change (EmptyString +:+ String ch a) with (String ch a).
    rewrite find_sub_unfold. simpl. destruct (ascii_dec ch ch); [by destruct a|done].
  - cbn [includes] in H. apply orb_false_iff in H as [Hp Hb].
    rewrite append_cons, find_sub_unfold. simpl in Hp |- *.
    destruct (ascii_dec ch c); [by destruct b|]. by rewrite (IH Hb).
Qed.

Lemma find_sub_char_before (ch : ascii) (s b a : string) :
  find_sub (String ch EmptyString) s = Some (b, a) →
  includes b (String ch EmptyString) = false.
Proof.
  revert b a. induction s as [|c r IH]; intros b a; rewrite find_sub_unfold.
  - simpl. discriminate.
  - destruct (String.prefix _ (String c r)) eqn:Hp; [by intros [= <- _]|].
    destruct (find_sub _ r) as [[b0 a0]|]; [|discriminate].
    intros [= <- _]. cbn [includes]. rewrite (IH b0 a0 eq_refl), orb_false_r.
    simpl in Hp |- *. destruct (ascii_dec ch c); [|done]. by destruct r.
Qed.

(** The first occurrence starts no later than any occurrence. *)
Lemma find_sub_leftmost (pat s b a : string) :
  find_sub pat s = Some (b, a) →
  ∀ b' a', s = b' +:+ pat +:+ a' → (String.length b <= String.length b')%nat.
Proof.
  revert b a. induction s as [|c r IH]; intros b a; rewrite find_sub_unfold;
    destruct (String.prefix pat _) eqn:Hp; try discriminate;
    try (intros [= <- _] b' a' _; simpl; lia).
  destruct (find_sub pat r) as [[b0 a0]|]; [|discriminate].
  intros [= <- _] b' a' Hs. destruct b' as [|d b'].
  - change (EmptyString +:+ pat +:+ a') with (pat +:+ a') in Hs.
    rewrite Hs, prefix_app in Hp. discriminate.
  - rewrite append_cons in Hs. injection Hs as -> Hr. simpl.
    specialize (IH b0 a0 eq_refl b' a' Hr). lia.
Qed.

Lemma match_fenced_needs_brace (s : string) :
  includes s "{" = false → match_fenced s = None.
Proof.
  intros H. destruct (match_fenced s) as [[[b o] a]|] eqn:E; [|done].
  destruct (match_fenced_shape _ _ _ _ E) as (p & mid & tl & x & ->).
  destruct (find_sub_first "{" p (mid +:+ SELECTION_KEY +:+ tl +:+ "}" +:+ x))
    as (b1 & a1 & u1 & Hf & _).
  apply find_sub_None in H. congruence.
Qed.

(** X20. The fenced form of the protocol never decides: whenever the
    fenced expression matches a text, the bare expression matches it too,
    so the text handed to [JSON.parse] is always the match of the bare
    expression. *)
Theorem jsonMatch_never_uses_fence (content : string) :
  (∀ before object after,
     match_fenced content = Some (before, object, after) →
     ∃ before' m after', match_object content = Some (before', m, after'))
  ∧ jsonMatch content = (fun found => snd (fst found)) <$> match_object content.
Proof.
  assert (H : ∀ before object after,
            match_fenced content = Some (before, object, after) →
            ∃ before' m after', match_object content = Some (before', m, after')).
  { intros b o a E. destruct (match_fenced_shape _ _ _ _ E) as (p & mid & tl & x & ->).
    apply match_object_complete. }
  split; [exact H|]. unfold jsonMatch.
  destruct (match_object content) as [[[b m] a]|]; [done|].
  destruct (match_fenced content) as [[[b o] a]|] eqn:E; [|done].
  by destruct (H b o a eq_refl) as (? & ? & ? & ?).
Qed.

Lemma jsonMatch_never_uses_fence_witness :
  match_fenced fencedOutput
  = Some ("Pick these two." +:+ nl, selectionObject "1, 3", EmptyString)
  ∧ ∃ before' m after', match_object fencedOutput = Some (before', m, after').
Proof.
  split; [reflexivity|].
  destruct (jsonMatch_never_uses_fence fencedOutput) as [H _].
  exact (H _ _ _ eq_refl).
Defined.

(** X21. The match of the bare expression. It splits the text into the
    part before the match, the match and the part after it; the part
    before holds no opening brace, so the match starts at the first
    opening brace of the whole text; the match runs from that brace over
    the first occurrence of the key to the first closing brace after the
    key; and the replacement removes the match and nothing else. *)
Theorem match_object_decomposes (content before m after : string) :
  match_object content = Some (before, m, after) →
  content = before +:+ m +:+ after
  ∧ includes before "{" = false
  ∧ replace_object content = before +:+ after
  ∧ ∃ mid tl,
      m = "{" +:+ mid +:+ SELECTION_KEY +:+ tl +:+ "}"
      ∧ includes tl "}" = false
      ∧ ∀ mid' rest,
          mid +:+ SELECTION_KEY +:+ tl +:+ "}" +:+ after = mid' +:+ SELECTION_KEY +:+ rest →
          (String.length mid <= String.length mid')%nat.
Proof.
  unfold replace_object, match_object.
  destruct (find_sub "{" content) as [[b r1]|] eqn:H1; [|discriminate].
  destruct (find_sub SELECTION_KEY r1) as [[mid r2]|] eqn:H2; [|discriminate].
  destruct (find_sub "}" r2) as [[tl a]|] eqn:H3; [|discriminate].
  intros [= <- <- <-].
  pose proof (find_sub_sound _ _ _ _ H1) as E1.
  pose proof (find_sub_sound _ _ _ _ H2) as E2.
  pose proof (find_sub_sound _ _ _ _ H3) as E3.
  split; [|split; [by eapply find_sub_char_before|split; [done|]]].
  - rewrite E1, E2, E3. by rewrite !append_assoc.
  - exists mid, tl. split; [done|]. split; [by eapply find_sub_char_before|].
    intros mid' rest Hs. eapply (find_sub_leftmost _ _ _ _ H2).
    rewrite E2, E3. exact Hs.
Qed.

Lemma match_object_decomposes_witness :
  match_object bareOutput
  = Some ("Pick these two." +:+ nl +:+ nl, selectionObject "1, 3", EmptyString)
  ∧ replace_object bareOutput = ("Pick these two." +:+ nl +:+ nl) +:+ EmptyString.
Proof.
  split; [reflexivity|].
  by destruct (match_object_decomposes bareOutput _ _ _ eq_refl) as (_ & _ & H & _).
Defined.

(** X22. The bare form of the protocol works whenever the narrative holds
    no opening brace. For a text made of such a narrative and then an
    object that starts with the key, holds no closing brace before its
    last character, and parses with the member [selected_product_ids]: the
    selection is the value of that member (the empty list when the value
    is falsy) and the narrative left is the narrative given, trimmed: no
    part of the object stays in it. *)
Theorem extractSelection_bare (narrative body : string) (ms : list (string * json))
    (value : json) :
  includes narrative "{" = false →
  includes body "}" = false →
  JSON_parse ("{" +:+ SELECTION_KEY +:+ body +:+ "}") = Some (JObject ms) →
  get_member "selected_product_ids" ms = Some value →
  extractSelection (narrative +:+ "{" +:+ SELECTION_KEY +:+ body +:+ "}")
  = (if is_falsy value then JArray [] else value, trim narrative).
Proof.
  intros Hn Hb Hp Hg.
  assert (Hm : match_object (narrative +:+ "{" +:+ SELECTION_KEY +:+ body +:+ "}")
               = Some (narrative, "{" +:+ SELECTION_KEY +:+ body +:+ "}", EmptyString)).
  { unfold match_object.
    change ("{" +:+ SELECTION_KEY +:+ body +:+ "}")
      with (String "{" (SELECTION_KEY +:+ body +:+ "}")).
    rewrite (find_sub_char "{" narrative _ Hn).
    rewrite (find_sub_unfold SELECTION_KEY), prefix_app, string_drop_app.
    change (body +:+ "}") with (body +:+ String "}" EmptyString).
    by rewrite (find_sub_char "}" body _ Hb). }
  assert (Hd : declares (narrative +:+ "{" +:+ SELECTION_KEY +:+ body +:+ "}") value).
  { exists ("{" +:+ SELECTION_KEY +:+ body +:+ "}"), ms. unfold jsonMatch. by rewrite Hm. }
  rewrite (extractSelection_declares _ _ Hd). f_equal. unfold replace_object.
  rewrite Hm, append_empty_r. unfold replace_fenced.
  by rewrite (match_fenced_needs_brace _ Hn).
Qed.

Lemma extractSelection_bare_witness :
  includes ("Pick these two." +:+ nl +:+ nl) "{" = false
  ∧ includes ": [1, 3]" "}" = false
  ∧ extractSelection bareOutput = (JArray [jint 1; jint 3], "Pick these two."%string).
Proof.
  split; [reflexivity|]. split; [reflexivity|].
  exact (extractSelection_bare ("Pick these two." +:+ nl +:+ nl) ": [1, 3]"
           [("selected_product_ids"%string, JArray [jint 1; jint 3])]
           (JArray [jint 1; jint 3]) eq_refl eq_refl eq_refl eq_refl).
Defined.

(** ** The context of the generator *)



(** X24. The generator sees a bounded window of the conversation: a
    history of more than 8 turns is rendered exactly as its last 8 turns
    alone. *)
Theorem formatConversationHistory_window (older recent : list Message) :
  length recent = 8%nat →
  formatConversationHistory (older ++ recent) = formatConversationHistory recent.
Proof.
  intros Hlen.
  assert (H1 : recentHistory (older ++ recent) = recent).
  { unfold recentHistory. rewrite length_app, Hlen.
    replace (length older + 8 - 8)%nat with (length older) by lia.
    by rewrite drop_app_length. }
  assert (H2 : recentHistory recent = recent).
  { unfold recentHistory. by rewrite Hlen. }
  unfold formatConversationHistory. rewrite H1, H2.
  destruct recent as [|m ms]; [discriminate|]. by destruct older.
Qed.

Lemma formatConversationHistory_window_witness :
  length (fixtureHistory ++ fixtureHistory ++ fixtureHistory ++ fixtureHistory) = 8%nat
  ∧ formatConversationHistory
      (fixtureHistory ++ fixtureHistory ++ fixtureHistory ++ fixtureHistory ++ fixtureHistory)
    = formatConversationHistory
        (fixtureHistory ++ fixtureHistory ++ fixtureHistory ++ fixtureHistory).
Proof.
  split; [reflexivity|].
  apply (formatConversationHistory_window fixtureHistory
           (fixtureHistory ++ fixtureHistory ++ fixtureHistory ++ fixtureHistory)).
  reflexivity.
Defined.

(** ** Conversation storage *)

Definition newer_first (a b : Conversation) : Prop := updatedAt b <= updatedAt a.

Lemma sort_insert_most_recent_sorted (a : Conversation) (l : list Conversation) :
  StronglySorted newer_first l →
  StronglySorted newer_first (sort_insert most_recent_first a l).
Proof.
  induction 1 as [|y t Hs IH Hall]; simpl.
  - repeat constructor.
  - unfold most_recent_first at 1.
    destruct (Z.leb_spec (updatedAt y - updatedAt a) 0) as [Hle|Hgt].
    + constructor; [by constructor|].
      constructor; [unfold newer_first; lia|].
      eapply Forall_impl; [exact Hall|]. unfold newer_first. intros z Hz. lia.
    + constructor; [exact IH|].
      apply Forall_forall. intros z Hz.
      apply elem_of_sort_insert in Hz as [->|Hz].
      * unfold newer_first. lia.
      * rewrite Forall_forall in Hall. by apply Hall.
Qed.

Lemma array_sort_most_recent_sorted (l : list Conversation) :
  StronglySorted newer_first (array_sort most_recent_first l).
Proof.
  induction l as [|a t IH]; simpl; [constructor|].
  by apply sort_insert_most_recent_sorted.
Qed.

Lemma findIndex_Some {A} (f : A -> bool) (l : list A) (i : nat) :
  findIndex f l = Some i → ∃ x, l !! i = Some x ∧ f x = true.
Proof.
  revert i. induction l as [|y t IH]; intros i; simpl; [done|].
  destruct (f y) eqn:E.
  - intros [= <-]. by exists y.
  - destruct (findIndex f t) as [j|]; [|done]. intros [= <-]. by apply IH.
Qed.

(** The conversations that [saveConversation] sorts. *)
Definition pending (b : Browser) (now : Z) (c : Conversation) : list Conversation :=
  match findIndex (fun x => String.eqb (conv_id x) (conv_id c)) (getAllConversations b) with
  | Some i => <[i := touched now c]> (getAllConversations b)
  | None => getAllConversations b ++ [touched now c]
  end.

Lemma saveConversation_unfold (b : Browser) (now : Z) (c : Conversation) :
  window b = true → setItem_error b = None →
  saveConversation b now c
  = (with_localStorage b
       (Holds (take MAX_CONVERSATIONS (array_sort most_recent_first (pending b now c)))),
     touched now c).
Proof. intros Hw He. unfold saveConversation, pending. by rewrite Hw, He. Qed.

Lemma elem_of_insert_inv {A} (l : list A) (i : nat) (x y : A) :
  y ∈ <[i := x]> l → y = x ∨ y ∈ l.
Proof.
  intros [j Hj]%list_elem_of_lookup_1.
  destruct (decide (i = j)) as [->|Hne].
  - destruct (decide (j < length l)%nat) as [Hlt|Hge].
    + rewrite list_lookup_insert_eq in Hj by done. left. congruence.
    + rewrite list_insert_ge in Hj by lia. right. by eapply list_elem_of_lookup_2.
  - rewrite list_lookup_insert_ne in Hj by done. right. by eapply list_elem_of_lookup_2.
Qed.

Lemma elem_of_pending (b : Browser) (now : Z) (c x : Conversation) :
  x ∈ pending b now c → x = touched now c ∨ x ∈ getAllConversations b.
Proof.
  unfold pending. destruct (findIndex _ _) as [i|].
  - apply elem_of_insert_inv.
  - rewrite elem_of_app, list_elem_of_singleton. tauto.
Qed.

Lemma touched_in_pending (b : Browser) (now : Z) (c : Conversation) :
  touched now c ∈ pending b now c.
Proof.
  unfold pending. destruct (findIndex _ _) as [i|] eqn:E.
  - apply findIndex_Some in E as (x & Hx & _).
    apply list_elem_of_insert. by eapply lookup_lt_Some.
  - rewrite elem_of_app, list_elem_of_singleton. tauto.
Qed.

Lemma old_in_pending (b : Browser) (now : Z) (c old : Conversation) :
  old ∈ getAllConversations b → conv_id old ≠ conv_id c → old ∈ pending b now c.
Proof.
  intros Hold Hne. unfold pending. destruct (findIndex _ _) as [i|] eqn:E.
  - apply findIndex_Some in E as (x & Hx & Hid). apply String.eqb_eq in Hid.
    apply list_elem_of_lookup_1 in Hold as [j Hj].
    apply (list_elem_of_lookup_2 _ j).
    rewrite list_lookup_insert_ne; [done|]. intros ->. congruence.
  - rewrite elem_of_app. tauto.
Qed.

Lemma sorted_head_newest (l : list Conversation) (x : Conversation) :
  StronglySorted newer_first l → x ∈ l →
  (∀ y, y ∈ l → y = x ∨ updatedAt y < updatedAt x) →
  ∃ t, l = x :: t.
Proof.
  intros Hs Hx Hmax. destruct l as [|h t]; [by apply elem_of_nil in Hx|].
  exists t. f_equal.
  destruct (Hmax h) as [->|Hlt]; [apply list_elem_of_here|done|].
  apply elem_of_cons in Hx as [->|Hx]; [done|].
  apply StronglySorted_inv in Hs as [_ Hall]. rewrite Forall_forall in Hall.
  specialize (Hall x Hx). unfold newer_first in Hall. lia.
Qed.

Lemma saveConversation_lookup (b : Browser) (now : Z) (c : Conversation) :
  window b = true → setItem_error b = None →
  (∀ old, old ∈ getAllConversations b → updatedAt old < now) →
  getConversation (saveConversation b now c).1 (conv_id c) = Some (touched now c).
Proof.
  intros Hw He Hrecent. rewrite saveConversation_unfold by done.
  destruct (sorted_head_newest (array_sort most_recent_first (pending b now c))
              (touched now c)) as [t Ht].
  - apply array_sort_most_recent_sorted.
  - apply elem_of_array_sort, touched_in_pending.
  - intros y Hy. apply elem_of_array_sort, elem_of_pending in Hy as [->|Hy]; [by left|].
    right. simpl. by apply Hrecent.
  - rewrite Ht. unfold getConversation, getAllConversations. simpl. rewrite Hw.
    simpl. by rewrite String.eqb_refl.
Qed.

(** X25. In a browser whose storage accepts the write, the store holds
    after a save at most [MAX_CONVERSATIONS] = 10 conversations, most
    recently updated first; each of them is the saved conversation or was
    stored before, and a stored conversation of another id that is
    dropped was updated no later than every conversation that is kept. *)
Theorem saveConversation_keeps_most_recent (b : Browser) (now : Z) (c : Conversation) :
  window b = true → setItem_error b = None →
  ∃ kept,
    localStorage (saveConversation b now c).1 = Holds kept
    ∧ (length kept ≤ 10)%nat
    ∧ StronglySorted newer_first kept
    ∧ (∀ k, k ∈ kept → k = touched now c ∨ k ∈ getAllConversations b)
    ∧ (∀ old, old ∈ getAllConversations b → conv_id old ≠ conv_id c → old ∉ kept →
         ∀ k, k ∈ kept → updatedAt old <= updatedAt k).
Proof.
  intros Hw He. rewrite saveConversation_unfold by done. eexists. split; [reflexivity|].
  pose proof (array_sort_most_recent_sorted (pending b now c)) as Hs.
  set (sorted := array_sort most_recent_first (pending b now c)) in *.
  split; [|split; [|split]].
  - rewrite length_take. unfold MAX_CONVERSATIONS. lia.
  - by apply StronglySorted_take.
  - intros k Hk. apply (elem_of_pending b now c).
    apply (elem_of_array_sort most_recent_first).
    apply elem_of_take in Hk as (i & Hi & _). by eapply list_elem_of_lookup_2.
  - intros old Hold Hne Hout k Hk.
    assert (Hin : old ∈ sorted).
    { apply elem_of_array_sort. by apply old_in_pending. }
    rewrite <- (take_drop MAX_CONVERSATIONS sorted) in Hin, Hs.
    apply elem_of_app in Hin as [Hin|Hin]; [done|].
    exact (StronglySorted_app_1_elem_of _ _ _ _ _ Hs Hk Hin).
Qed.

Lemma saveConversation_keeps_most_recent_witness :
  ∃ kept,
    localStorage (saveConversation fixtureBrowser 3000 (fixtureConversation "conv_3" 0)).1
    = Holds kept
    ∧ (length kept ≤ 10)%nat.
Proof.
  destruct (saveConversation_keeps_most_recent fixtureBrowser 3000
              (fixtureConversation "conv_3" 0) eq_refl eq_refl)
    as (kept & H1 & H2 & _).
  by exists kept.
Defined.

(** X26. Saving then looking up, in a browser whose storage accepts the
    write: when the clock is later than every stored update, the
    conversation that is saved is what [getConversation] returns for its
    id, with the new update time, its messages and creation time
    unchanged, and a title that is kept when it had one. *)
Theorem saveConversation_then_get (b : Browser) (now : Z) (c : Conversation) :
  window b = true → setItem_error b = None →
  (∀ old, old ∈ getAllConversations b → updatedAt old < now) →
  ∃ saved,
    getConversation (saveConversation b now c).1 (conv_id c) = Some saved
    ∧ saved = (saveConversation b now c).2
    ∧ conv_id saved = conv_id c
    ∧ conv_messages saved = conv_messages c
    ∧ createdAt saved = createdAt c
    ∧ updatedAt saved = now
    ∧ (∀ t, title c = Some t → t ≠ EmptyString → title saved = Some t).
Proof.
  intros Hw He Hrecent. exists (touched now c).
  split; [by apply saveConversation_lookup|].
  split; [by rewrite saveConversation_unfold|].
  repeat split. intros t Ht Hne. unfold touched. simpl. rewrite Ht. unfold or_string.
  apply String.eqb_neq in Hne. by rewrite !Hne.
Qed.

Lemma saveConversation_then_get_witness :
  ∃ saved,
    getConversation (saveConversation fixtureBrowser 3000 (fixtureConversation "conv_1" 1000)).1
      "conv_1" = Some saved
    ∧ updatedAt saved = 3000.
Proof.
  destruct (saveConversation_then_get fixtureBrowser 3000 (fixtureConversation "conv_1" 1000)
              eq_refl eq_refl) as (saved & H1 & _ & _ & _ & _ & H2 & _).
  - intros old Hold. apply list_elem_of_In in Hold. simpl in Hold.
    destruct Hold as [<-|[<-|[]]]; simpl; lia.
  - by exists saved.
Defined.

(** X27. Starting a conversation, in a browser whose storage accepts the
    write: a conversation that is created and then saved, at a time later
    than every stored update, is the current conversation, is found under
    its id with no messages and no title, and is listed as
    New Conversation with 0 messages. *)
Theorem createConversation_then_save (b : Browser) (now later : Z) (token : string) :
  window b = true → setItem_error b = None →
  (∀ old, old ∈ getAllConversations b → updatedAt old < later) →
  ∃ b1 c,
    createConversation b now token = inr (b1, c)
    ∧ getCurrentConversationId (saveConversation b1 later c).1 = Some (conv_id c)
    ∧ getConversation (saveConversation b1 later c).1 (conv_id c)
      = Some {| conv_id := conv_id c; conv_messages := []; createdAt := now;
                updatedAt := later; title := None |}
    ∧ (∃ s, s ∈ getConversationSummaries (saveConversation b1 later c).1
            ∧ sum_id s = conv_id c
            ∧ sum_title s = "New Conversation"%string
            ∧ messageCount s = 0%nat
            ∧ lastUpdated s = later).
Proof.
  intros Hw He Hrecent. unfold createConversation, setCurrentConversationId.
  rewrite Hw, He. eexists _, _. split; [reflexivity|].
  set (c := {| conv_id := "conv_" +:+ decimal (Z.to_nat now) +:+ "_" +:+ token;
               conv_messages := []; createdAt := now; updatedAt := now;
               title := None |}).
  set (b1 := with_sessionStorage b (Some (conv_id c))).
  assert (Hw1 : window b1 = true) by done.
  assert (He1 : setItem_error b1 = None) by done.
  assert (Hlookup : getConversation (saveConversation b1 later c).1 (conv_id c)
                    = Some (touched later c)).
  { apply saveConversation_lookup; [done..|]. intros old Hold. by apply Hrecent. }
  split; [|split; [exact Hlookup|]].
  - rewrite saveConversation_unfold by done. unfold getCurrentConversationId. simpl.
    by rewrite Hw.
  - exists {| sum_id := conv_id c; sum_title := "New Conversation";
              messageCount := 0; lastUpdated := later |}.
    split; [|done]. unfold getConversationSummaries.
    apply elem_of_array_sort, list_elem_of_fmap. exists (touched later c).
    split; [done|]. apply find_some in Hlookup as [Hin _]. by apply list_elem_of_In.
Qed.

Lemma createConversation_then_save_witness :
  ∃ b1 c,
    createConversation fixtureBrowser 2500 "k3x9" = inr (b1, c)
    ∧ getCurrentConversationId (saveConversation b1 3000 c).1 = Some (conv_id c).
Proof.
  destruct (createConversation_then_save fixtureBrowser 2500 3000 "k3x9" eq_refl eq_refl)
    as (b1 & c & H1 & H2 & _).
  - intros old Hold. apply list_elem_of_In in Hold. simpl in Hold.
    destruct Hold as [<-|[<-|[]]]; simpl; lia.
  - by exists b1, c.
Defined.

Lemma find_filter {A} (f g : A -> bool) (l : list A) :
  List.find f (List.filter g l) = List.find (fun x => g x && f x) l.
Proof.
  induction l as [|x t IH]; [done|]. simpl.
  destruct (g x); simpl; [by rewrite IH|done].
Qed.

Lemma find_ext {A} (f g : A -> bool) (l : list A) :
  (∀ x, f x = g x) → List.find f l = List.find g l.
Proof. intros H. induction l as [|x t IH]; [done|]. simpl. by rewrite H, IH. Qed.

Lemma find_never {A} (f : A -> bool) (l : list A) :
  (∀ x, f x = false) → List.find f l = None.
Proof. intros H. induction l as [|x t IH]; [done|]. simpl. by rewrite H. Qed.

(** X28. Deleting forgets one conversation and nothing else, in a
    browser whose storage accepts the write: after
    [deleteConversation(id)] no conversation is found for [id], every
    other id is looked up as before, and the current conversation is
    cleared exactly when it was the deleted one. *)
Theorem deleteConversation_forgets (b : Browser) (id : string) :
  window b = true → setItem_error b = None →
  getConversation (deleteConversation b id) id = None
  ∧ (∀ other, other ≠ id →
       getConversation (deleteConversation b id) other = getConversation b other)
  ∧ getCurrentConversationId (deleteConversation b id)
    = (if decide (getCurrentConversationId b = Some id) then None
       else getCurrentConversationId b).
Proof.
  intros Hw He.
  assert (Hall : getAllConversations (deleteConversation b id)
                 = List.filter (fun c => negb (String.eqb (conv_id c) id))
                     (getAllConversations b)).
  { unfold deleteConversation. rewrite Hw, He.
    unfold getCurrentConversationId, getAllConversations. simpl. rewrite Hw.
    destruct (sessionStorage b) as [current|]; simpl; [|by rewrite Hw].
    destruct (String.eqb current id); simpl; by rewrite Hw. }
  split; [|split].
  - unfold getConversation. rewrite Hall, find_filter.
    apply find_never. intros x. by destruct (String.eqb (conv_id x) id).
  - intros other Hne. unfold getConversation. rewrite Hall, find_filter.
    apply find_ext. intros x.
    destruct (String.eqb_spec (conv_id x) id) as [Heq|Hneq]; simpl.
    + symmetry. apply String.eqb_neq. congruence.
    + done.
  - unfold deleteConversation. rewrite Hw, He.
    unfold getCurrentConversationId. simpl. rewrite Hw.
    destruct (sessionStorage b) as [current|] eqn:Es; simpl.
    + destruct (String.eqb_spec current id) as [->|Hne]; simpl; rewrite Hw, ?Es.
      * by case_decide.
      * case_decide; congruence.
    + by rewrite Hw, Es.
Qed.

Lemma deleteConversation_forgets_witness :
  getConversation (deleteConversation fixtureBrowser "conv_2") "conv_2" = None
  ∧ getConversation (deleteConversation fixtureBrowser "conv_2") "conv_1"
    = Some (fixtureConversation "conv_1" 1000)
  ∧ getCurrentConversationId (deleteConversation fixtureBrowser "conv_2") = None.
Proof.
  destruct (deleteConversation_forgets fixtureBrowser "conv_2" eq_refl eq_refl)
    as (H1 & H2 & H3).
  split; [exact H1|]. split; [|exact H3].
  rewrite (H2 "conv_1"); [reflexivity|discriminate].
Defined.

(** X29. Appending to a conversation: with an id that is not stored
    [addMessageToConversation] changes nothing; with a stored id, a storage
    that accepts the write and a clock later than every stored update, the
    conversation is afterwards found under the same id with the message
    appended last and the new update time. *)
Theorem addMessageToConversation_appends (b : Browser) (now : Z) (id : string)
    (message : Message) :
  (getConversation b id = None → addMessageToConversation b now id message = b)
  ∧ (∀ c, getConversation b id = Some c →
       window b = true → setItem_error b = None →
       (∀ old, old ∈ getAllConversations b → updatedAt old < now) →
       ∃ saved,
         getConversation (addMessageToConversation b now id message) id = Some saved
         ∧ conv_messages saved = conv_messages c ++ [message]
         ∧ updatedAt saved = now).
Proof.
  split.
  - intros Hnone. unfold addMessageToConversation. by rewrite Hnone.
  - intros c Hc Hw He Hrecent. unfold addMessageToConversation. rewrite Hc.
    assert (Hid : conv_id c = id).
    { apply find_some in Hc as [_ Hid]. by apply String.eqb_eq in Hid. }
    set (appended := {| conv_id := conv_id c;
                        conv_messages := conv_messages c ++ [message];
                        createdAt := createdAt c; updatedAt := updatedAt c;
                        title := title c |}).
    exists (touched now appended). split; [|done].
    subst id. exact (saveConversation_lookup b now appended Hw He Hrecent).
Qed.

Lemma addMessageToConversation_appends_witness :
  ∃ saved,
    getConversation
      (addMessageToConversation fixtureBrowser 3000 "conv_1"
         {| msg_role := user; msg_content := "the cheaper one"; msg_products := None |})
      "conv_1" = Some saved
    ∧ conv_messages saved
      = fixtureHistory
        ++ [{| msg_role := user; msg_content := "the cheaper one"; msg_products := None |}].
Proof.
  destruct (addMessageToConversation_appends fixtureBrowser 3000 "conv_1"
              {| msg_role := user; msg_content := "the cheaper one"; msg_products := None |})
    as [_ H].
  destruct (H (fixtureConversation "conv_1" 1000) eq_refl eq_refl eq_refl)
    as (saved & H1 & H2 & _).
  - intros old Hold. apply list_elem_of_In in Hold. simpl in Hold.
    destruct Hold as [<-|[<-|[]]]; simpl; lia.
  - by exists saved.
Defined.

(** X30. The limit of [getConversationContext] is a number of trailing
    messages only when it is positive: with a limit of 0 the context is
    that of the whole conversation, the same as with a limit equal to the
    number of its messages. *)
Theorem getConversationContext_zero_limit (b : Browser) (id : string) (c : Conversation) :
  getConversation b id = Some c →
  getConversationContext b id 0
  = getConversationContext b id (Z.of_nat (length (conv_messages c)))
  ∧ (conv_messages c ≠ [] → getConversationContext b id 0
     = join (nl +:+ nl)
         (map (fun msg =>
                 (match msg_role msg with user => "User" | assistant => "Assistant" end)
                 +:+ ": " +:+ msg_content msg)
            (conv_messages c))).
Proof.
  intros Hc. unfold getConversationContext. rewrite Hc.
  destruct (conv_messages c) as [|m ms] eqn:E; [done|].
  assert (H0 : slice_from (- 0) (m :: ms) = m :: ms) by done.
  assert (Hn : slice_from (- Z.of_nat (length (m :: ms))) (m :: ms) = m :: ms).
  { unfold slice_from. destruct (Z.ltb_spec (- Z.of_nat (length (m :: ms))) 0) as [_|Hge].
    - by replace (Z.to_nat _) with 0%nat by lia.
    - simpl in Hge. lia. }
  rewrite H0, Hn. done.
Qed.

Lemma getConversationContext_zero_limit_witness :
  getConversationContext fixtureBrowser "conv_1" 0
  = getConversationContext fixtureBrowser "conv_1" 2.
Proof.
  by destruct (getConversationContext_zero_limit fixtureBrowser "conv_1"
                 (fixtureConversation "conv_1" 1000) eq_refl) as [H _].
Defined.
